(** * Bulk-load row preparation for the Cassandra test bench

  A shallow embedding of the row generators
  ([dsbulk_generate.py], [generate.py], [generate_usertomessage.py],
  [generator_chats_peerids.py]), of the SQL value tokenizer
  ([docker_dsbulk_loader.py]) and of the CSV field encoder, followed by
  the properties established about them.

  Conventions of the embedding:
  - Python [int] is [Z]; [//] is [Z.div] (both round towards minus
    infinity).
  - Python [str] is [string], read as the UTF-8 bytes of the text; the
    whitespace removed by [str.strip] is the ASCII whitespace, and case
    mapping covers ASCII and the basic Cyrillic letters the word table
    uses.
  - [dict] is [gmap], [set] is [gset].
  - The module-global state of [random] and the wall clock read by
    [datetime.now()] form the interpreter state [W], accessed through
    the operations of the class [PyRuntime]; floats drawn by
    [random.random()] are exact rationals. *)

From Stdlib Require Import Ascii QArith Qround.
From stdpp Require Import gmap strings list pretty.

Open Scope Z_scope.

(* ================================================================== *)
(** ** Python strings *)
(* ================================================================== *)

Module PyStr.

Definition dquote : ascii := ascii_of_nat 34.
Definition squote : ascii := ascii_of_nat 39.
Definition backslash : ascii := ascii_of_nat 92.
Definition newline : ascii := ascii_of_nat 10.
Definition comma : ascii := ascii_of_nat 44.
Definition space : ascii := ascii_of_nat 32.
Definition lbracket : ascii := ascii_of_nat 91.
Definition rbracket : ascii := ascii_of_nat 93.
Definition lbrace : ascii := ascii_of_nat 123.
Definition rbrace : ascii := ascii_of_nat 125.

(** One-character string. *)
Definition chr (c : ascii) : string := String c EmptyString.

Definition ascii_eqb (a b : ascii) : bool := Ascii.eqb a b.

(** [c in s] for a single character [c]. *)
Fixpoint contains (c : ascii) (s : string) : bool :=
  match s with
  | EmptyString => false
  | String a rest => ascii_eqb a c || contains c rest
  end.

(** [s.replace(c, new)] for a one-character pattern. *)
Fixpoint replace_char (c : ascii) (new : string) (s : string) : string :=
  match s with
  | EmptyString => EmptyString
  | String a rest =>
      if ascii_eqb a c then new +:+ replace_char c new rest
      else String a (replace_char c new rest)
  end.

(** [s.replace(c1 c2, new)] for a two-character pattern: occurrences are
    taken left to right and do not overlap. *)
Fixpoint replace_pair (c1 c2 : ascii) (new : string) (s : string) : string :=
  match s with
  | EmptyString => EmptyString
  | String a rest =>
      match rest with
      | String b rest' =>
          if ascii_eqb a c1 && ascii_eqb b c2
          then new +:+ replace_pair c1 c2 new rest'
          else String a (replace_pair c1 c2 new rest)
      | EmptyString => String a EmptyString
      end
  end.

(** The ASCII characters for which [str.isspace] holds: tab, line feed,
    vertical tab, form feed, carriage return, the four separators
    0x1c-0x1f and the space. *)
Definition is_space (c : ascii) : bool :=
  let n := nat_of_ascii c in
  ((9 <=? n)%nat && (n <=? 13)%nat)
  || ((28 <=? n)%nat && (n <=? 32)%nat).

Fixpoint lstrip (s : string) : string :=
  match s with
  | EmptyString => EmptyString
  | String a rest => if is_space a then lstrip rest else s
  end.

(** [rstrip]: a character survives when it is not a space or when
    something survives after it. *)
Fixpoint rstrip (s : string) : string :=
  match s with
  | EmptyString => EmptyString
  | String a rest =>
      match rstrip rest with
      | EmptyString => if is_space a then EmptyString else String a EmptyString
      | kept => String a kept
      end
  end.

(** [s.strip()] on a text whose white space is ASCII. [str.strip] also
    removes the white space beyond ASCII (U+0085, U+00A0, U+1680, U+2000
    to U+200A, U+2028, U+2029, U+202F, U+205F, U+3000); a text of ASCII
    and Cyrillic characters holds none of it, and there [strip] is
    [str.strip]. *)
Definition strip (s : string) : string := rstrip (lstrip s).

(** [s.startswith(c)] and [s.endswith(c)] for one character. *)
Definition startswith (c : ascii) (s : string) : bool :=
  match s with
  | EmptyString => false
  | String a _ => ascii_eqb a c
  end.

Fixpoint endswith (c : ascii) (s : string) : bool :=
  match s with
  | EmptyString => false
  | String a EmptyString => ascii_eqb a c
  | String _ rest => endswith c rest
  end.

(** [s[1:-1]]. *)
Definition slice_1_m1 (s : string) : string :=
  String.substring 1 (String.length s - 2) s.

(** ASCII part of [str.upper]: the letters a to z. [str.upper] also
    maps a few characters beyond ASCII to ASCII letters (U+017F to S,
    U+0131 to I, U+00DF to SS, the ligatures U+FB00 to U+FB06); none of
    them is Cyrillic, so on a text of ASCII and Cyrillic characters
    [upper s] is one of the words TRUE, FALSE and NULL exactly when
    [s.upper()] is. *)
Definition upper_char (c : ascii) : ascii :=
  let n := nat_of_ascii c in
  if ((97 <=? n)%nat && (n <=? 122)%nat) then ascii_of_nat (n - 32) else c.

Definition lower_char (c : ascii) : ascii :=
  let n := nat_of_ascii c in
  if ((65 <=? n)%nat && (n <=? 90)%nat) then ascii_of_nat (n + 32) else c.

Fixpoint upper (s : string) : string :=
  match s with
  | EmptyString => EmptyString
  | String a rest => String (upper_char a) (upper rest)
  end.

Fixpoint lower (s : string) : string :=
  match s with
  | EmptyString => EmptyString
  | String a rest => String (lower_char a) (lower rest)
  end.

(** [s.capitalize()] on UTF-8 text: the first letter in upper case (ASCII,
    or a two-byte basic Cyrillic letter: [d0 b0..bf] becomes [d0 90..9f]
    and [d1 80..8f] becomes [d0 a0..af]); the rest is lowered for ASCII
    letters and left as it is otherwise (the word table is lower case). *)
Definition capitalize (s : string) : string :=
  match s with
  | EmptyString => EmptyString
  | String a rest =>
      match rest with
      | String b rest' =>
          let x := nat_of_ascii a in
          let y := nat_of_ascii b in
          if ((x =? 208)%nat && (176 <=? y)%nat && (y <=? 191)%nat)
          then String a (String (ascii_of_nat (y - 32)) (lower rest'))
          else if ((x =? 209)%nat && (128 <=? y)%nat && (y <=? 143)%nat)
          then String (ascii_of_nat 208) (String (ascii_of_nat (y + 32)) (lower rest'))
          else String (upper_char a) (lower rest)
      | EmptyString => String (upper_char a) EmptyString
      end
  end.

(** [sep.join(parts)]. *)
Fixpoint join (sep : string) (parts : list string) : string :=
  match parts with
  | [] => EmptyString
  | [p] => p
  | p :: rest => p +:+ sep +:+ join sep rest
  end.

(** [str(n)] for an integer. *)
Definition str_of_int (n : Z) : string := pretty n.

(** ['[' + ','.join(str(x) for x in ids) + ']']. *)
Definition bracket_list (ids : list Z) : string :=
  chr lbracket +:+ join (chr comma) (str_of_int <$> ids) +:+ chr rbracket.

End PyStr.

(* ================================================================== *)
(** ** The field encoder of [dsbulk_generate.py] *)
(* ================================================================== *)

Module Encoder.
Import PyStr.

(** The values a row hands to the encoder. *)
Inductive value :=
| VNone
| VBool (b : bool)
| VInt (n : Z)
| VStr (s : string)
| VList (l : list Z).

(** [str(True).lower()], [str(False).lower()]. *)
Definition str_of_bool_lower (b : bool) : string :=
  if b then "true" else "false".

(** [str(l)] for a list of integers, as in [[1, 2, 3]]. *)
Definition str_of_list (l : list Z) : string :=
  chr lbracket +:+ join ", " (str_of_int <$> l) +:+ chr rbracket.

(** The f-string that wraps [escaped] in double quotes, [escaped] being
    [s] with its double quotes doubled. *)
Definition quoted (s : string) : string :=
  chr dquote +:+ replace_char dquote (chr dquote +:+ chr dquote) s +:+ chr dquote.

Definition has_special (s : string) : bool :=
  contains comma s || contains newline s || contains dquote s.

Definition escape_csv_value (v : value) : string :=
  match v with
  | VNone => ""
  | VBool b => str_of_bool_lower b
  | VInt n => str_of_int n
  | VStr s =>
      if startswith lbrace (strip s) && endswith rbrace (strip s)
      then quoted s
      else if has_special s then quoted s
      else s
  | VList l =>
      let str_value := str_of_list l in
      if contains dquote str_value || contains comma str_value
         || contains newline str_value
      then quoted str_value
      else str_value
  end.

End Encoder.

(* ================================================================== *)
(** ** The SQL value tokenizer of [docker_dsbulk_loader.py] *)
(* ================================================================== *)

Module SqlParser.
Import PyStr.

Definition clean_value (value : string) : string :=
  if String.eqb value "" then ""
  else if String.eqb (upper value) "TRUE" then "true"
  else if String.eqb (upper value) "FALSE" then "false"
  else if String.eqb (upper value) "NULL" then ""
  else
    let value :=
      if startswith squote value && endswith squote value
      then replace_pair squote squote (chr squote) (slice_1_m1 value)
      else value in
    if startswith lbracket value && endswith rbracket value
    then value
    else value.

(** The scanner state: the values emitted so far, the token being
    accumulated and the three mode flags. *)
Record scan_state := {
  values : list string;
  current : string;
  in_quotes : bool;
  in_list : bool;
  escape_next : bool
}.

Definition scan_init : scan_state :=
  {| values := []; current := ""; in_quotes := false;
     in_list := false; escape_next := false |}.

Definition push_char (c : ascii) (st : scan_state) : scan_state :=
  {| values := values st; current := current st +:+ chr c;
     in_quotes := in_quotes st; in_list := in_list st;
     escape_next := escape_next st |}.

(** The body of [while i < len(values_str)], on the characters from
    position [i] on; the doubled quote consumes two characters. *)
Fixpoint scan (s : string) (st : scan_state) : scan_state :=
  match s with
  | EmptyString => st
  | String char rest =>
      if escape_next st then
        scan rest {| values := values st; current := current st +:+ chr char;
                     in_quotes := in_quotes st; in_list := in_list st;
                     escape_next := false |}
      else if ascii_eqb char backslash then
        scan rest {| values := values st; current := current st;
                     in_quotes := in_quotes st; in_list := in_list st;
                     escape_next := true |}
      else if ascii_eqb char squote && negb (in_quotes st) then
        scan rest {| values := values st; current := current st;
                     in_quotes := true; in_list := in_list st;
                     escape_next := escape_next st |}
      else if ascii_eqb char squote && in_quotes st then
        match rest with
        | String next rest' =>
            if ascii_eqb next squote
            then scan rest' (push_char squote st)
            else scan rest {| values := values st; current := current st;
                              in_quotes := false; in_list := in_list st;
                              escape_next := escape_next st |}
        | EmptyString =>
            scan rest {| values := values st; current := current st;
                         in_quotes := false; in_list := in_list st;
                         escape_next := escape_next st |}
        end
      else if ascii_eqb char lbracket && negb (in_quotes st) then
        scan rest {| values := values st; current := current st +:+ chr char;
                     in_quotes := in_quotes st; in_list := true;
                     escape_next := escape_next st |}
      else if ascii_eqb char rbracket && in_list st then
        scan rest {| values := values st; current := current st +:+ chr char;
                     in_quotes := in_quotes st; in_list := false;
                     escape_next := escape_next st |}
      else if ascii_eqb char comma && negb (in_quotes st) && negb (in_list st) then
        scan rest {| values := values st ++ [clean_value (strip (current st))];
                     current := ""; in_quotes := in_quotes st;
                     in_list := in_list st; escape_next := escape_next st |}
      else
        scan rest (push_char char st)
  end.

Definition parse_sql_values (values_str : string) : list string :=
  let values_str := strip (replace_char newline (chr space) values_str) in
  let st := scan values_str scan_init in
  if String.eqb (current st) "" then values st
  else values st ++ [clean_value (strip (current st))].

End SqlParser.

(* ================================================================== *)
(** ** The interpreter state: [random] and the clock *)
(* ================================================================== *)

(** A population handed to [random.choice] or [random.sample]: either
    [list(range(lo, hi))], kept symbolic, or an explicit list. *)
Inductive pyseq :=
| Range (lo hi : Z)
| Items (l : list Z).

Definition pylen (s : pyseq) : Z :=
  match s with
  | Range lo hi => Z.max 0 (hi - lo)
  | Items l => Z.of_nat (length l)
  end.

Definition pyget (s : pyseq) (i : Z) : Z :=
  match s with
  | Range lo hi => lo + i
  | Items l => nth (Z.to_nat i) l 0
  end.

(** The operations of the standard library that read or advance the
    interpreter state [W]:
    - [seed s]: [random.seed(s)];
    - [random]: [random.random()], a rational in the unit interval;
    - [randbelow n]: [Random._randbelow(n)], on which [choice], [randint]
      and [randrange] are built;
    - [sample pop k]: [random.sample(pop, k)];
    - [kludge_json media_type size x width height duration]: the text
      [json.dumps(kludge_data)] of [generate.py] for the media type and
      the values drawn for the size, the url ([x] is the number whose
      [hashlib.md5] digest ends the url), the width, the height and the
      duration; the id in it comes from [uuid.uuid4], which reads the
      randomness of the operating system and leaves [random] alone;
    - [datetime_now]: the wall-clock reading of [datetime.now()], in
      whole seconds after 1970-01-01 00:00:00;
    - [naive_timestamp t]: [d.timestamp()] for the naive datetime [d]
      whose wall-clock reading lies [t] seconds after 1970-01-01
      00:00:00. Python reads a naive datetime as local time, so the
      result depends on the time zone of the host; on a host set to UTC
      it is [t] itself. *)
Class PyRuntime (W : Type) := {
  seed : Z -> W -> W;
  random : W -> Q * W;
  randbelow : Z -> W -> Z * W;
  sample : pyseq -> Z -> W -> list Z * W;
  kludge_json : string -> Z -> Q -> option Z -> option Z -> option Z
                -> W -> string * W;
  datetime_now : W -> Z * W;
  naive_timestamp : Z -> Z
}.

(** What the generators rely on: [_randbelow(n)] lies in [0, n). *)
Class PyRuntimeLaws (W : Type) `{PyRuntime W} := {
  randbelow_range : forall (n : Z) (w : W),
    0 < n -> 0 <= (randbelow n w).1 < n
}.

(** Sequencing of calls that advance the interpreter state. *)
Module Py.

Definition M (W A : Type) : Type := W -> A * W.

Definition ret {W A : Type} (a : A) : M W A := fun w => (a, w).

Definition bind {W A B : Type} (m : M W A) (k : A -> M W B) : M W B :=
  fun w => let (a, w') := m w in k a w'.

(** A comprehension [[m for _ in range(n)]]. *)
Fixpoint repeatM {W A : Type} (n : nat) (m : M W A) : M W (list A) :=
  match n with
  | O => ret []
  | S n' => bind m (fun a => bind (repeatM n' m) (fun l => ret (a :: l)))
  end.

End Py.

Declare Scope py_scope.
Delimit Scope py_scope with py.
Notation "x <- m ;; k" := (Py.bind m (fun x => k))
  (at level 20, m at level 99, k at level 200) : py_scope.
Notation "' p <- m ;; k" := (Py.bind m (fun p => k))
  (at level 20, p pattern, m at level 99, k at level 200) : py_scope.

Section RandomApi.
Context {W : Type} `{PyRuntime W}.
Local Open Scope py_scope.

(** [random.random() < p]. *)
Definition lt_prob (x p : Q) : bool := negb (Qle_bool p x).

Definition bernoulli (p : Q) : Py.M W bool :=
  x <- random ;; Py.ret (lt_prob x p).

(** [random.randint(a, b)]. *)
Definition randint (a b : Z) : Py.M W Z :=
  i <- randbelow (b - a + 1) ;; Py.ret (a + i).

(** [random.choice] on [list(range(lo, hi))] and on a literal list. *)
Definition choice (s : pyseq) : Py.M W Z :=
  i <- randbelow (pylen s) ;; Py.ret (pyget s i).

Definition choice_of {A : Type} (d : A) (l : list A) : Py.M W A :=
  i <- randbelow (Z.of_nat (length l)) ;; Py.ret (nth (Z.to_nat i) l d).

(** [itertools.accumulate(weights)]. *)
Fixpoint accumulate (acc : Q) (ws : list Q) : list Q :=
  match ws with
  | [] => []
  | x :: rest => (acc + x)%Q :: accumulate (acc + x)%Q rest
  end.

(** [bisect.bisect(cum, y, 0, hi)] on an increasing list. *)
Fixpoint bisect (cum : list Q) (y : Q) (hi : nat) : nat :=
  match hi, cum with
  | S hi', c :: rest => if Qle_bool c y then S (bisect rest y hi') else O
  | _, _ => O
  end.

(** [random.choices(population, weights=weights, k=1)[0]]. *)
Definition choices1 (d : string) (population : list string) (weights : list Q)
  : Py.M W string :=
  let cum_weights := accumulate 0%Q weights in
  let total := List.last cum_weights 0%Q in
  x <- random ;;
  Py.ret (nth (bisect cum_weights (x * total)%Q (length population - 1))
              population d).

(** One [if random.random() < p: flags |= bit]. *)
Definition flag_bit (p : Q) (bit : Z) (flags : Z) : Py.M W Z :=
  b <- bernoulli p ;; Py.ret (if b then Z.lor flags bit else flags).

End RandomApi.

(* ================================================================== *)
(** ** The Message generator of [dsbulk_generate.py] *)
(* ================================================================== *)

Module Message.
Import PyStr Encoder.

Record row := {
  chat_id : Z;
  bucket : Z;
  chat_msg_local_id : Z;
  flags : Z;
  date : Z;
  update_time : Z;
  author_id : Z;
  text : string;
  kludges : string;
  forwarded : string;
  forwarded_message_ids : string;
  mentions : string;
  marked_users : string;
  ttl : Z;
  deleted_for_all : string
}.

Definition users : pyseq := Range 1000 1000000.
Definition chats : pyseq := Range 1000 500000.

Definition common_words : list string :=
  [ "привет"; "как"; "дела"; "нормально"; "спасибо"; "пока"; "что"; "где";
    "когда"; "почему"; "сегодня"; "завтра"; "вчера"; "работа"; "дом"; "друзья";
    "встреча"; "совещание"; "проект"; "задача"; "срочно"; "важно"; "файл"; "ссылка" ].

Definition generate_message_id (chat_id local_id : Z) : Z := local_id.

Definition generate_bucket (message_id : Z) : Z := message_id / 1000.

(** The wall-clock reading of the naive [datetime(2020, 1, 1)], in
    seconds after 1970-01-01 00:00:00. *)
Definition base_date_2020 : Z := 1577836800.

Section Gen.
Context {W : Type} `{PyRuntime W}.
Local Open Scope py_scope.

Definition generate_flags : Py.M W Z :=
  f <- flag_bit (8 # 10) 1 0 ;;
  f <- flag_bit (1 # 10) 2 f ;;
  f <- flag_bit (2 # 100) 4 f ;;
  f <- flag_bit (15 # 100) 8 f ;;
  f <- flag_bit (3 # 10) 16 f ;;
  Py.ret f.

(** The arithmetic is on the wall-clock reading; [final_date.timestamp()]
    then takes it as local time of the host. *)
Definition generate_timestamp : Py.M W Z :=
  days_ago <- randint 0 (3 * 365) ;;
  let random_date := base_date_2020 - days_ago * 86400 in
  hours <- randint 0 23 ;;
  minutes <- randint 0 59 ;;
  seconds <- randint 0 59 ;;
  let random_time := hours * 3600 + minutes * 60 + seconds in
  let final_date := random_date + random_time in
  Py.ret (naive_timestamp final_date).

(** One turn of the word loop of [generate_text]. *)
Definition generate_word : Py.M W string :=
  word <- choice_of "" common_words ;;
  cap <- bernoulli (3 # 10) ;;
  Py.ret (if cap then capitalize word else word).

(** [words_count] is the constant 1 in this file. *)
Definition generate_text : Py.M W string :=
  words <- Py.repeatM 1 generate_word ;;
  let text := join " " words in
  punct <- bernoulli (7 # 10) ;;
  if punct then
    p <- choice_of "" ["."; "!"; "?"] ;; Py.ret (text +:+ p)
  else Py.ret text.

(** The function returns the empty string on its first line. *)
Definition generate_kludges : Py.M W string := Py.ret "".

Definition generate_forwarded_message_ids : Py.M W string :=
  fwd <- bernoulli (15 # 100) ;;
  if fwd then
    count <- randint 1 3 ;;
    ids <- Py.repeatM (Z.to_nat count)
             (i <- randint 1000000 9999999 ;; Py.ret (str_of_int i)) ;;
    Py.ret (chr lbracket +:+ join (chr comma) ids +:+ chr rbracket)
  else Py.ret "[]".

Definition generate_mentions : Py.M W string :=
  choices1 "" ["none"; "all"; "online"; "user"]
           [(7 # 10)%Q; (1 # 10)%Q; (1 # 10)%Q; (1 # 10)%Q].

Definition generate_marked_users (author_id : Z) : Py.M W string :=
  marked <- bernoulli (2 # 10) ;;
  if marked then
    drawn <- sample users 10 ;;
    let available_users := filter (fun u => u <> author_id) drawn in
    count <- randint 1 (Z.min 5 (Z.of_nat (length available_users))) ;;
    picked <- sample (Items available_users) count ;;
    Py.ret (bracket_list picked)
  else Py.ret "[]".

Definition generate_ttl : Py.M W Z :=
  has_ttl <- bernoulli (5 # 100) ;;
  if has_ttl then choice_of 0 [3600; 86400; 604800; 2592000]
  else Py.ret 0.

Definition generate_message_row (message_idx : Z) (chat_id : option Z)
  : Py.M W row :=
  chat_id <- match chat_id with
             | None => choice chats
             | Some c => Py.ret c
             end ;;
  let message_id := generate_message_id chat_id message_idx in
  author_id <- choice users ;;
  date <- generate_timestamp ;;
  edited <- bernoulli (1 # 10) ;;
  update_time <- (if edited
                  then d <- randint 60 3600 ;; Py.ret (date + d)
                  else Py.ret date) ;;
  text <- generate_text ;;
  kludges <- generate_kludges ;;
  forwarded <- bernoulli (15 # 100) ;;
  forwarded_message_ids <- generate_forwarded_message_ids ;;
  mentions <- generate_mentions ;;
  marked_users <- generate_marked_users author_id ;;
  ttl <- generate_ttl ;;
  deleted_for_all <- bernoulli (1 # 100) ;;
  flags <- generate_flags ;;
  Py.ret {| chat_id := chat_id;
            bucket := generate_bucket message_id;
            chat_msg_local_id := message_id;
            flags := flags;
            date := date;
            update_time := update_time;
            author_id := author_id;
            text := escape_csv_value (VStr text);
            kludges := escape_csv_value (VStr kludges);
            forwarded := str_of_bool_lower forwarded;
            forwarded_message_ids := forwarded_message_ids;
            mentions := mentions;
            marked_users := marked_users;
            ttl := ttl;
            deleted_for_all := str_of_bool_lower deleted_for_all |}.

(** The row stream of every sink: [generate_message_row(i, chat_id)] for
    [i] running from [start] over [n] indices. *)
Fixpoint generate_rows (n : nat) (start : Z) (chat_id : option Z)
  : Py.M W (list row) :=
  match n with
  | O => Py.ret []
  | S n' =>
      r <- generate_message_row start chat_id ;;
      rest <- generate_rows n' (start + 1) chat_id ;;
      Py.ret (r :: rest)
  end.

(** [generate_optimized_csv]: what the loop leaves in [buffer] and the
    blocks it has handed to [writer.writerows], oldest first. *)
Definition BUFFER_SIZE : Z := 1000.

Fixpoint optimized_loop (n : nat) (i : Z) (chat_id : option Z)
    (buffer : list row) (written : list (list row))
  : Py.M W (list row * list (list row)) :=
  match n with
  | O => Py.ret (buffer, written)
  | S n' =>
      r <- generate_message_row i chat_id ;;
      let buffer := buffer ++ [r] in
      if BUFFER_SIZE <=? Z.of_nat (length buffer)
      then optimized_loop n' (i + 1) chat_id [] (written ++ [buffer])
      else optimized_loop n' (i + 1) chat_id buffer written
  end.

(** The blocks passed to [writerows] by a whole run, the remainder
    included. *)
Definition generate_optimized_csv (count : nat) (chat_id : option Z)
  : Py.M W (list (list row)) :=
  '(buffer, written) <- optimized_loop count 0 chat_id [] [] ;;
  match buffer with
  | [] => Py.ret written
  | _ => Py.ret (written ++ [buffer])
  end.

End Gen.
End Message.

(* ================================================================== *)
(** ** The Message generator of [generate.py] *)
(* ================================================================== *)

Module MessageCql.
Import PyStr.

(** The message dictionary of [generate_message]: here the fields keep
    their Python types. *)
Record message := {
  chat_id : Z;
  bucket : Z;
  chat_msg_local_id : Z;
  flags : Z;
  date : Z;
  update_time : Z;
  author_id : Z;
  text : string;
  kludges : string;
  forwarded : bool;
  forwarded_message_ids : list Z;
  mentions : string;
  marked_users : list Z;
  ttl : Z;
  deleted_for_all : bool
}.

Definition generate_message_id (chat_id local_id : Z) : Z := local_id.

Definition generate_bucket (message_id : Z) : Z := message_id / 1000.

Section Gen.
Context {W : Type} `{PyRuntime W}.
Local Open Scope py_scope.

Definition generate_text (min_words max_words : Z) : Py.M W string :=
  words_count <- randint min_words max_words ;;
  words <- Py.repeatM (Z.to_nat words_count) Message.generate_word ;;
  let text := join " " words in
  punct <- bernoulli (7 # 10) ;;
  if punct then
    p <- choice_of "" ["."; "!"; "?"] ;; Py.ret (text +:+ p)
  else Py.ret text.

(** [media_type in [...]]. *)
Definition media_in (media_type : string) (types : list string) : bool :=
  existsb (String.eqb media_type) types.

(** The entries of [kludge_data] are evaluated in the order written:
    the id, the size, the number hashed into the url, then width and
    height for a photo or a video and the duration for a video, an audio
    or a voice message. *)
Definition generate_kludges : Py.M W string :=
  has_media <- bernoulli (3 # 10) ;;
  if has_media then
    media_type <- choice_of ""
      ["photo"; "video"; "document"; "audio"; "voice"; "sticker"] ;;
    size <- randint 1024 (50 * 1024 * 1024) ;;
    x <- random ;;
    width <- (if media_in media_type ["photo"; "video"]
              then v <- choice_of 0 [1280; 1920; 2560] ;; Py.ret (Some v)
              else Py.ret None) ;;
    height <- (if media_in media_type ["photo"; "video"]
               then v <- choice_of 0 [720; 1080; 1440] ;; Py.ret (Some v)
               else Py.ret None) ;;
    duration <- (if media_in media_type ["video"; "audio"; "voice"]
                 then v <- randint 1 300 ;; Py.ret (Some v)
                 else Py.ret None) ;;
    kludge_json media_type size x width height duration
  else Py.ret "{}".

Definition generate_forwarded_message_ids : Py.M W (list Z) :=
  fwd <- bernoulli (15 # 100) ;;
  if fwd then
    count <- randint 1 3 ;;
    Py.repeatM (Z.to_nat count) (randint 1000000 9999999)
  else Py.ret [].

Definition generate_marked_users (author_id : Z) : Py.M W (list Z) :=
  marked <- bernoulli (2 # 10) ;;
  if marked then
    drawn <- sample Message.users 10 ;;
    let available_users := filter (fun u => u <> author_id) drawn in
    count <- randint 1 (Z.min 5 (Z.of_nat (length available_users))) ;;
    sample (Items available_users) count
  else Py.ret [].

Definition generate_message (message_idx : Z) (chat_id : option Z)
  : Py.M W message :=
  chat_id <- match chat_id with
             | None => choice Message.chats
             | Some c => Py.ret c
             end ;;
  let message_id := generate_message_id chat_id message_idx in
  author_id <- choice Message.users ;;
  date <- Message.generate_timestamp ;;
  edited <- bernoulli (1 # 10) ;;
  update_time <- (if edited
                  then d <- randint 60 3600 ;; Py.ret (date + d)
                  else Py.ret date) ;;
  text <- generate_text 3 50 ;;
  kludges <- generate_kludges ;;
  first_ids <- generate_forwarded_message_ids ;;
  let forwarded := (0 <? Z.of_nat (length first_ids)) in
  forwarded_message_ids <- generate_forwarded_message_ids ;;
  mentions <- Message.generate_mentions ;;
  marked_users <- generate_marked_users author_id ;;
  ttl <- Message.generate_ttl ;;
  deleted_for_all <- bernoulli (1 # 100) ;;
  flags <- Message.generate_flags ;;
  Py.ret {| chat_id := chat_id;
            bucket := generate_bucket message_id;
            chat_msg_local_id := message_id;
            flags := flags;
            date := date;
            update_time := update_time;
            author_id := author_id;
            text := text;
            kludges := kludges;
            forwarded := forwarded;
            forwarded_message_ids := forwarded_message_ids;
            mentions := mentions;
            marked_users := marked_users;
            ttl := ttl;
            deleted_for_all := deleted_for_all |}.

End Gen.
End MessageCql.

(* ================================================================== *)
(** ** The UserToMessage generator of [generate_usertomessage.py] *)
(* ================================================================== *)

Module UserToMessage.

Record row := {
  user_id : Z;
  peer_id : Z;
  chat_local_id : Z;
  flags : Z
}.

(** The generator instance: the interpreter state it draws from and its
    two private tables. *)
Record generator (W : Type) := {
  env : W;
  chat_local_counter : gmap (Z * Z) Z;
  generated_messages : gset (Z * Z * Z)
}.
Arguments env {W} _.
Arguments chat_local_counter {W} _.
Arguments generated_messages {W} _.

Definition users : pyseq := Range 1000 1000000.
Definition peers : pyseq := Range 1000 500000.

Section Gen.
Context {W : Type} `{PyRuntime W}.
Local Open Scope py_scope.

(** [UserToMessageCSVGenerator(seed)]. *)
Definition new_generator (s : Z) (w : W) : generator W :=
  {| env := seed s w; chat_local_counter := ∅; generated_messages := ∅ |}.

(** A call that only draws from [random]. *)
Definition draw {A : Type} (m : Py.M W A) (g : generator W) : A * generator W :=
  let (a, w) := m (env g) in
  (a, {| env := w; chat_local_counter := chat_local_counter g;
         generated_messages := generated_messages g |}).

Definition set_counter (key : Z * Z) (v : Z) (g : generator W) : generator W :=
  {| env := env g; chat_local_counter := <[key := v]> (chat_local_counter g);
     generated_messages := generated_messages g |}.

Definition add_message (k : Z * Z * Z) (g : generator W) : generator W :=
  {| env := env g; chat_local_counter := chat_local_counter g;
     generated_messages := {[ k ]} ∪ generated_messages g |}.

(** [if key not in self.chat_local_counter: self.chat_local_counter[key] = 0]. *)
Definition ensure_key (key : Z * Z) (g : generator W) : generator W :=
  match chat_local_counter g !! key with
  | None => set_counter key 0 g
  | Some _ => g
  end.

(** [self.chat_local_counter[key]] for a key that is present. *)
Definition counter_at (key : Z * Z) (g : generator W) : Z :=
  default 0 (chat_local_counter g !! key).

Definition get_next_chat_local_id (user_id peer_id : Z) (g : generator W)
  : Z * generator W :=
  let key := (user_id, peer_id) in
  let g := ensure_key key g in
  let g := set_counter key (counter_at key g + 1) g in
  (counter_at key g, g).

Definition generate_flags : Py.M W Z :=
  f <- flag_bit (8 # 10) 1 0 ;;
  f <- flag_bit (1 # 10) 2 f ;;
  f <- flag_bit (2 # 100) 4 f ;;
  f <- flag_bit (15 # 100) 8 f ;;
  f <- flag_bit (3 # 10) 16 f ;;
  f <- flag_bit (5 # 100) 32 f ;;
  f <- flag_bit (2 # 10) 64 f ;;
  f <- flag_bit (1 # 100) 128 f ;;
  Py.ret f.

(** The [while True] search: [fuel] bounds the number of turns the model
    follows, [None] meaning that the loop is still running after them. *)
Fixpoint generate_unique_message_key (fuel : nat) (g : generator W)
  : option ((Z * Z * Z) * generator W) :=
  match fuel with
  | O => None
  | S fuel' =>
      let (user_id, g) := draw (choice users) g in
      let (peer_id, g) := draw (choice peers) g in
      let key := (user_id, peer_id) in
      match chat_local_counter g !! key with
      | None => Some ((user_id, peer_id, 1), g)
      | Some c =>
          if c <? 1000 then Some ((user_id, peer_id, c + 1), g)
          else generate_unique_message_key fuel' g
      end
  end.

(** The part of [generate_record_row] after the key is known. *)
Definition record_with_key (user_id peer_id chat_local_id : Z) (g : generator W)
  : row * generator W :=
  let key := (user_id, peer_id) in
  let g := ensure_key key g in
  let g := set_counter key chat_local_id g in
  let (flags, g) := draw generate_flags g in
  let message_key := (user_id, peer_id, chat_local_id) in
  let '(chat_local_id, g) :=
    if bool_decide (message_key ∈ generated_messages g)
    then (chat_local_id + 1, set_counter key (chat_local_id + 1) g)
    else (chat_local_id, g) in
  let g := add_message (user_id, peer_id, chat_local_id) g in
  ({| user_id := user_id; peer_id := peer_id;
      chat_local_id := chat_local_id; flags := flags |}, g).

Definition generate_record_row (fuel : nat) (record_idx : Z)
    (user_id peer_id : option Z) (g : generator W)
  : option (row * generator W) :=
  match user_id, peer_id with
  | Some u, Some p =>
      let (chat_local_id, g) := get_next_chat_local_id u p g in
      Some (record_with_key u p chat_local_id g)
  | _, _ =>
      match generate_unique_message_key fuel g with
      | None => None
      | Some ((u, p, chat_local_id), g) =>
          Some (record_with_key u p chat_local_id g)
      end
  end.

(** The rows a run writes, in order: [generate_record_row(i, user_id,
    peer_id)] for [n] indices from [start]. *)
Fixpoint generate_records (fuel : nat) (n : nat) (start : Z)
    (user_id peer_id : option Z) (g : generator W)
  : option (list row * generator W) :=
  match n with
  | O => Some ([], g)
  | S n' =>
      match generate_record_row fuel start user_id peer_id g with
      | None => None
      | Some (r, g) =>
          match generate_records fuel n' (start + 1) user_id peer_id g with
          | None => None
          | Some (rest, g) => Some (r :: rest, g)
          end
      end
  end.

(** One turn of the search: the pair it draws and the generator after
    the two draws. *)
Definition search_turn (g : generator W) : (Z * Z) * generator W :=
  let (user_id, g) := draw (choice users) g in
  let (peer_id, g) := draw (choice peers) g in
  ((user_id, peer_id), g).

(** The generator after [n] turns of the search. *)
Fixpoint after_turns (n : nat) (g : generator W) : generator W :=
  match n with
  | O => g
  | S n' => after_turns n' (search_turn g).2
  end.

(** A pair the search accepts: absent from the counter table, or below
    the cap; and the chat_local_id it then returns. *)
Definition accepted (g : generator W) (key : Z * Z) : bool :=
  match chat_local_counter g !! key with
  | None => true
  | Some c => c <? 1000
  end.

Definition next_id (g : generator W) (key : Z * Z) : Z :=
  match chat_local_counter g !! key with
  | None => 1
  | Some c => c + 1
  end.

(** The tables agree with the counters: no recorded message of a pair lies
    beyond the counter of that pair. *)
Definition consistent (g : generator W) : Prop :=
  forall u p c, (u, p, c) ∈ generated_messages g -> c <= counter_at (u, p) g.

(** The rows that the loop of [generate_csv_file] writes on a fresh
    generator: the prompt, the progress step and [print_summary] are left
    to [UserToMessageCall.generate_csv_file_call], which models the call
    from its first line to its last.
    [generate_multiple_csv_files] and [generate_optimized_csv] call
    [generate_record_row] for the same indices on the same generator, and
    write the same rows split over files or blocks. *)
Definition generate_csv_file (fuel : nat) (s : Z) (count : nat)
    (user_id peer_id : option Z) (w : W) : option (list row) :=
  fst <$> generate_records fuel count 0 user_id peer_id (new_generator s w).

End Gen.

(** The chat_local_id values of the rows of one pair, in file order. *)
Definition ids_of_pair (key : Z * Z) (rows : list row) : list Z :=
  chat_local_id <$> filter (fun r => (user_id r, peer_id r) = key) rows.

End UserToMessage.

(* ================================================================== *)
(** ** The Chats/PeerIds generator of [generator_chats_peerids.py] *)
(* ================================================================== *)

Module PeerIds.
Import PyStr.

Record row := {
  user_id : Z;
  chat_id : Z;
  invite_timestamp : Z;
  disable_for : Z;
  flags : Z;
  inviter_id : Z;
  last_read_message_id : Z;
  last_message_id : Z;
  last_message_ts : Z
}.

(** [row["last_message_ts"] = ts]. *)
Definition set_last_message_ts (r : row) (ts : Z) : row :=
  {| user_id := user_id r; chat_id := chat_id r;
     invite_timestamp := invite_timestamp r; disable_for := disable_for r;
     flags := flags r; inviter_id := inviter_id r;
     last_read_message_id := last_read_message_id r;
     last_message_id := last_message_id r;
     last_message_ts := ts |}.

Definition user_ids : pyseq := Range 1000 1000000.

Definition fieldnames : list string :=
  [ "user_id"; "chat_id"; "invite_timestamp"; "disable_for"; "flags";
    "inviter_id"; "last_read_message_id"; "last_message_id"; "last_message_ts" ].

Definition crlf : string := chr (ascii_of_nat 13) +:+ chr (ascii_of_nat 10).

(** [csv.DictWriter.writerow] on a row of integers: no field needs
    quoting, the line ends with the default terminator. *)
Definition csv_line (fields : list string) : string :=
  join (chr comma) fields +:+ crlf.

Definition row_fields (r : row) : list string :=
  str_of_int <$> [ user_id r; chat_id r; invite_timestamp r; disable_for r;
                   flags r; inviter_id r; last_read_message_id r;
                   last_message_id r; last_message_ts r ].

(** The text of a file: the header, then one line per row. *)
Definition csv_text (rows : list row) : string :=
  csv_line fieldnames +:+ join "" ((fun r => csv_line (row_fields r)) <$> rows).

(** The order the two timestamps of a row keep. *)
Definition invited_before_last (r : row) : Prop :=
  invite_timestamp r <= last_message_ts r.

(** The key that must not repeat. *)
Definition ts_key (r : row) : Z * Z := (user_id r, last_message_ts r).

Section Gen.
Context {W : Type} `{PyRuntime W}.
Local Open Scope py_scope.

(** [datetime.now()] less a random number of days and a random time of
    day; the result, a naive datetime, is turned into a timestamp as
    local time of the host. *)
Definition generate_timestamp (years_back : Z) : Py.M W Z :=
  base_date <- datetime_now ;;
  days_ago <- randint 0 (years_back * 365) ;;
  let random_date := base_date - days_ago * 86400 in
  hours <- randint 0 23 ;;
  minutes <- randint 0 59 ;;
  seconds <- randint 0 59 ;;
  let random_time := hours * 3600 + minutes * 60 + seconds in
  let final_date := random_date - random_time in
  Py.ret (naive_timestamp final_date).

Definition generate_peer_flags : Py.M W Z :=
  f <- flag_bit (8 # 10) 1 0 ;;
  f <- flag_bit (5 # 10) 2 f ;;
  f <- flag_bit (1 # 10) 4 f ;;
  f <- flag_bit (3 # 10) 8 f ;;
  f <- flag_bit (2 # 10) 16 f ;;
  Py.ret f.

Definition generate_peerid_row (user_id chat_id base_timestamp : Z)
  : Py.M W row :=
  let invite_timestamp := base_timestamp in
  d <- randint 0 (30 * 24 * 3600) ;;
  let last_message_ts := invite_timestamp + d in
  disabled <- bernoulli (1 # 10) ;;
  disable_for <- (if disabled then randint 0 100 else Py.ret 0) ;;
  flags <- generate_peer_flags ;;
  inviter_id <- choice user_ids ;;
  last_read_message_id <- randint 0 10000 ;;
  last_message_id <- randint 0 10000 ;;
  Py.ret {| user_id := user_id; chat_id := chat_id;
            invite_timestamp := invite_timestamp;
            disable_for := disable_for; flags := flags;
            inviter_id := inviter_id;
            last_read_message_id := last_read_message_id;
            last_message_id := last_message_id;
            last_message_ts := last_message_ts |}.

(** [random.choice(chat_ids)]: [None] stands for the [IndexError] raised
    on an empty list. *)
Definition choice_list (l : list Z) : Py.M W (option Z) :=
  match l with
  | [] => Py.ret None
  | _ => i <- randbelow (Z.of_nat (length l)) ;;
         Py.ret (Some (nth (Z.to_nat i) l 0))
  end.

(** [while pair in used_pairs and attempts < 10], with [remaining] the
    attempts that are left. *)
Fixpoint resolve_collision (remaining : nat) (user_id last_message_ts : Z)
    (used_pairs : gset (Z * Z)) : Py.M W Z :=
  match remaining with
  | O => Py.ret last_message_ts
  | S remaining' =>
      if bool_decide ((user_id, last_message_ts) ∈ used_pairs)
      then d <- randint 1 10 ;;
           resolve_collision remaining' user_id (last_message_ts + d) used_pairs
      else Py.ret last_message_ts
  end.

(** One turn of the loop of [generate_peerids_csv]. Besides the row and
    the updated set, the result says whether the pair entered in
    [used_pairs] was already there; the code keeps no such record. The
    retry loop ends on such a pair only when its ten attempts are used
    up: [PeerIdsRetry] counts the attempts as the code does. *)
Definition peerids_turn (chat_ids : list Z) (used_pairs : gset (Z * Z))
  : Py.M W (option (row * bool * gset (Z * Z))) :=
  user_id <- choice user_ids ;;
  picked <- choice_list chat_ids ;;
  match picked with
  | None => Py.ret None
  | Some chat_id =>
      invite_ts <- generate_timestamp 3 ;;
      let max_offset := 180 * 24 * 3600 in
      d <- randint 0 max_offset ;;
      let last_message_ts := invite_ts + d in
      last_message_ts <- resolve_collision 10 user_id last_message_ts used_pairs ;;
      let pair := (user_id, last_message_ts) in
      let exhausted := bool_decide (pair ∈ used_pairs) in
      let used_pairs := {[ pair ]} ∪ used_pairs in
      r <- generate_peerid_row user_id chat_id invite_ts ;;
      Py.ret (Some (set_last_message_ts r last_message_ts, exhausted, used_pairs))
  end.

Fixpoint peerids_loop (n : nat) (chat_ids : list Z) (used_pairs : gset (Z * Z))
  : Py.M W (option (list (row * bool))) :=
  match n with
  | O => Py.ret (Some [])
  | S n' =>
      turn <- peerids_turn chat_ids used_pairs ;;
      match turn with
      | None => Py.ret None
      | Some (r, exhausted, used_pairs) =>
          rest <- peerids_loop n' chat_ids used_pairs ;;
          Py.ret (cons (r, exhausted) <$> rest)
      end
  end.

(** The rows that the loop of [generate_peerids_csv] writes, or [None]
    when a turn of the loop raises. The prompt and the progress report,
    which reads [self.metrics['start_time']], are left to
    [PeerIdsCall.generate_peerids_csv_call], which models the call from
    its first line to its last. *)
Definition generate_peerids_csv (count : nat) (chat_ids : list Z)
  : Py.M W (option (list row)) :=
  trace <- peerids_loop count chat_ids ∅ ;;
  Py.ret (option_map (List.map fst) trace).

(** The inner loop of [generate_optimized_peerids], over the users of one
    chat. *)
Fixpoint chat_users_loop (n : nat) (count total_generated : Z)
    (chat_id base_ts : Z) (buffer : list row) (written : list (list row))
  : Py.M W (Z * list row * list (list row)) :=
  match n with
  | O => Py.ret (total_generated, buffer, written)
  | S n' =>
      if count <=? total_generated
      then Py.ret (total_generated, buffer, written)
      else
        user_id <- choice user_ids ;;
        d <- randint 0 (7 * 24 * 3600) ;;
        let invite_ts := base_ts + d in
        d' <- randint 0 (180 * 24 * 3600) ;;
        let last_message_ts := invite_ts + d' in
        r <- generate_peerid_row user_id chat_id invite_ts ;;
        let buffer := buffer ++ [set_last_message_ts r last_message_ts] in
        let total_generated := total_generated + 1 in
        if 1000 <=? Z.of_nat (length buffer)
        then chat_users_loop n' count total_generated chat_id base_ts
               [] (written ++ [buffer])
        else chat_users_loop n' count total_generated chat_id base_ts
               buffer written
  end.

(** The outer loop, over [enumerate(chat_ids)]; [n_chats] is
    [len(chat_ids)]. *)
Fixpoint chats_loop (chats : list Z) (chat_idx n_chats : Z)
    (records_per_chat count total_generated : Z)
    (buffer : list row) (written : list (list row))
  : Py.M W (Z * list row * list (list row)) :=
  match chats with
  | [] => Py.ret (total_generated, buffer, written)
  | chat_id :: rest =>
      if count <=? total_generated
      then Py.ret (total_generated, buffer, written)
      else
        let users_in_chat := Z.min records_per_chat (count - total_generated) in
        users_in_chat <- (if chat_idx <? n_chats - 1
                          then randint 1 (records_per_chat * 2)
                          else Py.ret users_in_chat) ;;
        base_ts <- generate_timestamp 3 ;;
        '(total_generated, buffer, written) <-
          chat_users_loop (Z.to_nat users_in_chat) count total_generated
            chat_id base_ts buffer written ;;
        chats_loop rest (chat_idx + 1) n_chats records_per_chat count
          total_generated buffer written
  end.

(** The rows written by [generate_optimized_peerids], block after block;
    [None] stands for the [ZeroDivisionError] on an empty [chat_ids]. *)
Definition generate_optimized_peerids (count : Z) (chat_ids : list Z)
  : Py.M W (option (list row)) :=
  match chat_ids with
  | [] => Py.ret None
  | _ =>
      let n_chats := Z.of_nat (length chat_ids) in
      let records_per_chat := Z.max 1 (count / n_chats) in
      '(_, buffer, written) <-
        chats_loop chat_ids 0 n_chats records_per_chat count 0 [] [] ;;
      Py.ret (Some (concat written ++ buffer))
  end.

(** A generator built with [CassandraDataGenerator(seed)] and asked for a
    PeerIds file: the text written. *)
Definition peerids_file (s : Z) (count : nat) (chat_ids : list Z) (w : W)
  : option string :=
  csv_text <$> (generate_peerids_csv count chat_ids (seed s w)).1.

End Gen.
End PeerIds.

(* ================================================================== *)
(** ** A runtime that reads its draws off a script *)
(* ================================================================== *)

(** An instance of the interface on which runs can be evaluated: every
    draw takes the next number of [script] (0 once the script is used
    up); the clock shows [wall]. *)
Module Scripted.

Record world := {
  script : list Z;
  wall : Z
}.

Definition next (w : world) : Z * world :=
  match script w with
  | [] => (0, w)
  | x :: rest => (x, {| script := rest; wall := wall w |})
  end.

(** The script installed by [random.seed(s)]. *)
Definition seeded (s : Z) : list Z :=
  (fun i => (s + 1) * 7919 * Z.of_nat i + s) <$> seq 0 64.

Definition scripted_seed (s : Z) (w : world) : world :=
  {| script := seeded s; wall := wall w |}.

Definition scripted_random (w : world) : Q * world :=
  let (x, w') := next w in (Qmake (x mod 1000) 1000, w').

Definition scripted_randbelow (n : Z) (w : world) : Z * world :=
  let (x, w') := next w in (x mod n, w').

Definition scripted_sample (pop : pyseq) (k : Z) (w : world) : list Z * world :=
  let (x, w') := next w in
  ((fun i => pyget pop ((x + Z.of_nat i) mod pylen pop)) <$> seq 0 (Z.to_nat k), w').

(** A descriptor with a fixed id and a fixed digest: the script holds
    the draws of [random] only, and [uuid.uuid4] takes none of them. *)
Definition json_text (s : string) : string :=
  PyStr.chr PyStr.dquote +:+ s +:+ PyStr.chr PyStr.dquote.

Definition json_number (v : option Z) : string :=
  match v with
  | Some n => PyStr.str_of_int n
  | None => "null"
  end.

Definition scripted_kludge_json (media_type : string) (size : Z) (x : Q)
    (width height duration : option Z) (w : world) : string * world :=
  ("{" +:+ json_text "type" +:+ ": " +:+ json_text media_type
   +:+ ", " +:+ json_text "id" +:+ ": "
   +:+ json_text "00000000-0000-4000-8000-000000000000"
   +:+ ", " +:+ json_text "size" +:+ ": " +:+ PyStr.str_of_int size
   +:+ ", " +:+ json_text "url" +:+ ": "
   +:+ json_text ("https://cdn.example.com/" +:+ media_type +:+ "/00000000")
   +:+ ", " +:+ json_text "width" +:+ ": " +:+ json_number width
   +:+ ", " +:+ json_text "height" +:+ ": " +:+ json_number height
   +:+ ", " +:+ json_text "duration" +:+ ": " +:+ json_number duration
   +:+ "}", w).

(** The host of the scripted runs is set to UTC. *)
Definition scripted_timestamp (t : Z) : Z := t.

Definition scripted_now (w : world) : Z * world := (wall w, w).

#[global] Instance runtime : PyRuntime world := {|
  seed := scripted_seed;
  random := scripted_random;
  randbelow := scripted_randbelow;
  sample := scripted_sample;
  kludge_json := scripted_kludge_json;
  datetime_now := scripted_now;
  naive_timestamp := scripted_timestamp
|}.

(** A world whose draws are all 0. *)
Definition zeros (t : Z) : world := {| script := []; wall := t |}.

End Scripted.

(* ================================================================== *)
(** ** Concrete inputs used below *)
(* ================================================================== *)

Module Scenario.
Import PyStr Scripted.

(** The two strings of the encoder scenario and their encodings. *)
Definition said_go : string :=
  "He said " +:+ chr dquote +:+ "go" +:+ chr dquote +:+ ", now".
Definition said_go_encoded : string :=
  chr dquote +:+ "He said " +:+ chr dquote +:+ chr dquote +:+ "go"
  +:+ chr dquote +:+ chr dquote +:+ ", now" +:+ chr dquote.
Definition json_a1 : string :=
  "{" +:+ chr dquote +:+ "a" +:+ chr dquote +:+ ":1}".
Definition json_a1_encoded : string :=
  chr dquote +:+ "{" +:+ chr dquote +:+ chr dquote +:+ "a"
  +:+ chr dquote +:+ chr dquote +:+ ":1}" +:+ chr dquote.

(** The value tuple of the tokenizer scenario: the number 1, the quoted
    text O'Brien said 'hi' with each inner quote doubled, the list
    [[10,20,30]], TRUE and NULL, separated by a comma and a space. *)
Definition sql_tuple : string :=
  "1, " +:+ chr squote +:+ "O" +:+ chr squote +:+ chr squote
  +:+ "Brien said " +:+ chr squote +:+ chr squote +:+ "hi"
  +:+ chr squote +:+ chr squote +:+ chr squote
  +:+ ", [10,20,30], TRUE, NULL".

(** The second value it must yield. *)
Definition obrien : string :=
  "O" +:+ chr squote +:+ "Brien said " +:+ chr squote +:+ "hi" +:+ chr squote.

(** Draws for one row of [dsbulk_generate.py]: thirteen zeros take the
    row up to and including the draw of [forwarded] (0 is below 0.15),
    then 500 makes the first draw of [generate_forwarded_message_ids]
    0.5. *)
Definition forwarded_then_no_ids : world :=
  {| script := replicate 13 0 ++ [500]; wall := 0 |}.

(** Draws for one message of [generate.py]: twenty-six zeros run through
    the first call of [generate_forwarded_message_ids] (which returns one
    id), then 500 makes the second call return the empty list. The zeros
    are: one for the chat, one for the author, four for the timestamp,
    two for the edit, nine for a text of three words with a closing
    mark (the count, a word and its capital letter three times, the test
    and the mark), six for the kludges of a photo (the test, the type,
    the size, the url, the width and the height) and three for the first
    list of ids (the test, the count and one id). *)
Definition ids_then_no_ids : world :=
  {| script := replicate 26 0 ++ [500]; wall := 0 |}.

(** Two instants one day apart. *)
Definition monday : Z := 1700000000.
Definition tuesday : Z := 1700086400.

End Scenario.

(* ================================================================== *)
(** ** Further laws of the runtime *)
(* ================================================================== *)

(** [random.random()] lies in the unit interval, and [random.sample]
    returns the members of the population at [k] different positions,
    when the population has at least [k] members. *)
Class PyRandomLaws (W : Type) `{PyRuntime W} := {
  random_unit : forall w : W, (0 <= (random w).1)%Q /\ ((random w).1 < 1)%Q;
  sample_positions : forall (pop : pyseq) (k : Z) (w : W),
    0 <= k <= pylen pop ->
    exists positions : list Z,
      NoDup positions
      /\ Z.of_nat (length positions) = k
      /\ Forall (fun i => 0 <= i < pylen pop) positions
      /\ (sample pop k w).1 = pyget pop <$> positions
}.

(* ================================================================== *)
(** ** The sharded sink of [dsbulk_generate.py] *)
(* ================================================================== *)

Module MessageFiles.
Import Message.

(** How a call ends: with a result, with an exception, or not within the
    turns the model follows. *)
Inductive outcome (A : Type) :=
| Finished (a : A)
| Raised (e : string)
| Running.
Arguments Finished {A} _.
Arguments Raised {A} _.
Arguments Running {A}.

Section Gen.
Context {W : Type} `{PyRuntime W}.
Local Open Scope py_scope.

(** [while total_generated < count] of [generate_multiple_csv_files]:
    the rows of each file written so far, in order. [fuel] bounds the
    turns followed. *)
Fixpoint files_loop (fuel : nat) (count records_per_file total_generated : Z)
    (chat_id : option Z) (files : list (list row))
  : Py.M W (outcome (list (list row))) :=
  match fuel with
  | O => Py.ret Running
  | S fuel' =>
      if total_generated <? count then
        let records_in_file := Z.min records_per_file (count - total_generated) in
        rows <- generate_rows (Z.to_nat records_in_file) total_generated chat_id ;;
        files_loop fuel' count records_per_file
          (total_generated + records_in_file) chat_id (files ++ [rows])
      else Py.ret (Finished files)
  end.

(** [generate_multiple_csv_files]. The line that prints the number of
    files divides by [records_per_file] before the loop starts. The
    progress lines are left out; the one that prints the speed of a file
    divides by the time the file took and so relies on the clock having
    advanced. *)
Definition generate_multiple_csv_files (fuel : nat) (count records_per_file : Z)
    (chat_id : option Z) : Py.M W (outcome (list (list row))) :=
  if records_per_file =? 0 then Py.ret (Raised "ZeroDivisionError")
  else files_loop fuel count records_per_file 0 chat_id [].

End Gen.
End MessageFiles.


(* ================================================================== *)
(** ** Well-formed PeerId rows *)
(* ================================================================== *)

Module PeerIdsShape.
Import PeerIds.

(** A row that refers to one of the given chats, with user and inviter
    among the user ids, and whose last message falls within [window]
    seconds after the invitation. *)
Definition peerid_row_ok (chat_ids : list Z) (window : Z) (r : row) : Prop :=
  chat_id r ∈ chat_ids
  /\ 1000 <= user_id r < 1000000
  /\ 1000 <= inviter_id r < 1000000
  /\ invite_timestamp r <= last_message_ts r <= invite_timestamp r + window.

(** What the two loops of the optimized mode keep: the rows so far refer
    to the given chats, [total_generated] counts them and stays within
    [count]. *)
Definition optimized_state_ok (chat_ids : list Z) (count : Z)
    (st : Z * list row * list (list row)) : Prop :=
  Forall (peerid_row_ok chat_ids (180 * 24 * 3600)) (concat st.2 ++ st.1.2)
  /\ st.1.1 = Z.of_nat (length (concat st.2 ++ st.1.2))
  /\ st.1.1 <= count.

End PeerIdsShape.


(* ================================================================== *)
(** ** The other two copies of the field encoder *)
(* ================================================================== *)

Module EncoderVariants.
Import PyStr Encoder.

(** [escape_csv_value] of [generate_usertomessage.py]: the copy of
    [dsbulk_generate.py] without the rule for JSON objects. *)
Definition escape_csv_value_usertomessage (v : value) : string :=
  match v with
  | VNone => ""
  | VBool b => str_of_bool_lower b
  | VInt n => str_of_int n
  | VStr s => if has_special s then quoted s else s
  | VList l =>
      let str_value := str_of_list l in
      if contains dquote str_value || contains comma str_value
         || contains newline str_value
      then quoted str_value
      else str_value
  end.

(** [escape_csv_value] of [generator_chats_peerids.py]: the quotes are
    doubled first, the test for the wrapping is made on the result, and
    any other value is returned as [str(value)]. *)
Definition escape_csv_value_chats (v : value) : string :=
  match v with
  | VNone => ""
  | VBool b => str_of_bool_lower b
  | VInt n => str_of_int n
  | VStr s =>
      let value :=
        if contains dquote s
        then replace_char dquote (chr dquote +:+ chr dquote) s
        else s in
      if contains comma value || contains newline value || contains dquote value
      then chr dquote +:+ value +:+ chr dquote
      else value
  | VList l => str_of_list l
  end.

(** The test of [dsbulk_generate.py] for a string that is a JSON object. *)
Definition json_shaped (s : string) : bool :=
  startswith lbrace (strip s) && endswith rbrace (strip s).

End EncoderVariants.

(* ================================================================== *)
(** ** The INSERT statement of [generate.py] *)
(* ================================================================== *)

Module SqlWriter.
Import PyStr Encoder MessageCql.

(** Every character of [s] passes the test [p]. *)
Fixpoint all_chars (p : ascii -> bool) (s : string) : bool :=
  match s with
  | EmptyString => true
  | String a rest => p a && all_chars p rest
  end.

(** Bytes of the ASCII characters and of the Cyrillic letters U+0400 to
    U+04FF in UTF-8: below 128, a lead byte d0 to d3, or a continuation
    byte. On a text made of these, Python's [str.strip] removes what
    [strip] removes (no other white space can occur), and Python's
    [str.upper] gives one of the words TRUE, FALSE and NULL exactly when
    [upper] does (no other character is mapped to an ASCII letter). *)
Definition plain_char (c : ascii) : bool :=
  let n := nat_of_ascii c in
  (n <? 128)%nat
  || ((128 <=? n)%nat && (n <=? 191)%nat)
  || ((208 <=? n)%nat && (n <=? 211)%nat).

Definition plain_text (s : string) : bool := all_chars plain_char s.

(** A value whose text, if it is a string, is plain. *)
Definition plain_value (v : value) : bool :=
  match v with
  | VStr s => plain_text s
  | _ => true
  end.

(** [value.replace("'", "''")]. *)
Definition escape_quotes (s : string) : string :=
  replace_char squote (chr squote +:+ chr squote) s.

(** The text of a list field: [[]] when the list is empty, the ids
    separated by a comma and a space otherwise. *)
Definition list_text (ids : list Z) : string :=
  match ids with
  | [] => "[]"
  | _ => chr lbracket +:+ join ", " (str_of_int <$> ids) +:+ chr rbracket
  end.

(** The fifteen value expressions of the statement, in order. *)
Definition insert_fields (m : message) : list string :=
  [ str_of_int (chat_id m);
    str_of_int (bucket m);
    str_of_int (chat_msg_local_id m);
    str_of_int (flags m);
    str_of_int (date m);
    str_of_int (update_time m);
    str_of_int (author_id m);
    chr squote +:+ escape_quotes (text m) +:+ chr squote;
    chr squote +:+ escape_quotes (kludges m) +:+ chr squote;
    str_of_bool_lower (forwarded m);
    list_text (forwarded_message_ids m);
    chr squote +:+ escape_quotes (mentions m) +:+ chr squote;
    list_text (marked_users m);
    str_of_int (ttl m);
    str_of_bool_lower (deleted_for_all m) ].

(** The text between the parentheses of [VALUES (...)]: each value on a
    line of its own, indented by four spaces. *)
Definition insert_values (m : message) : string :=
  chr newline +:+ "    "
  +:+ join ("," +:+ chr newline +:+ "    ") (insert_fields m)
  +:+ chr newline.

(** The statement up to the opening parenthesis of the values. *)
Definition insert_head : string :=
  "INSERT INTO Messages (" +:+ chr newline
  +:+ "    chat_id, bucket, chat_msg_local_id, flags, date, update_time,"
  +:+ chr newline
  +:+ "    author_id, text, kludges, forwarded, forwarded_message_ids,"
  +:+ chr newline
  +:+ "    mentions, marked_users, ttl, deleted_for_all" +:+ chr newline
  +:+ ") VALUES (".

Definition generate_insert_statement (m : message) : string :=
  strip (chr newline +:+ insert_head +:+ insert_values m +:+ ");").

(** What the tokenizer is expected to give back for the statement of
    [m]: the numbers and lists as written, the three texts as
    [clean_value] leaves them. *)
Definition parsed_fields (m : message) : list string :=
  [ str_of_int (chat_id m);
    str_of_int (bucket m);
    str_of_int (chat_msg_local_id m);
    str_of_int (flags m);
    str_of_int (date m);
    str_of_int (update_time m);
    str_of_int (author_id m);
    SqlParser.clean_value (strip (text m));
    SqlParser.clean_value (strip (kludges m));
    str_of_bool_lower (forwarded m);
    list_text (forwarded_message_ids m);
    SqlParser.clean_value (strip (mentions m));
    list_text (marked_users m);
    str_of_int (ttl m);
    str_of_bool_lower (deleted_for_all m) ].

(** A text the round trip can carry: no backslash and no newline. *)
Definition carried (s : string) : bool :=
  negb (contains backslash s) && negb (contains newline s).

(** The kinds of value text met in a statement, for stating what the
    scanner does with each: a bare token, a quoted string (given by its
    content) and a bracketed list (given by what stands between the
    brackets). *)
Inductive field :=
| FPlain (s : string)
| FQuoted (s : string)
| FList (body : string).

(** The text of a field in the statement and what the scanner
    accumulates for it. *)
Definition field_text (f : field) : string :=
  match f with
  | FPlain s => s
  | FQuoted s => chr squote +:+ escape_quotes s +:+ chr squote
  | FList body => chr lbracket +:+ body +:+ chr rbracket
  end.

Definition field_content (f : field) : string :=
  match f with
  | FPlain s => s
  | FQuoted s => s
  | FList body => chr lbracket +:+ body +:+ chr rbracket
  end.

(** Characters a bare token may hold, and characters a list body may
    hold. *)
Definition bare_char (c : ascii) : bool :=
  negb (ascii_eqb c squote) && negb (ascii_eqb c backslash)
  && negb (ascii_eqb c lbracket) && negb (ascii_eqb c comma).

Definition body_char (c : ascii) : bool :=
  negb (ascii_eqb c squote) && negb (ascii_eqb c backslash)
  && negb (ascii_eqb c lbracket) && negb (ascii_eqb c rbracket).

Definition field_ok (f : field) : bool :=
  match f with
  | FPlain s => all_chars bare_char s
  | FQuoted s => negb (contains backslash s)
  | FList body => all_chars body_char body
  end.

(** The fields joined by a comma and the padding [pad]. *)
Fixpoint render (pad : string) (fs : list field) : string :=
  match fs with
  | [] => ""
  | [f] => field_text f
  | f :: rest => field_text f +:+ String comma (pad +:+ render pad rest)
  end.

(** The fields of the statement of [m], by kind. *)
Definition list_body (ids : list Z) : string := join ", " (str_of_int <$> ids).

Definition message_fields (m : message) : list field :=
  [ FPlain (str_of_int (chat_id m));
    FPlain (str_of_int (bucket m));
    FPlain (str_of_int (chat_msg_local_id m));
    FPlain (str_of_int (flags m));
    FPlain (str_of_int (date m));
    FPlain (str_of_int (update_time m));
    FPlain (str_of_int (author_id m));
    FQuoted (text m);
    FQuoted (kludges m);
    FPlain (str_of_bool_lower (forwarded m));
    FList (list_body (forwarded_message_ids m));
    FQuoted (mentions m);
    FList (list_body (marked_users m));
    FPlain (str_of_int (ttl m));
    FPlain (str_of_bool_lower (deleted_for_all m)) ].

(** The characters of [str(n)] for an integer: the digits and the minus
    sign. *)
Definition numeric_char (c : ascii) : bool :=
  let n := nat_of_ascii c in
  ((48 <=? n)%nat && (n <=? 57)%nat) || (n =? 45)%nat.

(** The characters of a list of integers joined by a comma and a space. *)
Definition list_char (c : ascii) : bool :=
  numeric_char c || ascii_eqb c comma || ascii_eqb c space.

(** Scanner states with the values [vs] and the token [cur]: outside any
    literal, inside a quoted string, inside a list. *)
Definition idle (vs : list string) (cur : string) : SqlParser.scan_state :=
  {| SqlParser.values := vs; SqlParser.current := cur;
     SqlParser.in_quotes := false; SqlParser.in_list := false;
     SqlParser.escape_next := false |}.

Definition quoting (vs : list string) (cur : string) : SqlParser.scan_state :=
  {| SqlParser.values := vs; SqlParser.current := cur;
     SqlParser.in_quotes := true; SqlParser.in_list := false;
     SqlParser.escape_next := false |}.

Definition listing (vs : list string) (cur : string) : SqlParser.scan_state :=
  {| SqlParser.values := vs; SqlParser.current := cur;
     SqlParser.in_quotes := false; SqlParser.in_list := true;
     SqlParser.escape_next := false |}.

(** What the scanner has emitted and what it still holds after the
    fields [fs], starting with [cur] in hand. *)
Fixpoint tokens_of (cur pad : string) (fs : list field) : list string * string :=
  match fs with
  | [] => ([], cur)
  | f :: rest =>
      match rest with
      | [] => ([], cur +:+ field_content f)
      | _ :: _ =>
          let (toks, held) := tokens_of pad pad rest in
          (SqlParser.clean_value (strip (cur +:+ field_content f)) :: toks, held)
      end
  end.

(** Number of occurrences of a character. *)
Fixpoint count_char (c : ascii) (s : string) : nat :=
  match s with
  | EmptyString => O
  | String a rest => (if ascii_eqb a c then 1 else 0) + count_char c rest
  end.

End SqlWriter.


(* ================================================================== *)
(** ** Well-formed Message rows *)
(* ================================================================== *)

Module MessageShape.
Import Message.

Definition ttl_values : list Z := [0; 3600; 86400; 604800; 2592000].

Definition mention_types : list string := ["none"; "all"; "online"; "user"].

(** The wall-clock readings a date is drawn from: from 1095 days before
    2020-01-01 00:00:00 to 2020-01-01 23:59:59. *)
Definition in_date_window (t : Z) : Prop :=
  base_date_2020 - 1095 * 86400 <= t <= base_date_2020 + 86399.

(** What every row of [generate_message_row(idx, chat)] satisfies: the
    chat is the given one or one of the chat ids, the author is one of
    the user ids, the date is the timestamp [stamp] of the host for a
    wall-clock reading in the window, an edit comes at most an hour
    after the date, and flags, ttl, kludges and mentions take their few
    values. *)
Definition message_row_ok (stamp : Z -> Z) (chat : option Z) (idx : Z) (r : row)
  : Prop :=
  match chat with
  | Some c => chat_id r = c
  | None => 1000 <= chat_id r < 500000
  end
  /\ chat_msg_local_id r = idx
  /\ bucket r = idx / 1000
  /\ 1000 <= author_id r < 1000000
  /\ (exists t, in_date_window t /\ date r = stamp t)
  /\ (update_time r = date r \/ date r + 60 <= update_time r <= date r + 3600)
  /\ 0 <= flags r < 32
  /\ ttl r ∈ ttl_values
  /\ kludges r = ""
  /\ mentions r ∈ mention_types.

End MessageShape.

(* ================================================================== *)
(** ** The Chats generator of [generator_chats_peerids.py] *)
(* ================================================================== *)

Module Chats.
Import PyStr Encoder EncoderVariants.

Record row := {
  id : Z;
  name : string;
  pinned_message_ids : string;
  secret : string;
  photo : string;
  members_count : Z;
  description : string;
  flags : Z
}.

Definition chat_ids : pyseq := Range 1000 500000.


Definition description_words : list string :=
  [ "группа"; "обсуждение"; "проект"; "команда"; "работа";
    "друзья"; "семья"; "коллеги"; "сообщество"; "чат";
    "активный"; "полезный"; "интересный"; "важный"; "закрытый";
    "открытый"; "официальный"; "неофициальный"; "веселый"; "серьезный" ].

(** [len(s)] and [s[:stop]] count code points; on the UTF-8 bytes of
    [s] these are the bytes that are not continuation bytes. *)
Definition is_continuation (c : ascii) : bool :=
  let n := nat_of_ascii c in ((128 <=? n)%nat && (n <=? 191)%nat).

Fixpoint py_len (s : string) : nat :=
  match s with
  | EmptyString => O
  | String a rest => if is_continuation a then py_len rest else S (py_len rest)
  end.

Fixpoint take_chars (n : nat) (s : string) : string :=
  match s with
  | EmptyString => EmptyString
  | String a rest =>
      if is_continuation a then String a (take_chars n rest)
      else match n with
           | O => EmptyString
           | S n' => String a (take_chars n' rest)
           end
  end.

(** [s[:stop]]: a negative [stop] counts from the end. *)
Definition slice_to (stop : Z) (s : string) : string :=
  if 0 <=? stop then take_chars (Z.to_nat stop) s
  else take_chars (Z.to_nat (Z.max 0 (Z.of_nat (py_len s) + stop))) s.

Section Gen.
Context {W : Type} `{PyRuntime W}.
Local Open Scope py_scope.

(** [random.choices(population, k=k)] without weights: each pick is
    [population[floor(random() * n)]]. *)
Definition choices_of {A : Type} (d : A) (population : list A) (k : nat)
  : Py.M W (list A) :=
  Py.repeatM k
    (x <- random ;;
     Py.ret (nth (Z.to_nat (Qfloor (x * inject_Z (Z.of_nat (length population)))))
                 population d)).





Definition generate_description (length : Z) : Py.M W string :=
  word_count <- randint 5 15 ;;
  selected_words <- choices_of "" description_words (Z.to_nat word_count) ;;
  let description := capitalize (join " " selected_words) in
  if length <? Z.of_nat (py_len description)
  then Py.ret (slice_to (length - 3) description +:+ "...")
  else Py.ret description.







End Gen.
End Chats.

(* ================================================================== *)
(** ** Well-formed Chat rows *)
(* ================================================================== *)

Module ChatsShape.
Import PyStr Chats.




End ChatsShape.

(* ================================================================== *)
(** ** Well-chosen marked users *)
(* ================================================================== *)

Module MarkedUsers.

(** At most five different users, none of them the author. *)
Definition marked_ok (author_id : Z) (l : list Z) : Prop :=
  (length l <= 5)%nat
  /\ NoDup l
  /\ forall u, u ∈ l -> u <> author_id /\ 1000 <= u < 1000000.

End MarkedUsers.

(* ================================================================== *)
(** ** Well-formed messages of [generate.py] *)
(* ================================================================== *)

Module MessageCqlShape.
Import PyStr MessageCql.

(** Bytes of the Cyrillic letters U+0400 to U+04FF in UTF-8 (a
    continuation byte or a lead byte d0 to d3), and the characters of a
    generated text: those bytes, the space and the three closing
    marks. *)
Definition high_char (c : ascii) : bool :=
  let n := nat_of_ascii c in
  ((128 <=? n)%nat && (n <=? 191)%nat) || ((208 <=? n)%nat && (n <=? 211)%nat).

Definition text_char (c : ascii) : bool :=
  high_char c || ascii_eqb c space || ascii_eqb c "."%char
  || ascii_eqb c "!"%char || ascii_eqb c "?"%char.

Definition word_ok (s : string) : Prop :=
  s <> "" /\ SqlWriter.all_chars high_char s = true.

(** A text that the INSERT statement carries and the loader returns as
    it was, made of ASCII and Cyrillic characters. *)
Definition text_ok (s : string) : Prop :=
  SqlWriter.carried s = true /\ SqlParser.clean_value (strip s) = s
  /\ SqlWriter.plain_text s = true.

Definition message_ok (stamp : Z -> Z) (chat : option Z) (idx : Z) (m : message)
  : Prop :=
  match chat with
  | Some c => chat_id m = c
  | None => 1000 <= chat_id m < 500000
  end
  /\ chat_msg_local_id m = idx
  /\ bucket m = idx / 1000
  /\ 1000 <= author_id m < 1000000
  /\ (exists t, MessageShape.in_date_window t /\ date m = stamp t)
  /\ (update_time m = date m \/ date m + 60 <= update_time m <= date m + 3600)
  /\ 0 <= flags m < 32
  /\ ttl m ∈ MessageShape.ttl_values
  /\ mentions m ∈ MessageShape.mention_types
  /\ (length (forwarded_message_ids m) <= 3)%nat
  /\ Forall (fun i => 1000000 <= i <= 9999999) (forwarded_message_ids m)
  /\ MarkedUsers.marked_ok (author_id m) (marked_users m)
  /\ text_ok (text m).

(** The values the loader returns for the statement of a generated
    message. *)
Definition loaded_fields (m : message) : list string :=
  [ str_of_int (chat_id m);
    str_of_int (bucket m);
    str_of_int (chat_msg_local_id m);
    str_of_int (flags m);
    str_of_int (date m);
    str_of_int (update_time m);
    str_of_int (author_id m);
    text m;
    SqlParser.clean_value (strip (kludges m));
    Encoder.str_of_bool_lower (forwarded m);
    SqlWriter.list_text (forwarded_message_ids m);
    mentions m;
    SqlWriter.list_text (marked_users m);
    str_of_int (ttl m);
    Encoder.str_of_bool_lower (deleted_for_all m) ].

End MessageCqlShape.

(* ================================================================== *)
(** ** Further concrete inputs *)
(* ================================================================== *)

Module Samples.
Import PyStr Scenario.

(** A message whose text holds quotes, with one forwarded id and two
    marked users. *)
Definition quoting_message : MessageCql.message :=
  {| MessageCql.chat_id := 1000;
     MessageCql.bucket := 0;
     MessageCql.chat_msg_local_id := 7;
     MessageCql.flags := 17;
     MessageCql.date := 1577836800;
     MessageCql.update_time := 1577836860;
     MessageCql.author_id := 1001;
     MessageCql.text := obrien;
     MessageCql.kludges := "{}";
     MessageCql.forwarded := true;
     MessageCql.forwarded_message_ids := [1000000];
     MessageCql.mentions := "none";
     MessageCql.marked_users := [1002; 1003];
     MessageCql.ttl := 0;
     MessageCql.deleted_for_all := false |}.

(** A string that reads as a JSON object and holds no comma and no
    quote. *)
Definition bare_braces : string := "{a}".

End Samples.

(* ================================================================== *)
(** ** The INSERT statement of [no_batch.py] *)
(* ================================================================== *)

Module NoBatch.
Import PyStr Encoder MessageCql.

(** [str(b)] for a boolean. *)
Definition str_of_bool (b : bool) : string := if b then "True" else "False".

Definition escape_sql_value (v : value) : string :=
  match v with
  | VNone => "NULL"
  | VBool b => str_of_bool_lower b
  | VInt n => str_of_int n
  | VStr s =>
      chr squote +:+ replace_char squote (chr squote +:+ chr squote) s +:+ chr squote
  | VList l => chr lbracket +:+ join ", " (str_of_int <$> l) +:+ chr rbracket
  end.

(** [', '.join(values.keys())]. *)
Definition columns : string :=
  join ", " [ "chat_id"; "bucket"; "chat_msg_local_id"; "flags"; "date";
              "update_time"; "author_id"; "text"; "kludges"; "forwarded";
              "forwarded_message_ids"; "mentions"; "marked_users"; "ttl";
              "deleted_for_all" ].

(** The text of a list field. *)
Definition list_value (ids : list Z) : string :=
  match ids with
  | [] => "[]"
  | _ => chr lbracket +:+ join ", " (str_of_int <$> ids) +:+ chr rbracket
  end.

(** [values_list]: numbers and booleans through [str], the three texts
    as [escape_sql_value] left them. *)
Definition values_list (m : message) : list string :=
  [ str_of_int (chat_id m);
    str_of_int (bucket m);
    str_of_int (chat_msg_local_id m);
    str_of_int (flags m);
    str_of_int (date m);
    str_of_int (update_time m);
    str_of_int (author_id m);
    escape_sql_value (VStr (text m));
    escape_sql_value (VStr (kludges m));
    str_of_bool (forwarded m);
    list_value (forwarded_message_ids m);
    escape_sql_value (VStr (mentions m));
    list_value (marked_users m);
    str_of_int (ttl m);
    str_of_bool (deleted_for_all m) ].

Definition values_str (m : message) : string := join ", " (values_list m).

Definition generate_insert_statement (m : message) : string :=
  "INSERT INTO Messages (" +:+ columns +:+ ") VALUES (" +:+ values_str m +:+ ");".

(** The values by kind, for the scanner. *)
Definition value_fields (m : message) : list SqlWriter.field :=
  [ SqlWriter.FPlain (str_of_int (chat_id m));
    SqlWriter.FPlain (str_of_int (bucket m));
    SqlWriter.FPlain (str_of_int (chat_msg_local_id m));
    SqlWriter.FPlain (str_of_int (flags m));
    SqlWriter.FPlain (str_of_int (date m));
    SqlWriter.FPlain (str_of_int (update_time m));
    SqlWriter.FPlain (str_of_int (author_id m));
    SqlWriter.FQuoted (text m);
    SqlWriter.FQuoted (kludges m);
    SqlWriter.FPlain (str_of_bool (forwarded m));
    SqlWriter.FList (SqlWriter.list_body (forwarded_message_ids m));
    SqlWriter.FQuoted (mentions m);
    SqlWriter.FList (SqlWriter.list_body (marked_users m));
    SqlWriter.FPlain (str_of_int (ttl m));
    SqlWriter.FPlain (str_of_bool (deleted_for_all m)) ].

End NoBatch.

(* ================================================================== *)
(** ** Whole calls: how they end *)
(* ================================================================== *)

(** How a call ends: it returns, it raises the named exception, or the
    search for a key is still running after the turns followed. Writing
    to the file and printing are taken to succeed. *)
Inductive call_end :=
| Returned
| Raises (e : string)
| Searching.

(** [generate_csv_file] of [generate_usertomessage.py] from its first
    line to its last: the prompt, the loop with its progress step and
    [print_summary]. *)
Module UserToMessageCall.
Import UserToMessage.

Section Gen.
Context {W : Type} `{PyRuntime W}.

(** The loop over [range(count)] from index [i]: the rows handed to the
    writer so far and how the loop ends. After each row the progress
    step computes [total_generated % chunk_size]; what it prints then
    divides by [elapsed] only under the test [elapsed > 0], and by
    [total_generated] and [count], which are at least 1 there. *)
Fixpoint rows_loop (fuel n : nat) (i chunk_size : Z) (user_id peer_id : option Z)
    (g : generator W) (written : list row)
  : list row * call_end * generator W :=
  match n with
  | O => (written, Returned, g)
  | S n' =>
      match generate_record_row fuel i user_id peer_id g with
      | None => (written, Searching, g)
      | Some (r, g) =>
          let written := written ++ [r] in
          if chunk_size =? 0 then (written, Raises "ZeroDivisionError", g)
          else rows_loop fuel n' (i + 1) chunk_size user_id peer_id g written
      end
  end.

(** [print_summary(file_size)]: the speed is [records_generated /
    elapsed], and the size of a record is the size of the file, never 0
    since the header is in it, divided by [records_generated]. [elapsed]
    is the difference of the two readings of [time.time()]. *)
Definition print_summary (records_generated : Z) (elapsed : Q) : call_end :=
  if Qeq_bool elapsed 0 then Raises "ZeroDivisionError"
  else if records_generated =? 0 then Raises "ZeroDivisionError"
  else Returned.

(** The call on a fresh generator: what is in the file ([None] when the
    overwrite is declined and the file left alone) and how the call
    ends. *)
Definition generate_csv_file_call (fuel : nat) (s count chunk_size : Z)
    (declined : bool) (elapsed : Q) (user_id peer_id : option Z) (w : W)
  : option (list row) * call_end :=
  if declined then (None, Returned)
  else
    let '(written, ended, g) :=
      rows_loop fuel (Z.to_nat count) 0 chunk_size user_id peer_id
                (new_generator s w) [] in
    match ended with
    | Returned => (Some written, print_summary (Z.of_nat (Z.to_nat count)) elapsed)
    | _ => (Some written, ended)
    end.

End Gen.
End UserToMessageCall.

(** [generate_peerids_csv] from its first line to its last: the prompt
    and the loop with its progress report, which reads
    [self.metrics['start_time']]. That entry is [None] until
    [generate_chats_csv] has run. *)
Module PeerIdsCall.
Import PeerIds.

Section Gen.
Context {W : Type} `{PyRuntime W}.
Local Open Scope py_scope.

(** The loop over [range(count)] from index [i]. After a row is written
    the report runs when [(i + 1) % chunk_size == 0]; its first line
    subtracts [start_time] from [time.time()]. *)
Fixpoint rows_loop (n : nat) (i chunk_size : Z) (start_time : option Z)
    (chat_ids : list Z) (used_pairs : gset (Z * Z)) (written : list row)
  : Py.M W (list row * call_end) :=
  match n with
  | O => Py.ret (written, Returned)
  | S n' =>
      turn <- peerids_turn chat_ids used_pairs ;;
      match turn with
      | None => Py.ret (written, Raises "IndexError")
      | Some (r, _, used_pairs) =>
          let written := written ++ [r] in
          if chunk_size =? 0 then Py.ret (written, Raises "ZeroDivisionError")
          else if (i + 1) mod chunk_size =? 0 then
            match start_time with
            | None => Py.ret (written, Raises "TypeError")
            | Some _ =>
                rows_loop n' (i + 1) chunk_size start_time chat_ids used_pairs written
            end
          else rows_loop n' (i + 1) chunk_size start_time chat_ids used_pairs written
      end
  end.

(** What is in the file ([None] when the overwrite is declined) and how
    the call ends. *)
Definition generate_peerids_csv_call (count chunk_size : Z) (start_time : option Z)
    (declined : bool) (chat_ids : list Z)
  : Py.M W (option (list row) * call_end) :=
  if declined then Py.ret (None, Returned)
  else
    '(written, ended) <- rows_loop (Z.to_nat count) 0 chunk_size start_time
                                   chat_ids ∅ [] ;;
    Py.ret (Some written, ended).

End Gen.
End PeerIdsCall.

(* ================================================================== *)
(** ** The retries of [generate_peerids_csv], counted *)
(* ================================================================== *)

Module PeerIdsRetry.
Import PeerIds.

Section Gen.
Context {W : Type} `{PyRuntime W}.
Local Open Scope py_scope.

(** [while pair in used_pairs and attempts < 10] with the counter of the
    code: the timestamp the loop ends on and the value of [attempts]
    then. [remaining] is what is left of the ten attempts. *)
Fixpoint resolve_collision_attempts (remaining : nat) (user_id last_message_ts : Z)
    (used_pairs : gset (Z * Z)) : Py.M W (Z * nat) :=
  match remaining with
  | O => Py.ret (last_message_ts, O)
  | S remaining' =>
      if bool_decide ((user_id, last_message_ts) ∈ used_pairs)
      then d <- randint 1 10 ;;
           '(ts, attempts) <-
             resolve_collision_attempts remaining' user_id (last_message_ts + d)
                                        used_pairs ;;
           Py.ret (ts, S attempts)
      else Py.ret (last_message_ts, O)
  end.

(** One turn of the loop of [generate_peerids_csv], returning the row,
    the attempts made for it and the updated set. *)
Definition peerids_turn_counted (chat_ids : list Z) (used_pairs : gset (Z * Z))
  : Py.M W (option (row * nat * gset (Z * Z))) :=
  user_id <- choice user_ids ;;
  picked <- choice_list chat_ids ;;
  match picked with
  | None => Py.ret None
  | Some chat_id =>
      invite_ts <- generate_timestamp 3 ;;
      let max_offset := 180 * 24 * 3600 in
      d <- randint 0 max_offset ;;
      let last_message_ts := invite_ts + d in
      '(last_message_ts, attempts) <-
        resolve_collision_attempts 10 user_id last_message_ts used_pairs ;;
      let pair := (user_id, last_message_ts) in
      let used_pairs := {[ pair ]} ∪ used_pairs in
      r <- generate_peerid_row user_id chat_id invite_ts ;;
      Py.ret (Some (set_last_message_ts r last_message_ts, attempts, used_pairs))
  end.

Fixpoint peerids_loop_counted (n : nat) (chat_ids : list Z)
    (used_pairs : gset (Z * Z)) : Py.M W (option (list (row * nat))) :=
  match n with
  | O => Py.ret (Some [])
  | S n' =>
      turn <- peerids_turn_counted chat_ids used_pairs ;;
      match turn with
      | None => Py.ret None
      | Some (r, attempts, used_pairs) =>
          rest <- peerids_loop_counted n' chat_ids used_pairs ;;
          Py.ret (cons (r, attempts) <$> rest)
      end
  end.

End Gen.
End PeerIdsRetry.

(* ================================================================== *)
(** * Properties *)
(* ================================================================== *)

(* ================================================================== *)
(** ** The field encoder and the tokenizer *)
(* ================================================================== *)

Section EncoderFacts.
Import PyStr Encoder.

Lemma rstrip_nonspace_last (s : string) (c : ascii) :
  is_space c = false -> endswith c s = true ->
  endswith c (rstrip s) = true /\ rstrip s <> EmptyString.
Proof.
  intros Hc. induction s as [|a rest IH]; simpl; [discriminate|].
  destruct rest as [|b rest'].
  - simpl. intros Ha. unfold ascii_eqb in Ha. apply Ascii.eqb_eq in Ha. subst a.
    rewrite Hc. simpl. unfold ascii_eqb. rewrite Ascii.eqb_refl. split; [done|discriminate].
  - intros He. destruct (IH He) as [IH1 IH2].
    destruct (rstrip (String b rest')) as [|k kept] eqn:Hk; [congruence|].
    split; [|discriminate]. exact IH1.
Qed.

Lemma lstrip_nonspace_first (s : string) (c : ascii) :
  is_space c = false -> startswith c s = true -> lstrip s = s.
Proof.
  intros Hc. destruct s as [|a rest]; simpl; [done|].
  intros Ha. apply Ascii.eqb_eq in Ha. subst a. by rewrite Hc.
Qed.

Lemma rstrip_nonspace_first (s : string) (c : ascii) :
  is_space c = false -> startswith c s = true -> startswith c (rstrip s) = true.
Proof.
  intros Hc. destruct s as [|a rest]; simpl; [done|].
  intros Ha. pose proof Ha as Ha'. apply Ascii.eqb_eq in Ha'. subst a.
  destruct (rstrip rest); simpl; [by rewrite Hc|]; exact Ha.
Qed.

Lemma json_shape_survives_strip (s : string) :
  startswith lbrace s = true -> endswith rbrace s = true ->
  startswith lbrace (strip s) && endswith rbrace (strip s) = true.
Proof.
  intros Hs He. unfold strip.
  rewrite (lstrip_nonspace_first s lbrace eq_refl Hs).
  rewrite (rstrip_nonspace_first s lbrace eq_refl Hs).
  by destruct (rstrip_nonspace_last s rbrace eq_refl He) as [-> _].
Qed.

(** Claim C6. The encoder wraps in double quotes, with the inner double
    quotes doubled, every string that contains a comma, a newline or a
    double quote, and every string that begins with an opening brace and
    ends with a closing brace, whatever else it contains; the two strings
    of the encoder scenario come out as the scenario says. *)
Theorem escape_csv_value_quoting :
  (forall s : string,
      contains comma s = true \/ contains newline s = true
      \/ contains dquote s = true ->
      escape_csv_value (VStr s)
      = chr dquote +:+ replace_char dquote (chr dquote +:+ chr dquote) s +:+ chr dquote)
  /\ (forall s : string,
      startswith lbrace s = true -> endswith rbrace s = true ->
      escape_csv_value (VStr s)
      = chr dquote +:+ replace_char dquote (chr dquote +:+ chr dquote) s +:+ chr dquote)
  /\ escape_csv_value (VStr Scenario.said_go) = Scenario.said_go_encoded
  /\ escape_csv_value (VStr Scenario.json_a1) = Scenario.json_a1_encoded.
Proof.
  split; [|split; [|split; reflexivity]].
  - intros s Hs. unfold escape_csv_value.
    destruct (startswith lbrace (strip s) && endswith rbrace (strip s)); [done|].
    assert (has_special s = true) as ->; [|done].
    unfold has_special. destruct Hs as [->|[->| ->]]; by rewrite ?orb_true_r.
  - intros s Hs He. unfold escape_csv_value.
    by rewrite json_shape_survives_strip.
Qed.

(** The two rules at work on a string with a comma and on a bare pair of
    braces. *)
Lemma escape_csv_value_quoting_witness :
  escape_csv_value (VStr "a,b")
  = chr dquote +:+ replace_char dquote (chr dquote +:+ chr dquote) "a,b" +:+ chr dquote
  /\ escape_csv_value (VStr "{}")
     = chr dquote +:+ replace_char dquote (chr dquote +:+ chr dquote) "{}" +:+ chr dquote.
Proof.
  split.
  - apply (proj1 escape_csv_value_quoting). left. reflexivity.
  - apply (proj1 (proj2 escape_csv_value_quoting)); reflexivity.
Defined.

(** Claim C5. The value tuple of the tokenizer scenario yields exactly
    five values: 1, the text with its doubled quotes collapsed, the list
    literal as one token, true for TRUE and the empty string for NULL. *)
Theorem parse_sql_values_scenario :
  SqlParser.parse_sql_values Scenario.sql_tuple
  = ["1"; Scenario.obrien; "[10,20,30]"; "true"; ""].
Proof. reflexivity. Qed.

End EncoderFacts.

(* ================================================================== *)
(** ** Message rows *)
(* ================================================================== *)

Section MessageFacts.
Context {W : Type} `{PyRuntime W}.

Ltac run_draws :=
  unfold Py.bind;
  repeat match goal with
         | |- context [let (_, _) := ?e in _] => destruct e as [? ?]
         end.

(** Claim C4. In every Message row, of [dsbulk_generate.py] and of
    [generate.py] alike, bucket is the floor of chat_msg_local_id divided
    by 1000: it is the quotient, and the id lies in the thousand that the
    bucket starts. *)
Theorem message_bucket_is_floor (message_idx : Z) (chat_id : option Z) (w : W) :
  let r := (Message.generate_message_row message_idx chat_id w).1 in
  let m := (MessageCql.generate_message message_idx chat_id w).1 in
  (Message.bucket r = Message.chat_msg_local_id r / 1000
   /\ 1000 * Message.bucket r <= Message.chat_msg_local_id r
      < 1000 * Message.bucket r + 1000)
  /\ (MessageCql.bucket m = MessageCql.chat_msg_local_id m / 1000
      /\ 1000 * MessageCql.bucket m <= MessageCql.chat_msg_local_id m
         < 1000 * MessageCql.bucket m + 1000).
Proof.
  assert (forall x : Z, 1000 * (x / 1000) <= x < 1000 * (x / 1000) + 1000) as Hfloor.
  { intros x. pose proof (Z.div_mod x 1000 ltac:(lia)).
    pose proof (Z.mod_pos_bound x 1000 ltac:(lia)). lia. }
  split.
  - unfold Message.generate_message_row. run_draws. simpl.
    unfold Message.generate_bucket. split; [done|apply Hfloor].
  - unfold MessageCql.generate_message. run_draws. simpl.
    unfold MessageCql.generate_bucket. split; [done|apply Hfloor].
Qed.

End MessageFacts.

(** Claim C3, at an input where it fails. In [dsbulk_generate.py] the flag
    [forwarded] is a draw of its own, and in [generate.py] it is taken
    from a first list of ids while the row keeps a second one: on the two
    scripts below the row says forwarded and carries no forwarded id. *)
Theorem forwarded_drawn_apart_from_ids :
  let r := (Message.generate_message_row 0 None Scenario.forwarded_then_no_ids).1 in
  let m := (MessageCql.generate_message 0 None Scenario.ids_then_no_ids).1 in
  (Message.forwarded r = "true" /\ Message.forwarded_message_ids r = "[]")
  /\ (MessageCql.forwarded m = true /\ MessageCql.forwarded_message_ids m = []).
Proof. vm_compute. done. Qed.

(* ================================================================== *)
(** ** The buffered sink *)
(* ================================================================== *)

Section SinkFacts.
Context {W : Type} `{PyRuntime W}.
Import Message.

Lemma generate_rows_length (n : nat) (i : Z) (c : option Z) (w : W) :
  length (generate_rows n i c w).1 = n.
Proof.
  revert i w. induction n as [|n IH]; intros i w; simpl; [done|].
  unfold Py.bind. destruct (generate_message_row i c w) as [r w1].
  specialize (IH (i + 1) w1). destruct (generate_rows n (i + 1) c w1) as [rest w2].
  simpl in *. by rewrite IH.
Qed.

Lemma generate_rows_app (n m : nat) (i : Z) (c : option Z) (w : W) :
  generate_rows (n + m) i c w
  = let (rows1, w1) := generate_rows n i c w in
    let (rows2, w2) := generate_rows m (i + Z.of_nat n) c w1 in
    (rows1 ++ rows2, w2).
Proof.
  revert i w. induction n as [|n IH]; intros i w.
  - simpl. unfold Py.ret. rewrite Z.add_0_r.
    by destruct (generate_rows m i c w).
  - cbn [Nat.add generate_rows]. unfold Py.bind.
    destruct (generate_message_row i c w) as [r w1].
    rewrite IH. replace (i + 1 + Z.of_nat n) with (i + Z.of_nat (S n)) by lia.
    destruct (generate_rows n (i + 1) c w1) as [rows1 w2]. unfold Py.ret.
    by destruct (generate_rows m (i + Z.of_nat (S n)) c w2) as [rows2 w3].
Qed.

Lemma optimized_loop_app (n m : nat) (i : Z) (c : option Z)
    (buffer : list row) (written : list (list row)) (w : W) :
  optimized_loop (n + m) i c buffer written w
  = let '(buffer1, written1, w1) := optimized_loop n i c buffer written w in
    optimized_loop m (i + Z.of_nat n) c buffer1 written1 w1.
Proof.
  revert i buffer written w. induction n as [|n IH]; intros i buffer written w.
  - simpl. unfold Py.ret. by rewrite Z.add_0_r.
  - cbn [Nat.add optimized_loop]. unfold Py.bind.
    destruct (generate_message_row i c w) as [r w1].
    replace (i + Z.of_nat (S n)) with (i + 1 + Z.of_nat n) by lia.
    destruct (BUFFER_SIZE <=? Z.of_nat (length (buffer ++ [r]))); apply IH.
Qed.

(** While the buffer has room for the rows to come, the loop appends them;
    when they fill it exactly, it hands the full buffer over once. *)
Lemma optimized_loop_fill (n : nat) (i : Z) (c : option Z)
    (buffer : list row) (written : list (list row)) (w : W) :
  Z.of_nat (length buffer) < BUFFER_SIZE ->
  Z.of_nat (length buffer) + Z.of_nat n <= BUFFER_SIZE ->
  optimized_loop n i c buffer written w
  = let (rows, w') := generate_rows n i c w in
    (if Z.of_nat (length buffer) + Z.of_nat n =? BUFFER_SIZE
     then ([], written ++ [buffer ++ rows])
     else (buffer ++ rows, written), w').
Proof.
  revert i buffer written w. induction n as [|n IH]; intros i buffer written w Hlt Hle.
  - simpl. unfold Py.ret. rewrite app_nil_r.
    destruct (Z.eqb_spec (Z.of_nat (length buffer) + Z.of_nat 0) BUFFER_SIZE); [lia|done].
  - cbn [optimized_loop generate_rows]. unfold Py.bind.
    destruct (generate_message_row i c w) as [r w1]. cbv zeta.
    rewrite length_app. change (length [r]) with 1%nat.
    destruct (Z.leb_spec BUFFER_SIZE (Z.of_nat (length buffer + 1))) as [Hfull|Hroom].
    + assert (n = 0%nat) as -> by lia. simpl. unfold Py.ret.
      destruct (Z.eqb_spec (Z.of_nat (length buffer) + Z.of_nat 1) BUFFER_SIZE); [done|lia].
    + rewrite IH; [|rewrite length_app; simpl; lia..].
      destruct (generate_rows n (i + 1) c w1) as [rest w2]. unfold Py.ret.
      rewrite length_app. simpl length. rewrite <- app_assoc. simpl.
      replace (Z.of_nat (length buffer + 1) + Z.of_nat n)
        with (Z.of_nat (length buffer) + Z.of_nat (S n)) by lia.
      done.
Qed.

Lemma optimized_csv_three_blocks (a b : nat) (c : option Z) (w : W) :
  Z.of_nat a = BUFFER_SIZE -> (0 < b)%nat -> Z.of_nat b < BUFFER_SIZE ->
  let rows := (generate_rows (a + (a + b)) 0 c w).1 in
  (generate_optimized_csv (a + (a + b)) c w).1
  = [take a rows; take a (drop a rows); drop (a + a) rows].
Proof.
  intros Ha Hb Hb' rows. subst rows.
  assert (Z.of_nat (length (@nil row)) < BUFFER_SIZE) as H0 by done.
  unfold generate_optimized_csv, Py.bind.
  rewrite (generate_rows_app a (a + b)), (optimized_loop_app a (a + b)).
  rewrite (optimized_loop_fill a 0 c [] [] w H0) by (simpl; lia).
  pose proof (generate_rows_length a 0 c w) as L1.
  destruct (generate_rows a 0 c w) as [rows1 w1]. simpl in L1.
  destruct (Z.eqb_spec (Z.of_nat (length (@nil row)) + Z.of_nat a) BUFFER_SIZE) as [_|Hne];
    [|simpl in Hne; lia].
  rewrite (generate_rows_app a b), (optimized_loop_app a b).
  rewrite (optimized_loop_fill a _ c [] _ w1 H0) by (simpl; lia).
  pose proof (generate_rows_length a (0 + Z.of_nat a) c w1) as L2.
  destruct (generate_rows a (0 + Z.of_nat a) c w1) as [rows2 w2]. simpl in L2.
  destruct (Z.eqb_spec (Z.of_nat (length (@nil row)) + Z.of_nat a) BUFFER_SIZE) as [_|Hne];
    [|simpl in Hne; lia].
  rewrite (optimized_loop_fill b _ c [] _ w2 H0) by (simpl; lia).
  pose proof (generate_rows_length b (0 + Z.of_nat a + Z.of_nat a) c w2) as L3.
  destruct (generate_rows b (0 + Z.of_nat a + Z.of_nat a) c w2) as [rows3 w3]. simpl in L3.
  destruct (Z.eqb_spec (Z.of_nat (length (@nil row)) + Z.of_nat b) BUFFER_SIZE) as [He|_];
    [simpl in He; lia|].
  destruct rows3 as [|r3 rows3']; [simpl in L3; lia|].
  cbn [fst app Py.ret].
  rewrite (take_app_length' rows1) by done.
  rewrite (drop_app_length' rows1) by done.
  rewrite (take_app_length' rows2) by done.
  rewrite <- drop_drop, (drop_app_length' rows1), (drop_app_length' rows2) by done.
  done.
Qed.

(** Claim C9. With 2500 rows to generate, [generate_optimized_csv] calls
    [writerows] exactly three times, on the first thousand rows, the
    second thousand and the last five hundred: every row is written once,
    in the order of generation. *)
Theorem optimized_sink_2500 (c : option Z) (w : W) :
  let rows := (generate_rows 2500 0 c w).1 in
  let blocks := (generate_optimized_csv 2500 c w).1 in
  blocks = [take 1000 rows; take 1000 (drop 1000 rows); drop 2000 rows]
  /\ length <$> blocks = [1000; 1000; 500]%nat
  /\ concat blocks = rows.
Proof.
  intros rows blocks.
  assert (length rows = 2500%nat) as Hlen by apply generate_rows_length.
  assert (blocks = [take 1000 rows; take 1000 (drop 1000 rows); drop 2000 rows]) as Hb.
  { apply (optimized_csv_three_blocks 1000 500 c w); [reflexivity|lia|reflexivity]. }
  split; [exact Hb|]. rewrite Hb. split.
  - cbn [fmap list_fmap]. rewrite !length_take, !length_drop, Hlen.
    repeat f_equal; lia.
  - cbn [concat]. rewrite app_nil_r.
    rewrite <- (take_drop 1000 rows) at 4.
    rewrite <- (take_drop 1000 (drop 1000 rows)) at 2. rewrite drop_drop. done.
Qed.
End SinkFacts.

(* ================================================================== *)
(** ** UserToMessage counters *)
(* ================================================================== *)

Section UserToMessageFacts.
Context {W : Type} `{PyRuntime W}.
Import UserToMessage.

Lemma draw_tables {A : Type} (m : Py.M W A) (g : generator W) :
  chat_local_counter (draw m g).2 = chat_local_counter g
  /\ generated_messages (draw m g).2 = generated_messages g.
Proof. unfold draw. by destruct (m (env g)). Qed.

Lemma search_turn_tables (g : generator W) :
  chat_local_counter (search_turn g).2 = chat_local_counter g
  /\ generated_messages (search_turn g).2 = generated_messages g.
Proof.
  unfold search_turn.
  pose proof (draw_tables (choice users) g) as [Hc1 Hg1].
  destruct (draw (choice users) g) as [u g1].
  pose proof (draw_tables (choice peers) g1) as [Hc2 Hg2].
  destruct (draw (choice peers) g1) as [p g2]. simpl in *. split; congruence.
Qed.

Lemma unique_key_unfold (fuel : nat) (g : generator W) :
  generate_unique_message_key (S fuel) g
  = let (key, g') := search_turn g in
    if accepted g' key then Some ((key.1, key.2, next_id g' key), g')
    else generate_unique_message_key fuel g'.
Proof.
  simpl. unfold search_turn, accepted, next_id.
  destruct (draw (choice users) g) as [u g1].
  destruct (draw (choice peers) g1) as [p g2]. simpl.
  destruct (chat_local_counter g2 !! (u, p)) as [c|]; [|done].
  by destruct (c <? 1000).
Qed.

Lemma accepted_tables (g g' : generator W) (key : Z * Z) :
  chat_local_counter g' = chat_local_counter g ->
  accepted g' key = accepted g key /\ next_id g' key = next_id g key
  /\ counter_at key g' = counter_at key g.
Proof. intros Hc. unfold accepted, next_id, counter_at. by rewrite Hc. Qed.

Lemma unique_key_sound (fuel : nat) (g g' : generator W) (u p c : Z) :
  generate_unique_message_key fuel g = Some ((u, p, c), g') ->
  chat_local_counter g' = chat_local_counter g
  /\ generated_messages g' = generated_messages g
  /\ accepted g (u, p) = true /\ c = next_id g (u, p).
Proof.
  revert g. induction fuel as [|fuel IH]; intros g; [done|].
  rewrite unique_key_unfold.
  pose proof (search_turn_tables g) as [Hc Hg].
  destruct (search_turn g) as [key g1]. simpl in Hc, Hg.
  destruct (accepted_tables g g1 key Hc) as (Ha & Hn & _).
  destruct (accepted g1 key) eqn:Hacc.
  - intros [= <- <- <- <-]. destruct key as [u p]. simpl.
    rewrite <- Ha, <- Hn. done.
  - intros Hrec. destruct (IH g1 Hrec) as (Hc' & Hg' & Ha' & Hn').
    destruct (accepted_tables g g1 (u, p) Hc) as (Ha2 & Hn2 & _).
    split_and!; congruence.
Qed.

Lemma next_id_counter_at (g : generator W) (key : Z * Z) :
  next_id g key = counter_at key g + 1.
Proof. unfold next_id, counter_at. by destruct (chat_local_counter g !! key). Qed.

Lemma accepted_below_cap (g : generator W) (key : Z * Z) :
  accepted g key = true -> next_id g key <= 1000.
Proof.
  unfold accepted, next_id. destruct (chat_local_counter g !! key) as [c|]; [|lia].
  intros Hc%Z.ltb_lt. lia.
Qed.

Lemma counter_at_set (key key' : Z * Z) (v : Z) (g : generator W) :
  counter_at key' (set_counter key v g)
  = if decide (key = key') then v else counter_at key' g.
Proof.
  unfold counter_at, set_counter. simpl. rewrite lookup_insert.
  by destruct (decide (key = key')).
Qed.

Lemma counter_at_ensure (key key' : Z * Z) (g : generator W) :
  counter_at key' (ensure_key key g) = counter_at key' g.
Proof.
  unfold ensure_key. destruct (chat_local_counter g !! key) eqn:Hk; [done|].
  rewrite counter_at_set. destruct (decide (key = key')) as [<-|]; [|done].
  unfold counter_at. by rewrite Hk.
Qed.

Lemma generated_ensure (key : Z * Z) (g : generator W) :
  generated_messages (ensure_key key g) = generated_messages g.
Proof. unfold ensure_key. by destruct (chat_local_counter g !! key). Qed.

Lemma counter_at_draw {A : Type} (m : Py.M W A) (key : Z * Z) (g : generator W) :
  counter_at key (draw m g).2 = counter_at key g.
Proof. unfold counter_at. by destruct (draw_tables m g) as [-> _]. Qed.

(** The row built once the key is known, from a generator [g] that differs
    from a consistent [g0] at most in the counter of the pair. *)
Lemma record_with_key_spec (u p cid : Z) (g0 g g' : generator W) (r : row) :
  consistent g0 ->
  generated_messages g = generated_messages g0 ->
  (forall key', key' <> (u, p) -> counter_at key' g = counter_at key' g0) ->
  cid = counter_at (u, p) g0 + 1 ->
  record_with_key u p cid g = (r, g') ->
  user_id r = u /\ peer_id r = p /\ chat_local_id r = cid
  /\ counter_at (u, p) g' = cid
  /\ (forall key', key' <> (u, p) -> counter_at key' g' = counter_at key' g0)
  /\ consistent g'.
Proof.
  intros Hcons Hgen Hother Hcid. unfold record_with_key.
  set (g1 := set_counter (u, p) cid (ensure_key (u, p) g)).
  pose proof (draw_tables generate_flags g1) as [Hc2 Hg2].
  assert (forall key', counter_at key' (draw generate_flags g1).2
                       = if decide ((u, p) = key') then cid else counter_at key' g) as Hat.
  { intros key'. rewrite counter_at_draw. subst g1.
    by rewrite counter_at_set, counter_at_ensure. }
  destruct (draw generate_flags g1) as [fl g2]. simpl in Hc2, Hg2, Hat.
  assert (generated_messages g2 = generated_messages g0) as Hg20.
  { rewrite Hg2. subst g1. simpl. by rewrite generated_ensure. }
  rewrite bool_decide_eq_false_2; last first.
  { rewrite Hg20. intros Hin%Hcons. lia. }
  intros [= <- <-]. simpl.
  assert (forall key', counter_at key' (add_message (u, p, cid) g2)
                       = counter_at key' g2) as Hadd by done.
  split_and!; try done.
  - rewrite Hadd, Hat. by rewrite decide_True.
  - intros key' Hne. rewrite Hadd, Hat. rewrite decide_False by done. by apply Hother.
  - intros u' p' c'. simpl. rewrite Hadd, Hat, Hg20.
    intros [Hnew%elem_of_singleton|Hold]%elem_of_union.
    + injection Hnew as -> -> ->. by rewrite decide_True.
    + apply Hcons in Hold. destruct (decide ((u, p) = (u', p'))) as [[= <- <-]|Hne].
      * lia.
      * rewrite Hother by done. done.
Qed.

Lemma record_row_spec (fuel : nat) (idx : Z) (uid pid : option Z)
    (g g' : generator W) (r : row) :
  consistent g ->
  generate_record_row fuel idx uid pid g = Some (r, g') ->
  chat_local_id r = counter_at (user_id r, peer_id r) g + 1
  /\ counter_at (user_id r, peer_id r) g' = counter_at (user_id r, peer_id r) g + 1
  /\ (forall key', key' <> (user_id r, peer_id r) ->
        counter_at key' g' = counter_at key' g)
  /\ consistent g'
  /\ (uid = None \/ pid = None -> chat_local_id r <= 1000).
Proof.
  intros Hcons. unfold generate_record_row.
  assert (forall u p c g1,
    generate_unique_message_key fuel g = Some ((u, p, c), g1) ->
    Some (record_with_key u p c g1) = Some (r, g') ->
      chat_local_id r = counter_at (user_id r, peer_id r) g + 1
      /\ counter_at (user_id r, peer_id r) g' = counter_at (user_id r, peer_id r) g + 1
      /\ (forall key', key' <> (user_id r, peer_id r) ->
            counter_at key' g' = counter_at key' g)
      /\ consistent g'
      /\ (uid = None \/ pid = None -> chat_local_id r <= 1000)) as Hrandom.
  { intros u p c g1 Hkey [= Hrow].
    destruct (unique_key_sound _ _ _ _ _ _ Hkey) as (Hc & Hg & Hacc & Hn).
    assert (forall key', counter_at key' g1 = counter_at key' g) as Hat.
    { intros key'. unfold counter_at. by rewrite Hc. }
    destruct (record_with_key_spec u p c g g1 g' r Hcons Hg) as (-> & -> & Hid & Hk & Ho & Hcons');
      [by intros; apply Hat|by rewrite Hn, next_id_counter_at|exact Hrow|].
    pose proof (accepted_below_cap _ _ Hacc) as Hcap.
    rewrite next_id_counter_at in Hn, Hcap.
    split_and!; try done; lia. }
  destruct uid as [u|], pid as [p|];
    try (destruct (generate_unique_message_key fuel g) as [[[[u' p'] c'] g1]|] eqn:Hkey;
         [by eapply Hrandom|done]).
  unfold get_next_chat_local_id.
  set (g1 := set_counter (u, p) (counter_at (u, p) (ensure_key (u, p) g) + 1)
               (ensure_key (u, p) g)).
  intros [= Hrow].
  assert (forall key', counter_at key' g1
                       = if decide ((u, p) = key') then counter_at (u, p) g + 1
                         else counter_at key' g) as Hat.
  { intros key'. subst g1. by rewrite counter_at_set, !counter_at_ensure. }
  destruct (record_with_key_spec u p (counter_at (u, p) g1) g g1 g' r Hcons)
    as (-> & -> & Hid & Hk & Ho & Hcons'); try done.
  - subst g1. simpl. by rewrite generated_ensure.
  - intros key' Hne. rewrite Hat. by rewrite decide_False.
  - rewrite Hat. by rewrite decide_True.
  - rewrite Hat, decide_True in Hid, Hk by done.
    split_and!; try done. intros [?|?]; done.
Qed.

Lemma ids_of_pair_cons (key : Z * Z) (r : row) (rows : list row) :
  ids_of_pair key (r :: rows)
  = if decide ((user_id r, peer_id r) = key)
    then chat_local_id r :: ids_of_pair key rows
    else ids_of_pair key rows.
Proof.
  unfold ids_of_pair. rewrite filter_cons.
  by destruct (decide ((user_id r, peer_id r) = key)).
Qed.

Lemma generate_records_spec (fuel n : nat) (start : Z) (uid pid : option Z)
    (g g' : generator W) (rows : list row) :
  consistent g ->
  generate_records fuel n start uid pid g = Some (rows, g') ->
  consistent g'
  /\ (forall key, counter_at key g <= counter_at key g'
        /\ ids_of_pair key rows
           = seqZ (counter_at key g + 1) (counter_at key g' - counter_at key g))
  /\ (uid = None \/ pid = None -> Forall (fun r => chat_local_id r <= 1000) rows).
Proof.
  revert start g rows. induction n as [|n IH]; intros start g rows Hcons; simpl.
  - intros [= <- <-]. split_and!; [done| |by constructor].
    intros key. split; [lia|]. rewrite seqZ_nil; [done|lia].
  - destruct (generate_record_row fuel start uid pid g) as [[r g1]|] eqn:Hrow; [|done].
    destruct (generate_records fuel n (start + 1) uid pid g1) as [[rest g2]|] eqn:Hrest; [|done].
    intros [= <- <-].
    destruct (record_row_spec _ _ _ _ _ _ _ Hcons Hrow) as (Hid & Hk & Ho & Hcons1 & Hcap).
    destruct (IH _ _ _ Hcons1 Hrest) as (Hcons2 & Hseq & Hcaps).
    split; [done|]. split; [|intros Hm; constructor; auto].
    intros key. destruct (Hseq key) as [Hle Hids]. rewrite ids_of_pair_cons.
    destruct (decide ((user_id r, peer_id r) = key)) as [<-|Hne].
    + split; [lia|]. rewrite Hids, Hk, Hid.
      rewrite (seqZ_cons (counter_at _ g + 1)) by lia.
      f_equal. f_equal; lia.
    + rewrite Ho in Hle, Hids by done. done.
Qed.

Lemma new_generator_consistent (s : Z) (w : W) : consistent (new_generator s w).
Proof. intros u p c Hin. simpl in Hin. set_solver. Qed.

(** Claim C1, amended. In every UserToMessage output the rows of one
    (user_id, peer_id) pair carry the chat_local_id values 1, 2, 3, ...
    in file order, without gap; when the generator draws the pairs
    itself (user_id or peer_id is not fixed) none of them exceeds 1000. *)
Theorem chat_local_ids_count_from_one (fuel : nat) (s : Z) (count : nat)
    (uid pid : option Z) (w : W) (rows : list row) :
  generate_csv_file fuel s count uid pid w = Some rows ->
  (forall key : Z * Z,
      ids_of_pair key rows = seqZ 1 (Z.of_nat (length (ids_of_pair key rows))))
  /\ (uid = None \/ pid = None ->
      forall r, r ∈ rows -> chat_local_id r <= 1000).
Proof.
  unfold generate_csv_file.
  destruct (generate_records fuel count 0 uid pid (new_generator s w))
    as [[rows' g']|] eqn:Hrun; [|done].
  intros [= <-].
  destruct (generate_records_spec _ _ _ _ _ _ _ _ (new_generator_consistent s w) Hrun)
    as (_ & Hseq & Hcap).
  split.
  - intros key. destruct (Hseq key) as [Hle Hids].
    assert (counter_at key (new_generator s w) = 0) as H0 by done.
    rewrite H0 in Hle, Hids. rewrite Hids at 1. rewrite Hids, length_seqZ.
    f_equal. lia.
  - intros Hmode r Hr. specialize (Hcap Hmode).
    rewrite Forall_forall in Hcap. by apply Hcap.
Qed.


(** Claim C10, amended. The search of [generate_unique_message_key] has no
    bound of its own and never accepts an overflow: what it returns is a
    pair absent from the counters or below the cap, with the next
    chat_local_id, at most 1000; it returns as soon as a turn draws such
    a pair, and while no turn does, it is still running. *)
Theorem unique_key_search_runs_to_first_accepted_pair :
  (forall (fuel : nat) (g g' : generator W) (u p c : Z),
      generate_unique_message_key fuel g = Some ((u, p, c), g') ->
      accepted g (u, p) = true /\ c = next_id g (u, p) /\ c <= 1000
      /\ chat_local_counter g' = chat_local_counter g)
  /\ (forall (n : nat) (g : generator W),
      accepted g (search_turn (after_turns n g)).1 = true ->
      exists res, forall fuel : nat,
          (n < fuel)%nat -> generate_unique_message_key fuel g = Some res)
  /\ (forall (n : nat) (g : generator W),
      (forall k : nat, (k < n)%nat ->
          accepted g (search_turn (after_turns k g)).1 = false) ->
      generate_unique_message_key n g = None).
Proof.
  split_and!.
  - intros fuel g g' u p c Hkey.
    destruct (unique_key_sound _ _ _ _ _ _ Hkey) as (Hc & _ & Hacc & Hn).
    split_and!; try done. rewrite Hn. by apply accepted_below_cap.
  - intros n. induction n as [|n IH]; intros g Hacc.
    + simpl in Hacc.
      exists (((search_turn g).1.1, (search_turn g).1.2,
               next_id g (search_turn g).1), (search_turn g).2).
      intros [|fuel] Hf; [lia|]. rewrite unique_key_unfold.
      destruct (search_turn_tables g) as [Hc _].
      destruct (search_turn g) as [key g1]. simpl in *.
      destruct (accepted_tables g g1 key Hc) as (-> & -> & _). by rewrite Hacc.
    + simpl in Hacc. destruct (search_turn_tables g) as [Hc _].
      destruct (accepted g (search_turn g).1) eqn:Hfirst.
      * exists (((search_turn g).1.1, (search_turn g).1.2,
                 next_id g (search_turn g).1), (search_turn g).2).
        intros [|fuel] Hf; [lia|]. rewrite unique_key_unfold.
        destruct (search_turn g) as [key g1]. simpl in *.
        destruct (accepted_tables g g1 key Hc) as (-> & -> & _). by rewrite Hfirst.
      * destruct (IH (search_turn g).2) as [res Hres].
        { by destruct (accepted_tables g _ (search_turn (after_turns n (search_turn g).2)).1 Hc)
            as (-> & _). }
        exists res. intros [|fuel] Hf; [lia|]. rewrite unique_key_unfold.
        specialize (Hres fuel ltac:(lia)).
        destruct (search_turn g) as [key g1]. simpl in *.
        destruct (accepted_tables g g1 key Hc) as (-> & _). by rewrite Hfirst.
  - intros n. induction n as [|n IH]; intros g Hnone; [done|].
    rewrite unique_key_unfold. destruct (search_turn_tables g) as [Hc _].
    pose proof (Hnone 0%nat ltac:(lia)) as Hfirst. simpl in Hfirst.
    assert (generate_unique_message_key n (search_turn g).2 = None) as Hrest.
    { apply IH. intros k Hk. specialize (Hnone (S k) ltac:(lia)). simpl in Hnone.
      by destruct (accepted_tables g _ (search_turn (after_turns k (search_turn g).2)).1 Hc)
        as (-> & _). }
    destruct (search_turn g) as [key g1]. simpl in *.
    destruct (accepted_tables g g1 key Hc) as (-> & _). by rewrite Hfirst.
Qed.

End UserToMessageFacts.

Section UserToMessageRuns.
Import UserToMessage Scripted.

Lemma generate_records_app (fuel n m : nat) (start : Z) (uid pid : option Z)
    (g : generator world) :
  generate_records fuel (n + m) start uid pid g
  = match generate_records fuel n start uid pid g with
    | None => None
    | Some (rows1, g1) =>
        match generate_records fuel m (start + Z.of_nat n) uid pid g1 with
        | None => None
        | Some (rows2, g2) => Some (rows1 ++ rows2, g2)
        end
    end.
Proof.
  revert start g. induction n as [|n IH]; intros start g.
  - simpl. rewrite Z.add_0_r.
    by destruct (generate_records fuel m start uid pid g) as [[rows2 g2]|].
  - cbn [Nat.add generate_records].
    destruct (generate_record_row fuel start uid pid g) as [[r g1]|]; [|done].
    rewrite IH. replace (start + 1 + Z.of_nat n) with (start + Z.of_nat (S n)) by lia.
    destruct (generate_records fuel n (start + 1) uid pid g1) as [[rows1 g2]|]; [|done].
    by destruct (generate_records fuel m (start + Z.of_nat (S n)) uid pid g2) as [[rows2 g3]|].
Qed.

Lemma search_turn_zeros (g : generator world) :
  script (env g) = [] -> search_turn g = ((1000, 1000), g).
Proof. destruct g as [[sc wl] cnt gen]. simpl. intros ->. reflexivity. Qed.

Lemma record_with_key_zeros (u p cid : Z) (g : generator world) :
  script (env g) = [] -> script (env (record_with_key u p cid g).2) = [].
Proof.
  destruct g as [[sc wl] cnt gen]. simpl. intros ->.
  unfold record_with_key, ensure_key. simpl.
  destruct (cnt !! (u, p)); simpl; case_bool_decide; reflexivity.
Qed.

(** On a world whose script is used up, each further row goes to the pair
    (1000, 1000) as long as its counter is below the cap. *)
Lemma zeros_rows_fill_pair (n : nat) (start : Z) (g : generator world) :
  script (env g) = [] -> consistent g ->
  counter_at (1000, 1000) g + Z.of_nat n <= 1000 ->
  exists (rows : list row) (g' : generator world),
    generate_records 1 n start None None g = Some (rows, g')
    /\ script (env g') = [] /\ consistent g'
    /\ counter_at (1000, 1000) g' = counter_at (1000, 1000) g + Z.of_nat n.
Proof.
  revert start g. induction n as [|n IH]; intros start g Hs Hcons Hroom.
  - exists [], g. simpl. split_and!; try done. lia.
  - cbn [generate_records]. unfold generate_record_row.
    rewrite unique_key_unfold, (search_turn_zeros g Hs).
    assert (accepted g (1000, 1000) = true) as ->.
    { unfold accepted. unfold counter_at in Hroom.
      destruct (chat_local_counter g !! (1000, 1000)) as [c|]; [|done].
      simpl in Hroom. apply Z.ltb_lt. lia. }
    cbn [fst snd].
    pose proof (record_with_key_zeros 1000 1000 (next_id g (1000, 1000)) g Hs) as Hs1.
    destruct (record_with_key 1000 1000 (next_id g (1000, 1000)) g) as [r g1] eqn:Hrow.
    simpl in Hs1.
    destruct (record_with_key_spec 1000 1000 _ g g g1 r Hcons eq_refl
                ltac:(done) (next_id_counter_at g (1000, 1000)) Hrow)
      as (_ & _ & _ & Hk & _ & Hcons1).
    rewrite next_id_counter_at in Hk.
    destruct (IH (start + 1) g1 Hs1 Hcons1 ltac:(lia)) as (rest & g2 & -> & Hs2 & Hcons2 & Hk2).
    exists (r :: rest), g2. split_and!; try done. lia.
Qed.

(** Once that pair stands at the cap the search goes on for as many turns
    as it is given. *)
Lemma search_stuck_on_saturated_pair (g : generator world) (c : Z) :
  script (env g) = [] ->
  chat_local_counter g !! (1000, 1000) = Some c -> 1000 <= c ->
  forall fuel : nat, generate_unique_message_key fuel g = None.
Proof.
  intros Hs Hc Hcap fuel. induction fuel as [|fuel IH]; [done|].
  rewrite unique_key_unfold, (search_turn_zeros g Hs).
  unfold accepted. rewrite Hc.
  destruct (Z.ltb_spec c 1000); [lia|done].
Qed.

(** Counterexample to claim C1 as stated: with both ids fixed, the 1001st
    row of the pair carries chat_local_id 1001. *)
Lemma fixed_pair_exceeds_cap :
  exists rows : list row,
    generate_csv_file 0 42 1001 (Some 1) (Some 2) (zeros 0) = Some rows
    /\ exists r : row, r ∈ rows /\ ~ chat_local_id r <= 1000.
Proof.
  assert (option_map (fun rows => (chat_local_id <$> rows) !! 1000%nat)
            (generate_csv_file 0 42 1001 (Some 1) (Some 2) (zeros 0))
          = Some (Some 1001)) as Hlast by (vm_compute; reflexivity).
  destruct (generate_csv_file 0 42 1001 (Some 1) (Some 2) (zeros 0)) as [rows|];
    [|discriminate].
  exists rows. split; [done|]. simpl in Hlast. injection Hlast as Hlast.
  apply list_lookup_fmap_Some in Hlast as (r & Hr & Hid).
  exists r. split; [by eapply list_elem_of_lookup_2|lia].
Qed.

Lemma chat_local_ids_count_from_one_witness :
  exists rows : list row,
    generate_csv_file 5 42 3 None None (zeros 0) = Some rows
    /\ ((forall key : Z * Z,
            ids_of_pair key rows = seqZ 1 (Z.of_nat (length (ids_of_pair key rows))))
        /\ (@None Z = None \/ @None Z = None ->
            forall r, r ∈ rows -> chat_local_id r <= 1000)).
Proof.
  eexists. split; [vm_compute; reflexivity|].
  apply (chat_local_ids_count_from_one 5 42 3 None None (zeros 0)).
  vm_compute; reflexivity.
Defined.

(** Counterexample to claim C10 as stated: after 1007 rows on this world
    the pair (1000, 1000) stands at the cap and every later turn draws
    it again; the next search returns within no number of turns. *)
Lemma search_never_returns_once_pair_is_full :
  exists (rows : list row) (g : generator world),
    generate_records 1 1007 0 None None (new_generator 42 (zeros 0)) = Some (rows, g)
    /\ forall fuel : nat, generate_unique_message_key fuel g = None.
Proof.
  change 1007%nat with (7 + 1000)%nat. rewrite generate_records_app.
  assert (option_map (fun x => (script (env x.2), counter_at (1000, 1000) x.2))
            (generate_records 1 7 0 None None (new_generator 42 (zeros 0)))
          = Some ([], 0)) as Hseven by (vm_compute; reflexivity).
  pose proof (generate_records_spec 1 7 0 None None (new_generator 42 (zeros 0))) as Hspec.
  destruct (generate_records 1 7 0 None None (new_generator 42 (zeros 0)))
    as [[rows1 g1]|]; [|discriminate].
  cbn [option_map snd] in Hseven. injection Hseven as Hs Hk.
  destruct (Hspec g1 rows1 (new_generator_consistent 42 (zeros 0)) eq_refl) as (Hcons & _).
  destruct (zeros_rows_fill_pair 1000 (0 + Z.of_nat 7) g1 Hs Hcons ltac:(lia))
    as (rows2 & g2 & -> & Hs2 & _ & Hk2).
  exists (rows1 ++ rows2), g2. split; [reflexivity|].
  apply (search_stuck_on_saturated_pair g2 1000 Hs2); [|lia].
  unfold counter_at in Hk2, Hk.
  destruct (chat_local_counter g2 !! (1000, 1000)) as [c|]; simpl in Hk2; [|lia].
  f_equal. lia.
Qed.

Lemma unique_key_search_witness :
  exists (u p c : Z) (g' : generator world),
    generate_unique_message_key 1 (new_generator 42 (zeros 0)) = Some ((u, p, c), g')
    /\ (accepted (new_generator 42 (zeros 0)) (u, p) = true
        /\ c = next_id (new_generator 42 (zeros 0)) (u, p) /\ c <= 1000
        /\ chat_local_counter g' = chat_local_counter (new_generator 42 (zeros 0))).
Proof.
  eexists _, _, _, _. split; [vm_compute; reflexivity|].
  apply (proj1 unique_key_search_runs_to_first_accepted_pair 1%nat).
  vm_compute; reflexivity.
Defined.

End UserToMessageRuns.

(* ================================================================== *)
(** ** PeerIds timestamps and keys *)
(* ================================================================== *)

#[global] Instance scripted_laws : PyRuntimeLaws Scripted.world.
Proof.
  constructor. intros n w Hn. simpl. unfold Scripted.scripted_randbelow.
  destruct (Scripted.next w) as [x w']. simpl. by apply Z.mod_pos_bound.
Qed.

Section PeerIdsFacts.
Context {W : Type} `{PyRuntimeLaws W}.
Import PeerIds.

Lemma randint_ge (a b : Z) (w : W) : a <= b -> a <= (randint a b w).1.
Proof.
  intros Hab. unfold randint, Py.bind, Py.ret.
  pose proof (randbelow_range (b - a + 1) w ltac:(lia)) as Hr.
  destruct (randbelow (b - a + 1) w) as [i w']. simpl in *. lia.
Qed.

Lemma generate_peerid_row_fields (u c base : Z) (w : W) :
  let r := (generate_peerid_row u c base w).1 in
  user_id r = u /\ chat_id r = c /\ invite_timestamp r = base.
Proof.
  unfold generate_peerid_row, Py.bind.
  repeat match goal with
         | |- context [let (_, _) := ?e in _] => destruct e as [? ?]
         end.
  done.
Qed.

Lemma resolve_collision_ge (n : nat) (u ts : Z) (used : gset (Z * Z)) (w : W) :
  ts <= (resolve_collision n u ts used w).1.
Proof.
  revert ts w. induction n as [|n IH]; intros ts w; simpl; [done|].
  destruct (bool_decide ((u, ts) ∈ used)); [|done].
  unfold Py.bind. pose proof (randint_ge 1 10 w ltac:(lia)) as Hd.
  destruct (randint 1 10 w) as [d w']. simpl in Hd.
  specialize (IH (ts + d) w'). lia.
Qed.

(** What one turn of the standard loop returns. *)
Lemma peerids_turn_spec (chat_ids : list Z) (used used' : gset (Z * Z))
    (w : W) (r : row) (exhausted : bool) :
  (peerids_turn chat_ids used w).1 = Some (r, exhausted, used') ->
  used' = {[ ts_key r ]} ∪ used
  /\ exhausted = bool_decide (ts_key r ∈ used)
  /\ invited_before_last r.
Proof.
  unfold peerids_turn, Py.bind.
  destruct (choice user_ids w) as [u w1].
  destruct (choice_list chat_ids w1) as [[c|] w2]; [|done].
  destruct (generate_timestamp 3 w2) as [invite_ts w3].
  pose proof (randint_ge 0 (180 * 24 * 3600) w3 ltac:(lia)) as Hd.
  destruct (randint 0 (180 * 24 * 3600) w3) as [d w4]. simpl in Hd.
  pose proof (resolve_collision_ge 10 u (invite_ts + d) used w4) as Hts.
  destruct (resolve_collision 10 u (invite_ts + d) used w4) as [ts w5]. simpl in Hts.
  pose proof (generate_peerid_row_fields u c invite_ts w5) as (Hu & _ & Hi).
  destruct (generate_peerid_row u c invite_ts w5) as [r0 w6]. simpl in *.
  intros [= <- <- <-]. unfold ts_key, invited_before_last. simpl.
  rewrite Hu, Hi. split_and!; [done|done|lia].
Qed.

Lemma peerids_loop_spec (n : nat) (chat_ids : list Z) (used : gset (Z * Z))
    (w : W) (trace : list (row * bool)) :
  (peerids_loop n chat_ids used w).1 = Some trace ->
  Forall (fun x => invited_before_last x.1) trace
  /\ (Forall (fun x => x.2 = false) trace ->
      NoDup (ts_key <$> trace.*1)
      /\ forall k, k ∈ ts_key <$> trace.*1 -> k ∉ used).
Proof.
  revert used w trace. induction n as [|n IH]; intros used w trace; simpl.
  - intros [= <-]. split; [constructor|]. intros _. split; [constructor|].
    intros k Hk. by apply elem_of_nil in Hk.
  - unfold Py.bind.
    pose proof (fun used' r e => peerids_turn_spec chat_ids used used' w r e) as Hturn.
    destruct (peerids_turn chat_ids used w) as [[[[r e] used']|] w1]; [|done].
    destruct (Hturn used' r e eq_refl) as (-> & -> & Hinv).
    specialize (IH ({[ ts_key r ]} ∪ used) w1).
    destruct (peerids_loop n chat_ids ({[ ts_key r ]} ∪ used) w1) as [[rest|] w2]; [|done].
    simpl. intros [= <-]. destruct (IH rest eq_refl) as [Hrest Huniq].
    split; [by constructor|].
    intros Hall. inversion Hall as [|x l Hfresh Hall']; subst. simpl in Hfresh.
    apply bool_decide_eq_false in Hfresh.
    destruct (Huniq Hall') as [Hnd Hout]. simpl. split.
    + constructor; [|done]. intros Hin%Hout. apply Hin.
      apply elem_of_union. left. by apply elem_of_singleton.
    + intros k [->|Hk]%elem_of_cons; [done|]. apply Hout in Hk.
      intros Hused. apply Hk. apply elem_of_union. by right.
Qed.

(** Without a turn that runs out of attempts, the rows written by
    [generate_peerids_csv] carry pairwise different keys. *)
Lemma peerids_csv_keys_distinct (n : nat) (chat_ids : list Z) (w : W)
    (trace : list (row * bool)) :
  (peerids_loop n chat_ids ∅ w).1 = Some trace ->
  Forall (fun x => x.2 = false) trace ->
  (generate_peerids_csv n chat_ids w).1 = Some trace.*1
  /\ NoDup (ts_key <$> trace.*1).
Proof.
  intros Hrun Hall. split.
  - unfold generate_peerids_csv, Py.bind.
    destruct (peerids_loop n chat_ids ∅ w) as [t w']. simpl in *. by subst t.
  - by destruct (peerids_loop_spec _ _ _ _ _ Hrun) as [_ [? _]].
Qed.

Lemma chat_users_loop_inv (n : nat) (count total chat base : Z)
    (buffer : list row) (written : list (list row)) (w : W) :
  Forall invited_before_last buffer ->
  Forall (Forall invited_before_last) written ->
  let res := (chat_users_loop n count total chat base buffer written w).1 in
  Forall invited_before_last res.1.2 /\ Forall (Forall invited_before_last) res.2.
Proof.
  revert total buffer written w.
  induction n as [|n IH]; intros total buffer written w Hb Hw; simpl; [done|].
  destruct (count <=? total); [done|]. unfold Py.bind.
  destruct (choice user_ids w) as [u w1].
  pose proof (randint_ge 0 (7 * 24 * 3600) w1 ltac:(lia)) as Hd.
  destruct (randint 0 (7 * 24 * 3600) w1) as [d w2]. simpl in Hd.
  pose proof (randint_ge 0 (180 * 24 * 3600) w2 ltac:(lia)) as Hd'.
  destruct (randint 0 (180 * 24 * 3600) w2) as [d' w3]. simpl in Hd'.
  pose proof (generate_peerid_row_fields u chat (base + d) w3) as (_ & _ & Hi).
  destruct (generate_peerid_row u chat (base + d) w3) as [r w4]. simpl in Hi.
  assert (Forall invited_before_last (buffer ++ [set_last_message_ts r (base + d + d')])) as Hb'.
  { apply Forall_app. split; [done|]. constructor; [|constructor].
    unfold invited_before_last. simpl. lia. }
  destruct (1000 <=? Z.of_nat (length (buffer ++ [set_last_message_ts r (base + d + d')]))).
  - apply IH; [constructor|]. apply Forall_app. split; [done|]. by constructor.
  - by apply IH.
Qed.

Lemma chats_loop_inv (chats : list Z) (chat_idx n_chats rpc count total : Z)
    (buffer : list row) (written : list (list row)) (w : W) :
  Forall invited_before_last buffer ->
  Forall (Forall invited_before_last) written ->
  let res := (chats_loop chats chat_idx n_chats rpc count total buffer written w).1 in
  Forall invited_before_last res.1.2 /\ Forall (Forall invited_before_last) res.2.
Proof.
  revert chat_idx total buffer written w.
  induction chats as [|chat rest IH]; intros chat_idx total buffer written w Hb Hw;
    simpl; [done|].
  destruct (count <=? total); [done|]. unfold Py.bind.
  destruct ((if chat_idx <? n_chats - 1 then randint 1 (rpc * 2)
             else Py.ret (rpc `min` (count - total))) w) as [users_in_chat w1].
  destruct (generate_timestamp 3 w1) as [base w2].
  pose proof (chat_users_loop_inv (Z.to_nat users_in_chat) count total chat base
                buffer written w2 Hb Hw) as Hin.
  destruct (chat_users_loop (Z.to_nat users_in_chat) count total chat base
              buffer written w2) as [[[total' buffer'] written'] w3].
  simpl in Hin. destruct Hin as [Hb' Hw']. by apply IH.
Qed.

(** X22. What the code does keep of claim C8: in every PeerId row, of
    the standard and of the optimized mode, last_message_ts is greater
    than or equal to invite_timestamp, since every offset added to the
    invitation is drawn from zero upwards. *)
Theorem last_message_not_before_invite :
  (forall (count : nat) (chat_ids : list Z) (w : W) (rows : list row),
      (generate_peerids_csv count chat_ids w).1 = Some rows ->
      forall r, r ∈ rows -> invite_timestamp r <= last_message_ts r)
  /\ (forall (count : Z) (chat_ids : list Z) (w : W) (rows : list row),
      (generate_optimized_peerids count chat_ids w).1 = Some rows ->
      forall r, r ∈ rows -> invite_timestamp r <= last_message_ts r).
Proof.
  split.
  - intros count chat_ids w rows. unfold generate_peerids_csv, Py.bind.
    pose proof (peerids_loop_spec count chat_ids ∅ w) as Hspec.
    destruct (peerids_loop count chat_ids ∅ w) as [[trace|] w']; [|done].
    destruct (Hspec trace eq_refl) as [Hall _]. simpl. intros [= <-] r Hr.
    apply list_elem_of_fmap in Hr as ([r' e] & -> & Hin).
    rewrite Forall_forall in Hall. by apply (Hall _ Hin).
  - intros count chat_ids w rows. unfold generate_optimized_peerids.
    destruct chat_ids as [|c0 cs]; [done|]. unfold Py.bind.
    pose proof (chats_loop_inv (c0 :: cs) 0 (Z.of_nat (length (c0 :: cs)))
                  (1 `max` (count `div` Z.of_nat (length (c0 :: cs)))) count 0 [] [] w
                  ltac:(constructor) ltac:(constructor)) as Hinv.
    destruct (chats_loop (c0 :: cs) 0 (Z.of_nat (length (c0 :: cs)))
                (1 `max` (count `div` Z.of_nat (length (c0 :: cs)))) count 0 [] [] w)
      as [[[total buffer] written] w'].
    simpl in Hinv. destruct Hinv as [Hb Hw]. simpl. intros [= <-] r Hr.
    assert (Forall invited_before_last (concat written ++ buffer)) as Hall.
    { apply Forall_app. split; [|done]. by apply List.Forall_concat. }
    rewrite Forall_forall in Hall. by apply Hall.
Qed.

End PeerIdsFacts.

Section PeerIdsRuns.
Import PeerIds Scripted Scenario.

(** Claim C8, at an input where it fails. The comments of the code say
    that last_message_ts comes after the invitation, and the offset is
    drawn with [random.randint(0, max_offset)]: when the draw is 0 the
    row of either mode has last_message_ts equal to invite_timestamp,
    not greater. *)
Theorem last_message_can_equal_invite :
  (exists r : row,
      (generate_peerids_csv 1 [1000] (zeros monday)).1 = Some [r]
      /\ last_message_ts r = invite_timestamp r
      /\ ~ invite_timestamp r < last_message_ts r)
  /\ (exists r : row,
      (generate_optimized_peerids 1 [1000] (zeros monday)).1 = Some [r]
      /\ last_message_ts r = invite_timestamp r
      /\ ~ invite_timestamp r < last_message_ts r).
Proof.
  split; eexists; (split; [vm_compute; reflexivity|]);
    (split; [vm_compute; reflexivity|vm_compute; discriminate]).
Qed.

Lemma last_message_not_before_invite_witness :
  exists rows : list row,
    (generate_peerids_csv 2 [1000; 1001] (zeros monday)).1 = Some rows
    /\ forall r, r ∈ rows -> invite_timestamp r <= last_message_ts r.
Proof.
  eexists. split; [vm_compute; reflexivity|].
  apply (proj1 last_message_not_before_invite 2%nat [1000; 1001] (zeros monday)).
  vm_compute; reflexivity.
Defined.

(** Claim C2, at an input where it fails. [generate_optimized_peerids]
    keeps no set of used pairs and makes no retry: on this world its two
    rows carry the same (user_id, last_message_ts). *)
Theorem optimized_peerids_repeat_a_key :
  exists r1 r2 : row,
    (generate_optimized_peerids 2 [1000] (zeros monday)).1 = Some [r1; r2]
    /\ ts_key r1 = ts_key r2.
Proof. eexists _, _. split; vm_compute; reflexivity. Qed.

(** Claim C7, at an input where it fails. Two PeerIds runs with seed 42
    and one row each, started a day apart, write different files:
    [generate_timestamp] starts from [datetime.now()]. *)
Theorem peerids_file_depends_on_clock :
  peerids_file 42 1 [1000] (zeros monday) <> peerids_file 42 1 [1000] (zeros tuesday).
Proof. vm_compute. intros Heq. discriminate Heq. Qed.

End PeerIdsRuns.

(* ================================================================== *)
(** ** The sinks of the Message generator, for every count *)
(* ================================================================== *)

Section SinkGeneral.
Context {W : Type} `{PyRuntime W}.
Import Message MessageFiles.

Lemma concat_full_blocks (blocks : list (list row)) (k : nat) :
  Forall (fun b => length b = k) blocks ->
  length (concat blocks) = (length blocks * k)%nat.
Proof.
  induction 1 as [|b bs Hb _ IH]; [done|].
  cbn [concat length Nat.mul]. rewrite length_app, IH, Hb. lia.
Qed.

(** What the buffered loop keeps: the buffer stays below the cap, every
    block handed over is full, and blocks and buffer together are the
    rows generated so far. *)
Lemma optimized_loop_blocks (n : nat) (i : Z) (c : option Z)
    (buffer : list row) (written : list (list row)) (w : W) :
  (length buffer < 1000)%nat ->
  exists (new : list (list row)) (buffer' : list row),
    optimized_loop n i c buffer written w
    = (buffer', written ++ new, (generate_rows n i c w).2)
    /\ (length buffer' < 1000)%nat
    /\ Forall (fun b => length b = 1000%nat) new
    /\ concat new ++ buffer' = buffer ++ (generate_rows n i c w).1.
Proof.
  revert i buffer written w. induction n as [|n IH]; intros i buffer written w Hlt.
  - exists [], buffer. simpl. unfold Py.ret. simpl.
    rewrite !app_nil_r. split_and!; [done|done|constructor|done].
  - cbn [optimized_loop generate_rows]. unfold Py.bind.
    destruct (generate_message_row i c w) as [r w1]. cbv zeta.
    rewrite length_app. change (length [r]) with 1%nat.
    destruct (Z.leb_spec BUFFER_SIZE (Z.of_nat (length buffer + 1))) as [Hfull|Hroom];
      unfold BUFFER_SIZE in *.
    + destruct (IH (i + 1) [] (written ++ [buffer ++ [r]]) w1) as (new & b' & Heq & Hb & Hnew & Hcat);
        [simpl; lia|].
      exists ((buffer ++ [r]) :: new), b'. rewrite Heq.
      destruct (generate_rows n (i + 1) c w1) as [rest w2]. unfold Py.ret. simpl in *.
      rewrite <- !app_assoc. simpl. split_and!; [done|done| |].
      * constructor; [|done]. rewrite length_app. simpl. lia.
      * by rewrite Hcat.
    + destruct (IH (i + 1) (buffer ++ [r]) written w1) as (new & b' & Heq & Hb & Hnew & Hcat);
        [rewrite length_app; simpl; lia|].
      exists new, b'. rewrite Heq.
      destruct (generate_rows n (i + 1) c w1) as [rest w2]. unfold Py.ret. simpl in *.
      rewrite <- app_assoc in Hcat. by split_and!.
Qed.

(** X1. The blocks handed to [writerows] by [generate_optimized_csv], put
    end to end, are the rows of the stream in order; each block holds
    between 1 and 1000 rows, every block but the last exactly 1000,
    there are [count] over 1000 blocks, rounded up, and the interpreter
    is left in the state in which the row stream leaves it. *)
Theorem optimized_csv_blocks_partition_rows (count : nat) (c : option Z) (w : W) :
  let rows := (generate_rows count 0 c w).1 in
  let blocks := (generate_optimized_csv count c w).1 in
  concat blocks = rows
  /\ Forall (fun b => (0 < length b <= 1000)%nat) blocks
  /\ (forall (i : nat) (b : list row),
        blocks !! i = Some b -> (S i < length blocks)%nat -> length b = 1000%nat)
  /\ length blocks = ((count + 999) / 1000)%nat
  /\ (generate_optimized_csv count c w).2 = (generate_rows count 0 c w).2.
Proof.
  intros rows blocks. subst rows blocks. unfold generate_optimized_csv, Py.bind.
  destruct (optimized_loop_blocks count 0 c [] [] w ltac:(simpl; lia))
    as (new & b' & -> & Hb & Hnew & Hcat).
  pose proof (generate_rows_length count 0 c w) as Hlen.
  pose proof (concat_full_blocks new 1000 Hnew) as Hfull.
  simpl in Hcat. rewrite <- Hcat, length_app, Hfull in Hlen.
  assert (Forall (fun b : list row => (0 < length b <= 1000)%nat) new) as Hnew'.
  { eapply Forall_impl; [exact Hnew|]. simpl. intros b ->. lia. }
  destruct b' as [|r b'']; unfold Py.ret; cbn [fst snd app].
  - rewrite app_nil_r in Hcat. simpl in Hlen. split_and!; try done.
    + intros i b Hi _. rewrite Forall_forall in Hnew. apply Hnew.
      by eapply list_elem_of_lookup_2.
    + rewrite <- Hlen. apply (Nat.div_unique _ 1000 _ 999); lia.
  - cbn [length] in Hb, Hlen. split_and!; try done.
    + rewrite concat_app. simpl. by rewrite app_nil_r.
    + apply Forall_app. split; [done|]. constructor; [|constructor]. simpl in *. lia.
    + intros i b Hi Hlast. rewrite length_app in Hlast. simpl in Hlast.
      rewrite lookup_app_l in Hi by lia.
      rewrite Forall_forall in Hnew. apply Hnew. by eapply list_elem_of_lookup_2.
    + rewrite length_app. cbn [length]. rewrite <- Hlen. cbn [length].
      apply (Nat.div_unique _ 1000 _ (length b'')); lia.
Qed.

(** With room for every remaining row in the turns followed, the loop
    over the files ends, and the files it adds hold the remaining rows in
    order. *)
Lemma files_loop_finishes (fuel : nat) (count rpf total : Z) (c : option Z)
    (files : list (list row)) (w : W) :
  0 < rpf -> 0 <= total ->
  (Z.to_nat (count - total) < fuel)%nat ->
  exists new : list (list row),
    files_loop fuel count rpf total c files w
    = (Finished (files ++ new), (generate_rows (Z.to_nat (count - total)) total c w).2)
    /\ concat new = (generate_rows (Z.to_nat (count - total)) total c w).1
    /\ Forall (fun f => 0 < Z.of_nat (length f) <= rpf) new
    /\ (forall (i : nat) (f : list row),
          new !! i = Some f -> (S i < length new)%nat -> Z.of_nat (length f) = rpf).
Proof.
  revert total files w. induction fuel as [|fuel IH]; intros total files w Hrpf Htot Hfuel; [lia|].
  cbn [files_loop]. destruct (Z.ltb_spec total count) as [Hlt|Hge].
  - set (k := Z.min rpf (count - total)).
    assert (0 < k <= rpf /\ k <= count - total) as (Hk & Hk') by (subst k; lia).
    unfold Py.bind.
    replace (Z.to_nat (count - total))
      with (Z.to_nat k + Z.to_nat (count - (total + k)))%nat by lia.
    rewrite generate_rows_app.
    pose proof (generate_rows_length (Z.to_nat k) total c w) as Hlen.
    destruct (generate_rows (Z.to_nat k) total c w) as [rows w1]. simpl in Hlen.
    destruct (IH (total + k) (files ++ [rows]) w1 Hrpf ltac:(lia) ltac:(lia))
      as (new & Heq & Hcat & Hall & Hfull).
    rewrite Z2Nat.id by lia. rewrite Heq.
    pose proof (generate_rows_length (Z.to_nat (count - (total + k))) (total + k) c w1)
      as Hrest.
    destruct (generate_rows (Z.to_nat (count - (total + k))) (total + k) c w1) as [rest w2].
    simpl in Hcat, Hrest |- *. exists (rows :: new). rewrite <- app_assoc. simpl.
    split_and!; [done|by rewrite Hcat| |].
    + constructor; [lia|done].
    + intros [|i] f Hi Hlast; simpl in Hi, Hlast.
      * injection Hi as <-. destruct new as [|f' new']; [simpl in Hlast; lia|].
        (* a later file exists, so rows were left after this one *)
        pose proof (Forall_inv Hall) as Hf'. simpl in Hf'.
        apply (f_equal length) in Hcat. simpl in Hcat. rewrite length_app in Hcat.
        lia.
      * apply (Hfull i f Hi). lia.
  - exists []. replace (Z.to_nat (count - total)) with 0%nat by lia.
    simpl. unfold Py.ret. rewrite app_nil_r. split_and!; try done.
Qed.

(** X2. With a positive number of records per file,
    [generate_multiple_csv_files] ends; its files, put end to end, are
    the rows of the stream in order, each file holds at least one row
    and at most [records_per_file], and every file but the last holds
    exactly that many. *)
Theorem multiple_csv_files_split_the_row_stream (fuel : nat) (count rpf : Z)
    (c : option Z) (w : W) :
  0 < rpf -> (Z.to_nat count < fuel)%nat ->
  exists files : list (list row),
    generate_multiple_csv_files fuel count rpf c w
    = (Finished files, (generate_rows (Z.to_nat count) 0 c w).2)
    /\ concat files = (generate_rows (Z.to_nat count) 0 c w).1
    /\ Forall (fun f => 0 < Z.of_nat (length f) <= rpf) files
    /\ (forall (i : nat) (f : list row),
          files !! i = Some f -> (S i < length files)%nat -> Z.of_nat (length f) = rpf).
Proof.
  intros Hrpf Hfuel. unfold generate_multiple_csv_files.
  destruct (Z.eqb_spec rpf 0) as [->|_]; [lia|].
  destruct (files_loop_finishes fuel count rpf 0 c [] w Hrpf ltac:(lia))
    as (new & Heq & Hcat & Hall & Hfull); [by rewrite Z.sub_0_r|].
  rewrite Z.sub_0_r in *. exists new. by split_and!.
Qed.

Lemma files_loop_never_ends (fuel : nat) (count rpf total : Z) (c : option Z)
    (files : list (list row)) (w : W) :
  rpf < 0 -> total < count ->
  (files_loop fuel count rpf total c files w).1 = Running.
Proof.
  revert total files w. induction fuel as [|fuel IH]; intros total files w Hrpf Hlt; [done|].
  cbn [files_loop]. destruct (Z.ltb_spec total count); [|lia].
  unfold Py.bind.
  destruct (generate_rows (Z.to_nat (rpf `min` (count - total))) total c w) as [rows w1].
  apply IH; lia.
Qed.

(** X3. With zero records per file the call stops on the division in its
    opening report; with a negative number and a positive count the
    loop over the files never ends, however many turns are followed. *)
Theorem multiple_csv_files_need_a_positive_size (count rpf : Z) (c : option Z) (w : W) :
  (rpf = 0 -> forall fuel,
      (generate_multiple_csv_files fuel count rpf c w).1 = Raised "ZeroDivisionError")
  /\ (rpf < 0 -> 0 < count -> forall fuel,
      (generate_multiple_csv_files fuel count rpf c w).1 = Running).
Proof.
  split.
  - intros -> fuel. reflexivity.
  - intros Hrpf Hcount fuel. unfold generate_multiple_csv_files.
    destruct (Z.eqb_spec rpf 0); [lia|]. by apply files_loop_never_ends.
Qed.

End SinkGeneral.

(* ================================================================== *)
(** ** UserToMessage: fixed pairs, counters and ranges *)
(* ================================================================== *)

Section UserToMessageMore.
Context {W : Type} `{PyRuntimeLaws W}.
Import UserToMessage.

Lemma lor_below_pow2 (n a b : Z) :
  0 <= n -> 0 <= a < 2 ^ n -> 0 <= b < 2 ^ n -> 0 <= Z.lor a b < 2 ^ n.
Proof.
  intros Hn Ha Hb. split; [apply Z.lor_nonneg; lia|].
  destruct (Z.eq_dec (Z.lor a b) 0) as [->|Hne]; [lia|].
  apply Z.log2_lt_pow2; [pose proof (proj2 (Z.lor_nonneg a b)); lia|].
  rewrite Z.log2_lor by lia.
  destruct (Z.eq_dec a 0) as [->|Ha0], (Z.eq_dec b 0) as [->|Hb0].
  - simpl in Hne. done.
  - rewrite Z.max_r by (simpl; apply Z.log2_nonneg). apply Z.log2_lt_pow2; lia.
  - rewrite Z.max_l by (simpl; apply Z.log2_nonneg). apply Z.log2_lt_pow2; lia.
  - apply Z.max_lub_lt; apply Z.log2_lt_pow2; lia.
Qed.

Lemma flag_bit_below (n : Z) (p : Q) (bit flags : Z) (w : W) :
  0 <= n -> 0 <= bit < 2 ^ n -> 0 <= flags < 2 ^ n ->
  0 <= (flag_bit p bit flags w).1 < 2 ^ n.
Proof.
  intros Hn Hbit Hflags. unfold flag_bit, Py.bind, Py.ret.
  destruct (bernoulli p w) as [[|] w']; simpl; [|done].
  by apply lor_below_pow2.
Qed.

Lemma usertomessage_flags_below_256 (w : W) : 0 <= (generate_flags w).1 < 256.
Proof.
  unfold generate_flags, Py.bind, Py.ret.
  pose proof (flag_bit_below 8) as Hstep. change (2 ^ 8) with 256 in Hstep.
  repeat match goal with
         | |- context [let (_, _) := flag_bit ?p ?b ?f ?w in _] =>
             let Hb := fresh "Hb" in
             pose proof (Hstep p b f w ltac:(lia) ltac:(lia)) as Hb;
             destruct (flag_bit p b f w) as [? ?]; simpl in Hb;
             specialize (Hb ltac:(lia))
         end.
  simpl. lia.
Qed.

Lemma choice_in_range (lo hi : Z) (w : W) :
  lo < hi -> lo <= (choice (Range lo hi) w).1 < hi.
Proof.
  intros Hlt. unfold choice, Py.bind, Py.ret. simpl.
  pose proof (randbelow_range (Z.max 0 (hi - lo)) w ltac:(lia)) as Hr.
  destruct (randbelow (Z.max 0 (hi - lo)) w) as [i w']. simpl in *. lia.
Qed.

Lemma search_turn_in_range (g : generator W) :
  1000 <= (search_turn g).1.1 < 1000000 /\ 1000 <= (search_turn g).1.2 < 500000.
Proof.
  unfold search_turn, draw.
  pose proof (choice_in_range 1000 1000000 (env g) ltac:(lia)) as Hu.
  change (Range 1000 1000000) with users in Hu.
  destruct (choice users (env g)) as [u w1]. simpl in Hu. simpl.
  pose proof (choice_in_range 1000 500000 w1 ltac:(lia)) as Hp.
  change (Range 1000 500000) with peers in Hp.
  destruct (choice peers w1) as [p w2]. simpl in Hp. simpl. done.
Qed.

Lemma unique_key_in_range (fuel : nat) (g g' : generator W) (u p c : Z) :
  generate_unique_message_key fuel g = Some ((u, p, c), g') ->
  1000 <= u < 1000000 /\ 1000 <= p < 500000.
Proof.
  revert g. induction fuel as [|fuel IH]; intros g; [done|].
  rewrite unique_key_unfold. pose proof (search_turn_in_range g) as Hr.
  destruct (search_turn g) as [[u' p'] g1]. simpl in Hr.
  destruct (accepted g1 (u', p')); [|apply IH].
  by intros [= <- <- _ _].
Qed.

Lemma record_with_key_fields (u p cid : Z) (g : generator W) :
  let r := (record_with_key u p cid g).1 in
  user_id r = u /\ peer_id r = p /\ 0 <= flags r < 256.
Proof.
  unfold record_with_key, draw.
  pose proof (usertomessage_flags_below_256
                (env (set_counter (u, p) cid (ensure_key (u, p) g)))) as Hf.
  destruct (generate_flags (env (set_counter (u, p) cid (ensure_key (u, p) g))))
    as [fl w1]. simpl in Hf.
  by case_bool_decide.
Qed.

Lemma record_row_fields (fuel : nat) (idx : Z) (uid pid : option Z)
    (g g' : generator W) (r : row) :
  generate_record_row fuel idx uid pid g = Some (r, g') ->
  0 <= flags r < 256
  /\ match uid, pid with
     | Some u, Some p => user_id r = u /\ peer_id r = p
     | _, _ => 1000 <= user_id r < 1000000 /\ 1000 <= peer_id r < 500000
     end.
Proof.
  unfold generate_record_row.
  assert (forall u p c g1,
    generate_unique_message_key fuel g = Some ((u, p, c), g1) ->
    Some (record_with_key u p c g1) = Some (r, g') ->
    0 <= flags r < 256
    /\ 1000 <= user_id r < 1000000 /\ 1000 <= peer_id r < 500000) as Hrandom.
  { intros u p c g1 Hkey [= Hrow].
    destruct (unique_key_in_range _ _ _ _ _ _ Hkey) as [Hu Hp].
    pose proof (record_with_key_fields u p c g1) as Hfields.
    rewrite Hrow in Hfields. simpl in Hfields. destruct Hfields as (-> & -> & Hf). done. }
  destruct uid as [u|], pid as [p|];
    try (destruct (generate_unique_message_key fuel g) as [[[[u' p'] c'] g1]|] eqn:Hkey;
         [by eapply Hrandom|done]).
  destruct (get_next_chat_local_id u p g) as [cid g1].
  intros [= Hrow]. pose proof (record_with_key_fields u p cid g1) as Hfields.
  rewrite Hrow in Hfields. simpl in Hfields. destruct Hfields as (-> & -> & Hf). done.
Qed.

Lemma records_in_range (fuel n : nat) (start : Z) (uid pid : option Z)
    (g g' : generator W) (rows : list row) :
  generate_records fuel n start uid pid g = Some (rows, g') ->
  forall r, r ∈ rows ->
    0 <= flags r < 256
    /\ (uid = None \/ pid = None ->
        1000 <= user_id r < 1000000 /\ 1000 <= peer_id r < 500000).
Proof.
  revert start g rows. induction n as [|n IH]; intros start g rows; simpl.
  - intros [= <- _] r Hr. by apply elem_of_nil in Hr.
  - destruct (generate_record_row fuel start uid pid g) as [[r0 g1]|] eqn:Hrow; [|done].
    specialize (IH (start + 1) g1).
    destruct (generate_records fuel n (start + 1) uid pid g1) as [[rest g2]|]; [|done].
    intros [= <- <-] r [->|Hr]%elem_of_cons; [|by apply (IH rest eq_refl)].
    destruct (record_row_fields _ _ _ _ _ _ _ Hrow) as [Hf Hk].
    split; [done|]. intros Hmode. destruct uid, pid; destruct Hmode; done.
Qed.

(** X6. Every row written by [generate_csv_file] of
    [generate_usertomessage.py] has flags below 256 and, unless both
    ids are fixed, a user id in 1000..999999 and a peer id in
    1000..499999. *)
Theorem usertomessage_rows_in_range (fuel : nat) (s : Z) (count : nat)
    (uid pid : option Z) (w : W) (rows : list row) :
  generate_csv_file fuel s count uid pid w = Some rows ->
  forall r, r ∈ rows ->
    0 <= flags r < 256
    /\ (uid = None \/ pid = None ->
        1000 <= user_id r < 1000000 /\ 1000 <= peer_id r < 500000).
Proof.
  unfold generate_csv_file.
  destruct (generate_records fuel count 0 uid pid (new_generator s w))
    as [[rows' g']|] eqn:Hrun; [|done].
  intros [= <-]. by eapply records_in_range.
Qed.

End UserToMessageMore.

Section UserToMessageFixed.
Context {W : Type} `{PyRuntime W}.
Import UserToMessage.

Lemma fixed_records (fuel n : nat) (start u p : Z) (g : generator W) :
  consistent g ->
  exists (rows : list row) (g' : generator W),
    generate_records fuel n start (Some u) (Some p) g = Some (rows, g')
    /\ length rows = n
    /\ Forall (fun r => user_id r = u /\ peer_id r = p) rows
    /\ chat_local_id <$> rows = seqZ (counter_at (u, p) g + 1) (Z.of_nat n).
Proof.
  revert start g. induction n as [|n IH]; intros start g Hcons.
  - exists [], g. by split_and!.
  - cbn [generate_records].
    destruct (generate_record_row fuel start (Some u) (Some p) g) as [[r g1]|] eqn:Hrow;
      [|by unfold generate_record_row in Hrow; destruct (get_next_chat_local_id u p g)].
    destruct (record_row_spec _ _ _ _ _ _ _ Hcons Hrow) as (Hid & Hk & _ & Hcons1 & _).
    assert (user_id r = u /\ peer_id r = p) as [Hu Hp].
    { unfold generate_record_row in Hrow.
      destruct (get_next_chat_local_id u p g) as [cid g0]. injection Hrow as Hrow.
      unfold record_with_key in Hrow.
      destruct (draw generate_flags (set_counter (u, p) cid (ensure_key (u, p) g0)))
        as [fl g2].
      case_bool_decide; injection Hrow as <- _; done. }
    rewrite Hu, Hp in Hid, Hk.
    destruct (IH (start + 1) g1 Hcons1) as (rest & g2 & -> & Hlen & Hall & Hids).
    exists (r :: rest), g2. split_and!; [done|by simpl; rewrite Hlen|by constructor|].
    rewrite fmap_cons, Hids, Hk, Hid.
    rewrite (seqZ_cons (counter_at (u, p) g + 1) (Z.of_nat (S n))) by lia.
    f_equal. f_equal; lia.
Qed.

Lemma rows_loop_spec (fuel n : nat) (i chunk_size : Z) (uid pid : option Z)
    (g g' : generator W) (written rows : list row) :
  chunk_size <> 0 ->
  generate_records fuel n i uid pid g = Some (rows, g') ->
  UserToMessageCall.rows_loop fuel n i chunk_size uid pid g written
  = (written ++ rows, Returned, g').
Proof.
  intros Hchunk. revert i g written rows.
  induction n as [|n IH]; intros i g written rows; simpl.
  - intros [= <- <-]. by rewrite app_nil_r.
  - destruct (generate_record_row fuel i uid pid g) as [[r g1]|]; [|done].
    destruct (generate_records fuel n (i + 1) uid pid g1) as [[rest g2]|] eqn:Hrest;
      [|done].
    intros [= <- <-]. destruct (Z.eqb_spec chunk_size 0) as [|_]; [done|].
    rewrite (IH (i + 1) g1 (written ++ [r]) rest Hrest). by rewrite <- app_assoc.
Qed.

(** X7. With both ids fixed the key search is never entered: the loop of
    [generate_csv_file] writes exactly [count] rows, all with the given
    pair and the chat local ids 1, 2, ..., [count] in order. The call
    itself, with a progress interval other than 0 and a clock that has
    advanced, returns when [count] is at least 1; for [count] 0 it
    writes the header only and stops in [print_summary] on the division
    by the number of records. *)
Theorem fixed_pair_rows_count_up (fuel : nat) (s : Z) (count : nat) (u p : Z) (w : W) :
  exists rows : list row,
    generate_csv_file fuel s count (Some u) (Some p) w = Some rows
    /\ length rows = count
    /\ Forall (fun r => user_id r = u /\ peer_id r = p) rows
    /\ chat_local_id <$> rows = seqZ 1 (Z.of_nat count)
    /\ forall (chunk_size : Z) (elapsed : Q),
         chunk_size <> 0 -> ~ (elapsed == 0)%Q ->
         UserToMessageCall.generate_csv_file_call
           fuel s (Z.of_nat count) chunk_size false elapsed (Some u) (Some p) w
         = (Some rows,
            if decide (count = 0%nat) then Raises "ZeroDivisionError" else Returned).
Proof.
  unfold generate_csv_file.
  destruct (fixed_records fuel count 0 u p (new_generator s w)
              (new_generator_consistent s w)) as (rows & g' & Hrun & Hlen & Hall & Hids).
  exists rows. rewrite Hrun. split_and!; try done.
  intros chunk_size elapsed Hchunk Helapsed.
  unfold UserToMessageCall.generate_csv_file_call.
  rewrite Nat2Z.id, (rows_loop_spec _ _ _ _ _ _ _ _ [] rows Hchunk Hrun).
  cbn [app]. unfold UserToMessageCall.print_summary.
  destruct (Qeq_bool elapsed 0) eqn:Hq; [by apply Qeq_bool_eq in Hq|].
  case_decide as Hc; destruct (Z.eqb_spec (Z.of_nat count) 0); try done; lia.
Qed.

(** X8. After a run from a fresh generator the counter of every pair
    equals the number of rows written for the pair, and a pair without
    a counter has no row. *)
Theorem counters_count_the_rows (fuel : nat) (s : Z) (count : nat)
    (uid pid : option Z) (w : W) (rows : list row) (g' : generator W) :
  generate_records fuel count 0 uid pid (new_generator s w) = Some (rows, g') ->
  forall key : Z * Z,
    counter_at key g' = Z.of_nat (length (ids_of_pair key rows))
    /\ (chat_local_counter g' !! key = None -> ids_of_pair key rows = []).
Proof.
  intros Hrun key.
  destruct (generate_records_spec _ _ _ _ _ _ _ _ (new_generator_consistent s w) Hrun)
    as (_ & Hseq & _).
  destruct (Hseq key) as [Hle Hids].
  assert (counter_at key (new_generator s w) = 0) as H0 by done.
  rewrite H0 in Hle, Hids. split.
  - rewrite Hids, length_seqZ. lia.
  - intros Hnone. rewrite Hids. unfold counter_at. rewrite Hnone. done.
Qed.

End UserToMessageFixed.

Section UserToMessageMoreRuns.
Import UserToMessage Scripted.

Lemma usertomessage_rows_in_range_witness :
  exists rows : list row,
    generate_csv_file 5 42 3 None None (zeros 0) = Some rows
    /\ forall r, r ∈ rows ->
         0 <= flags r < 256
         /\ (@None Z = None \/ @None Z = None ->
             1000 <= user_id r < 1000000 /\ 1000 <= peer_id r < 500000).
Proof.
  eexists. split; [vm_compute; reflexivity|].
  apply (usertomessage_rows_in_range 5 42 3 None None (zeros 0)).
  vm_compute; reflexivity.
Defined.

Lemma counters_count_the_rows_witness :
  exists (rows : list row) (g' : generator world),
    generate_records 5 3 0 None None (new_generator 42 (zeros 0)) = Some (rows, g')
    /\ forall key : Z * Z,
         counter_at key g' = Z.of_nat (length (ids_of_pair key rows))
         /\ (chat_local_counter g' !! key = None -> ids_of_pair key rows = []).
Proof.
  eexists _, _. split; [vm_compute; reflexivity|].
  apply (counters_count_the_rows 5 42 3 None None (zeros 0)).
  vm_compute; reflexivity.
Defined.

Lemma fixed_pair_rows_count_up_witness :
  UserToMessageCall.generate_csv_file_call
    0 42 0 10000 false (1 # 2) (Some 1) (Some 2) (zeros 0)
  = (Some [], Raises "ZeroDivisionError")
  /\ exists rows : list row,
       UserToMessageCall.generate_csv_file_call
         0 42 2 10000 false (1 # 2) (Some 1) (Some 2) (zeros 0)
       = (Some rows, Returned)
       /\ chat_local_id <$> rows = [1; 2].
Proof.
  split.
  - destruct (fixed_pair_rows_count_up 0 42 0 1 2 (zeros 0))
      as (rows & _ & Hlen & _ & _ & Hcall).
    destruct rows as [|r rows]; [|discriminate Hlen].
    apply (Hcall 10000 (1 # 2)); [lia|]. unfold Qeq. simpl. lia.
  - destruct (fixed_pair_rows_count_up 0 42 2 1 2 (zeros 0))
      as (rows & _ & _ & _ & Hids & Hcall).
    exists rows. split; [|exact Hids].
    apply (Hcall 10000 (1 # 2)); [lia|]. unfold Qeq. simpl. lia.
Defined.

End UserToMessageMoreRuns.

(* ================================================================== *)
(** ** PeerIds: row counts, references and the retry window *)
(* ================================================================== *)

Section PeerIdsMore.
Context {W : Type} `{PyRuntimeLaws W}.
Import PeerIds PeerIdsShape.

Lemma randint_le (a b : Z) (w : W) : a <= b -> (randint a b w).1 <= b.
Proof.
  intros Hab. unfold randint, Py.bind, Py.ret.
  pose proof (randbelow_range (b - a + 1) w ltac:(lia)) as Hr.
  destruct (randbelow (b - a + 1) w) as [i w']. simpl in *. lia.
Qed.

Lemma resolve_collision_le (n : nat) (u ts : Z) (used : gset (Z * Z)) (w : W) :
  (resolve_collision n u ts used w).1 <= ts + 10 * Z.of_nat n.
Proof.
  revert ts w. induction n as [|n IH]; intros ts w; cbn [resolve_collision].
  - unfold Py.ret. simpl. lia.
  - destruct (bool_decide ((u, ts) ∈ used)); [|unfold Py.ret; simpl; lia].
    unfold Py.bind. pose proof (randint_le 1 10 w ltac:(lia)) as Hd.
    destruct (randint 1 10 w) as [d w']. simpl in Hd.
    specialize (IH (ts + d) w'). lia.
Qed.

Lemma choice_list_member (l : list Z) (w : W) :
  l <> [] -> exists c, (choice_list l w).1 = Some c /\ c ∈ l.
Proof.
  intros Hne. destruct l as [|x l']; [done|]. unfold choice_list, Py.bind, Py.ret.
  set (l := x :: l') in *.
  pose proof (randbelow_range (Z.of_nat (length l)) w
                ltac:(subst l; cbn [length]; lia)) as Hr.
  destruct (randbelow (Z.of_nat (length l)) w) as [i w']. cbn [fst] in *.
  exists (nth (Z.to_nat i) l 0). split; [done|].
  apply list_elem_of_In, nth_In. lia.
Qed.

Lemma generate_peerid_row_inviter (u c base : Z) (w : W) :
  let r := (generate_peerid_row u c base w).1 in
  user_id r = u /\ chat_id r = c /\ invite_timestamp r = base
  /\ 1000 <= inviter_id r < 1000000.
Proof.
  unfold generate_peerid_row, Py.bind.
  destruct (randint 0 (30 * 24 * 3600) w) as [d w1].
  destruct (bernoulli (1 # 10) w1) as [dis w2].
  destruct ((if dis then randint 0 100 else Py.ret 0) w2) as [df w3].
  destruct (generate_peer_flags w3) as [fl w4].
  pose proof (choice_in_range 1000 1000000 w4 ltac:(lia)) as Hinv.
  change (Range 1000 1000000) with user_ids in Hinv.
  destruct (choice user_ids w4) as [inv w5]. simpl in Hinv.
  destruct (randint 0 10000 w5) as [lr w6].
  destruct (randint 0 10000 w6) as [lm w7]. done.
Qed.

Lemma peerids_turn_shape (chat_ids : list Z) (used : gset (Z * Z)) (w : W) :
  match (peerids_turn chat_ids used w).1 with
  | Some (r, _, _) => peerid_row_ok chat_ids (180 * 24 * 3600 + 100) r
  | None => chat_ids = []
  end.
Proof.
  unfold peerids_turn, Py.bind.
  pose proof (choice_in_range 1000 1000000 w ltac:(lia)) as Hu.
  change (Range 1000 1000000) with user_ids in Hu.
  destruct (choice user_ids w) as [u w1]. simpl in Hu.
  destruct chat_ids as [|c0 cs]; [done|].
  destruct (choice_list_member (c0 :: cs) w1 ltac:(done)) as (c & Hc & Hin).
  destruct (choice_list (c0 :: cs) w1) as [picked w2]. simpl in Hc. subst picked.
  destruct (generate_timestamp 3 w2) as [invite_ts w3].
  pose proof (randint_ge 0 (180 * 24 * 3600) w3 ltac:(lia)) as Hd.
  pose proof (randint_le 0 (180 * 24 * 3600) w3 ltac:(lia)) as Hd'.
  destruct (randint 0 (180 * 24 * 3600) w3) as [d w4]. simpl in Hd, Hd'.
  pose proof (resolve_collision_ge 10 u (invite_ts + d) used w4) as Hts.
  pose proof (resolve_collision_le 10 u (invite_ts + d) used w4) as Hts'.
  destruct (resolve_collision 10 u (invite_ts + d) used w4) as [ts w5]. simpl in Hts, Hts'.
  pose proof (generate_peerid_row_inviter u c invite_ts w5) as (Hru & Hrc & Hri & Hinv).
  destruct (generate_peerid_row u c invite_ts w5) as [r0 w6]. simpl in *.
  unfold peerid_row_ok. simpl. rewrite Hru, Hrc, Hri. split_and!; try done; lia.
Qed.

Lemma peerids_loop_shape (n : nat) (chat_ids : list Z) (used : gset (Z * Z)) (w : W) :
  chat_ids <> [] ->
  exists trace : list (row * bool),
    (peerids_loop n chat_ids used w).1 = Some trace
    /\ length trace = n
    /\ Forall (fun x => peerid_row_ok chat_ids (180 * 24 * 3600 + 100) x.1) trace.
Proof.
  intros Hne. revert used w. induction n as [|n IH]; intros used w.
  - exists []. by split_and!.
  - cbn [peerids_loop]. unfold Py.bind.
    pose proof (peerids_turn_shape chat_ids used w) as Hturn.
    destruct (peerids_turn chat_ids used w) as [[[[r e] used']|] w1]; simpl in Hturn; [|done].
    destruct (IH used' w1) as (rest & Hrest & Hlen & Hall).
    destruct (peerids_loop n chat_ids used' w1) as [t w2]. simpl in Hrest. subst t.
    exists ((r, e) :: rest). simpl. split_and!; [done|by rewrite Hlen|by constructor].
Qed.

Lemma peerids_turn_some (chat_ids : list Z) (used : gset (Z * Z)) (w : W) :
  chat_ids <> [] ->
  exists r e used',
    (peerids_turn chat_ids used w).1 = Some (r, e, used')
    /\ peerid_row_ok chat_ids (180 * 24 * 3600 + 100) r.
Proof.
  intros Hne. pose proof (peerids_turn_shape chat_ids used w) as Hturn.
  destruct (peerids_turn chat_ids used w) as [[[[r e] used']|] w1];
    simpl in *; [|done].
  by exists r, e, used'.
Qed.

(** Every row the call writes is well formed, however the call ends. *)
Lemma call_rows_ok (n : nat) (i chunk_size : Z) (start_time : option Z)
    (chat_ids : list Z) (used : gset (Z * Z)) (written : list row) (w : W) :
  chat_ids <> [] ->
  Forall (peerid_row_ok chat_ids (180 * 24 * 3600 + 100)) written ->
  Forall (peerid_row_ok chat_ids (180 * 24 * 3600 + 100))
         (PeerIdsCall.rows_loop n i chunk_size start_time chat_ids used written w).1.1.
Proof.
  intros Hne. revert i used written w.
  induction n as [|n IH]; intros i used written w Hall; [done|].
  cbn [PeerIdsCall.rows_loop]. unfold Py.bind, Py.ret.
  destruct (peerids_turn_some chat_ids used w Hne) as (r & e & used' & Hturn & Hok).
  destruct (peerids_turn chat_ids used w) as [turn w1]. cbn [fst] in Hturn. subst turn.
  assert (Forall (peerid_row_ok chat_ids (180 * 24 * 3600 + 100)) (written ++ [r]))
    as Hall' by (apply Forall_app; split; [done|by constructor]).
  destruct (chunk_size =? 0); [done|].
  destruct ((i + 1) mod chunk_size =? 0); [|by apply IH].
  destruct start_time; [by apply IH|done].
Qed.

(** With [start_time] set, or with no index at which the report runs,
    the call writes the rows of the loop and returns. *)
Lemma call_loop_returns (n : nat) (i chunk_size : Z) (start_time : option Z)
    (chat_ids : list Z) (used : gset (Z * Z)) (written : list row) (w : W) :
  chat_ids <> [] -> chunk_size <> 0 ->
  (start_time <> None
   \/ forall j, i <= j < i + Z.of_nat n -> (j + 1) mod chunk_size <> 0) ->
  exists trace : list (row * bool),
    (peerids_loop n chat_ids used w).1 = Some trace
    /\ (PeerIdsCall.rows_loop n i chunk_size start_time chat_ids used written w).1
       = (written ++ trace.*1, Returned).
Proof.
  intros Hne Hchunk. revert i used written w.
  induction n as [|n IH]; intros i used written w Hquiet.
  - exists []. by rewrite app_nil_r.
  - cbn [PeerIdsCall.rows_loop peerids_loop]. unfold Py.bind, Py.ret.
    destruct (peerids_turn_some chat_ids used w Hne) as (r & e & used' & Hturn & _).
    destruct (peerids_turn chat_ids used w) as [turn w1]. cbn [fst] in Hturn. subst turn.
    destruct (IH (i + 1) used' (written ++ [r]) w1) as (rest & Hrest & Hcall).
    { destruct Hquiet as [Hst|Hq]; [by left|right]. intros j Hj. apply Hq. lia. }
    destruct (peerids_loop n chat_ids used' w1) as [t w2]. cbn [fst] in Hrest. subst t.
    exists ((r, e) :: rest). split; [done|].
    destruct (Z.eqb_spec chunk_size 0) as [|_]; [done|].
    rewrite <- app_assoc in Hcall.
    destruct (Z.eqb_spec ((i + 1) mod chunk_size) 0) as [Hz|_]; [|exact Hcall].
    destruct start_time as [t|]; [exact Hcall|].
    destruct Hquiet as [Hst|Hq]; [done|]. exfalso. apply (Hq i); [lia|done].
Qed.

(** With [start_time] unset the call stops at the first report. *)
Lemma call_loop_raises (n : nat) (i chunk_size : Z)
    (chat_ids : list Z) (used : gset (Z * Z)) (written : list row) (w : W) :
  chat_ids <> [] -> 0 <= i < chunk_size -> chunk_size <= i + Z.of_nat n ->
  exists new : list row,
    (PeerIdsCall.rows_loop n i chunk_size None chat_ids used written w).1
    = (written ++ new, Raises "TypeError")
    /\ Z.of_nat (length new) = chunk_size - i.
Proof.
  intros Hne. revert i used written w.
  induction n as [|n IH]; intros i used written w Hi Hn; [lia|].
  cbn [PeerIdsCall.rows_loop]. unfold Py.bind, Py.ret.
  destruct (peerids_turn_some chat_ids used w Hne) as (r & e & used' & Hturn & _).
  destruct (peerids_turn chat_ids used w) as [turn w1]. cbn [fst] in Hturn. subst turn.
  destruct (Z.eqb_spec chunk_size 0) as [|_]; [lia|].
  destruct (Z.eq_dec (i + 1) chunk_size) as [Heq|Hlt].
  - rewrite Heq, Z.mod_same by lia. cbn. exists [r]. split; [done|]. simpl. lia.
  - rewrite (Z.mod_small (i + 1) chunk_size) by lia.
    destruct (Z.eqb_spec (i + 1) 0) as [|_]; [lia|].
    destruct (IH (i + 1) used' (written ++ [r]) w1) as (new & Hcall & Hlen); [lia|lia|].
    exists (r :: new). rewrite Hcall, <- app_assoc. split; [done|]. simpl. lia.
Qed.

(** X10. Given at least one chat id and a positive progress interval,
    every row that [generate_peerids_csv] writes refers to one of the
    given chats, has user and inviter in 1000..999999, and a last
    message between the invitation and 180 days and 100 seconds after
    it. When [start_time] is set, as it is after [generate_chats_csv], or
    when [count] is below the interval, the call returns with exactly
    [count] rows. On a generator whose [start_time] is still [None] the
    call stops with a [TypeError] in its first progress report, with as
    many rows written as the interval. *)
Theorem peerids_csv_writes_count_rows_of_given_chats (count : nat)
    (chunk_size : Z) (start_time : option Z) (chat_ids : list Z) (w : W) :
  chat_ids <> [] -> 0 < chunk_size ->
  exists (rows : list row) (ended : call_end),
    (PeerIdsCall.generate_peerids_csv_call
       (Z.of_nat count) chunk_size start_time false chat_ids w).1
    = (Some rows, ended)
    /\ Forall (peerid_row_ok chat_ids (180 * 24 * 3600 + 100)) rows
    /\ (start_time <> None \/ Z.of_nat count < chunk_size ->
        ended = Returned /\ length rows = count
        /\ (generate_peerids_csv count chat_ids w).1 = Some rows)
    /\ (start_time = None -> chunk_size <= Z.of_nat count ->
        ended = Raises "TypeError" /\ Z.of_nat (length rows) = chunk_size).
Proof.
  intros Hne Hchunk.
  unfold PeerIdsCall.generate_peerids_csv_call, Py.bind, Py.ret. rewrite Nat2Z.id.
  pose proof (call_rows_ok count 0 chunk_size start_time chat_ids ∅ [] w Hne
                ltac:(constructor)) as Hok.
  pose proof (call_loop_returns count 0 chunk_size start_time chat_ids ∅ [] w Hne
                ltac:(lia)) as Hret.
  pose proof (call_loop_raises count 0 chunk_size chat_ids ∅ [] w Hne ltac:(lia))
    as Hraise.
  destruct (PeerIdsCall.rows_loop count 0 chunk_size start_time chat_ids ∅ [] w)
    as [[rows ended] w1] eqn:Hcall.
  cbn [fst] in *. exists rows, ended. split_and!; [done|done| |].
  - intros Hquiet. destruct Hret as (trace & Hloop & Heq).
    { destruct Hquiet as [Hst|Hlt]; [by left|right].
      intros j Hj. rewrite Z.mod_small by lia. lia. }
    cbn [app] in Heq. injection Heq as -> ->.
    pose proof (peerids_loop_shape count chat_ids ∅ w Hne) as (trace' & Hloop' & Hlen & _).
    rewrite Hloop in Hloop'. injection Hloop' as <-.
    split_and!; [done|by rewrite length_fmap|].
    unfold generate_peerids_csv, Py.bind.
    destruct (peerids_loop count chat_ids ∅ w) as [t w2]. cbn [fst] in Hloop. by subst t.
  - intros -> Hle. destruct (Hraise ltac:(lia)) as (new & Heq & Hlen).
    rewrite Hcall in Heq. cbn [fst app] in Heq. injection Heq as -> ->.
    split; [done|lia].
Qed.


Lemma chat_users_loop_shape (chat_ids : list Z) (n : nat) (count total chat base : Z)
    (buffer : list row) (written : list (list row)) (w : W) :
  chat ∈ chat_ids ->
  optimized_state_ok chat_ids count (total, buffer, written) ->
  optimized_state_ok chat_ids count
    (chat_users_loop n count total chat base buffer written w).1.
Proof.
  intros Hchat. revert total buffer written w.
  induction n as [|n IH]; intros total buffer written w Hok; cbn [chat_users_loop]; [done|].
  destruct (Z.leb_spec count total) as [Hfull|Hroom]; [done|]. unfold Py.bind.
  pose proof (choice_in_range 1000 1000000 w ltac:(lia)) as Hu.
  change (Range 1000 1000000) with user_ids in Hu.
  destruct (choice user_ids w) as [u w1]. simpl in Hu.
  destruct (randint 0 (7 * 24 * 3600) w1) as [d w2].
  pose proof (randint_ge 0 (180 * 24 * 3600) w2 ltac:(lia)) as Hd.
  pose proof (randint_le 0 (180 * 24 * 3600) w2 ltac:(lia)) as Hd'.
  destruct (randint 0 (180 * 24 * 3600) w2) as [d' w3]. simpl in Hd, Hd'.
  pose proof (generate_peerid_row_inviter u chat (base + d) w3) as (Hru & Hrc & Hri & Hinv).
  destruct (generate_peerid_row u chat (base + d) w3) as [r w4]. simpl in Hru, Hrc, Hri, Hinv.
  cbv zeta.
  set (r' := set_last_message_ts r (base + d + d')).
  assert (optimized_state_ok chat_ids count (total + 1, buffer ++ [r'], written)) as Hok'.
  { destruct Hok as (Hall & Htot & _). unfold optimized_state_ok in *. simpl in *.
    rewrite app_assoc. split_and!; [|rewrite length_app; simpl; lia|lia].
    apply Forall_app. split; [done|]. constructor; [|constructor].
    unfold peerid_row_ok. subst r'. simpl. rewrite Hru, Hrc, Hri.
    split_and!; try done; lia. }
  destruct (1000 <=? Z.of_nat (length (buffer ++ [r']))); apply IH; [|done].
  destruct Hok' as (Hall & Htot & Hle). unfold optimized_state_ok in *. simpl in *.
  rewrite concat_app, app_nil_r. simpl. rewrite app_nil_r. done.
Qed.

Lemma chats_loop_shape (chat_ids chats : list Z) (chat_idx n_chats rpc count total : Z)
    (buffer : list row) (written : list (list row)) (w : W) :
  chats ⊆ chat_ids ->
  optimized_state_ok chat_ids count (total, buffer, written) ->
  optimized_state_ok chat_ids count
    (chats_loop chats chat_idx n_chats rpc count total buffer written w).1.
Proof.
  revert chat_idx total buffer written w.
  induction chats as [|chat rest IH]; intros chat_idx total buffer written w Hsub Hok;
    cbn [chats_loop]; [done|].
  destruct (count <=? total); [done|]. unfold Py.bind.
  destruct ((if chat_idx <? n_chats - 1 then randint 1 (rpc * 2)
             else Py.ret (rpc `min` (count - total))) w) as [users_in_chat w1].
  destruct (generate_timestamp 3 w1) as [base w2].
  pose proof (chat_users_loop_shape chat_ids (Z.to_nat users_in_chat) count total chat base
                buffer written w2) as Hin.
  destruct (chat_users_loop (Z.to_nat users_in_chat) count total chat base
              buffer written w2) as [[[total' buffer'] written'] w3].
  simpl in Hin. apply IH.
  - intros x Hx. apply Hsub. by apply elem_of_cons; right.
  - apply Hin; [|done]. apply Hsub. by apply elem_of_cons; left.
Qed.

(** X12. [generate_optimized_peerids] never writes more than [count] rows,
    and each row refers to one of the given chats, has user and inviter
    in 1000..999999, and a last message at most 180 days after the
    invitation. *)
Theorem optimized_peerids_stay_within_count (count : Z) (chat_ids : list Z)
    (w : W) (rows : list row) :
  0 <= count ->
  (generate_optimized_peerids count chat_ids w).1 = Some rows ->
  Z.of_nat (length rows) <= count
  /\ forall r, r ∈ rows ->
       chat_id r ∈ chat_ids
       /\ 1000 <= user_id r < 1000000
       /\ 1000 <= inviter_id r < 1000000
       /\ invite_timestamp r <= last_message_ts r
          <= invite_timestamp r + 180 * 24 * 3600.
Proof.
  intros Hcount. unfold generate_optimized_peerids.
  destruct chat_ids as [|c0 cs]; [done|]. unfold Py.bind.
  pose proof (chats_loop_shape (c0 :: cs) (c0 :: cs) 0 (Z.of_nat (length (c0 :: cs)))
                (1 `max` (count `div` Z.of_nat (length (c0 :: cs)))) count 0 [] [] w
                ltac:(done)) as Hinv.
  destruct (chats_loop (c0 :: cs) 0 (Z.of_nat (length (c0 :: cs)))
              (1 `max` (count `div` Z.of_nat (length (c0 :: cs)))) count 0 [] [] w)
    as [[[total buffer] written] w'].
  simpl. intros [= <-].
  destruct Hinv as (Hall & Htot & Hle); [by split_and!; [constructor|done|done]|].
  simpl in *. split; [lia|].
  intros r Hr. rewrite Forall_forall in Hall. apply (Hall r Hr).
Qed.

(** The counter of the retry loop: at most the attempts allowed, and
    all of them when the loop ends on a used pair. *)
Lemma resolve_attempts_spec (n : nat) (u ts : Z) (used : gset (Z * Z)) (w : W) :
  let res := (PeerIdsRetry.resolve_collision_attempts n u ts used w).1 in
  (res.2 <= n)%nat /\ ((u, res.1) ∈ used -> res.2 = n).
Proof.
  revert ts w. induction n as [|n IH]; intros ts w; simpl; [done|].
  case_bool_decide as Hin; [|by split; [simpl; lia|]].
  unfold Py.bind, Py.ret. destruct (randint 1 10 w) as [d w1].
  specialize (IH (ts + d) w1).
  destruct (PeerIdsRetry.resolve_collision_attempts n u (ts + d) used w1)
    as [[ts' k] w2].
  simpl in *. destruct IH as [Hle Hall]. split; [lia|]. intros Hused. by rewrite Hall.
Qed.

(** The counted loop ends on the timestamp of [resolve_collision], in
    the same state. *)
Lemma resolve_attempts_agree (n : nat) (u ts : Z) (used : gset (Z * Z)) (w : W) :
  (PeerIdsRetry.resolve_collision_attempts n u ts used w).1.1
  = (resolve_collision n u ts used w).1
  /\ (PeerIdsRetry.resolve_collision_attempts n u ts used w).2
     = (resolve_collision n u ts used w).2.
Proof.
  revert ts w. induction n as [|n IH]; intros ts w; simpl; [done|].
  case_bool_decide; [|done].
  unfold Py.bind, Py.ret. destruct (randint 1 10 w) as [d w1].
  specialize (IH (ts + d) w1).
  destruct (PeerIdsRetry.resolve_collision_attempts n u (ts + d) used w1)
    as [[ts' k] w2].
  by destruct (resolve_collision n u (ts + d) used w1).
Qed.

Lemma peerids_turn_counted_agrees (chat_ids : list Z) (used : gset (Z * Z)) (w : W) :
  (PeerIdsRetry.peerids_turn_counted chat_ids used w).2 = (peerids_turn chat_ids used w).2
  /\ option_map (fun x => (x.1.1, x.2))
       (PeerIdsRetry.peerids_turn_counted chat_ids used w).1
     = option_map (fun x => (x.1.1, x.2)) (peerids_turn chat_ids used w).1.
Proof.
  unfold PeerIdsRetry.peerids_turn_counted, peerids_turn, Py.bind, Py.ret.
  destruct (choice user_ids w) as [u w1].
  destruct (choice_list chat_ids w1) as [[c|] w2]; [|done].
  destruct (generate_timestamp 3 w2) as [invite_ts w3].
  destruct (randint 0 (180 * 24 * 3600) w3) as [d w4].
  destruct (resolve_attempts_agree 10 u (invite_ts + d) used w4) as [Hts Hw].
  destruct (PeerIdsRetry.resolve_collision_attempts 10 u (invite_ts + d) used w4)
    as [[ts k] w5].
  destruct (resolve_collision 10 u (invite_ts + d) used w4) as [ts' w5'].
  cbn [fst snd] in Hts, Hw. subst ts' w5'.
  by destruct (generate_peerid_row u c invite_ts w5) as [r0 w6].
Qed.

Lemma peerids_turn_counted_spec (chat_ids : list Z) (used used' : gset (Z * Z))
    (w : W) (r : row) (k : nat) :
  (PeerIdsRetry.peerids_turn_counted chat_ids used w).1 = Some (r, k, used') ->
  used' = {[ ts_key r ]} ∪ used
  /\ (k <= 10)%nat
  /\ (ts_key r ∈ used -> k = 10%nat).
Proof.
  unfold PeerIdsRetry.peerids_turn_counted, Py.bind, Py.ret.
  destruct (choice user_ids w) as [u w1].
  destruct (choice_list chat_ids w1) as [[c|] w2]; [|done].
  destruct (generate_timestamp 3 w2) as [invite_ts w3].
  destruct (randint 0 (180 * 24 * 3600) w3) as [d w4].
  pose proof (resolve_attempts_spec 10 u (invite_ts + d) used w4) as Hres.
  destruct (PeerIdsRetry.resolve_collision_attempts 10 u (invite_ts + d) used w4)
    as [[ts k'] w5].
  cbn [fst snd] in Hres. destruct Hres as [Hle Hall].
  pose proof (generate_peerid_row_fields u c invite_ts w5) as (Hu & _ & _).
  destruct (generate_peerid_row u c invite_ts w5) as [r0 w6]. cbn [fst] in *.
  intros [= <- <- <-]. unfold ts_key. simpl. rewrite Hu. done.
Qed.

Lemma peerids_loop_counted_rows (n : nat) (chat_ids : list Z)
    (used : gset (Z * Z)) (w : W) :
  option_map (List.map fst) (PeerIdsRetry.peerids_loop_counted n chat_ids used w).1
  = option_map (List.map fst) (peerids_loop n chat_ids used w).1.
Proof.
  revert used w. induction n as [|n IH]; intros used w; [done|].
  cbn [PeerIdsRetry.peerids_loop_counted peerids_loop]. unfold Py.bind, Py.ret.
  destruct (peerids_turn_counted_agrees chat_ids used w) as [Hw Hturn].
  destruct (PeerIdsRetry.peerids_turn_counted chat_ids used w) as [[[[r k] u1]|] w1],
    (peerids_turn chat_ids used w) as [[[[r' e] u1']|] w1'];
    cbn [fst snd option_map] in Hw, Hturn; try done.
  injection Hturn as <- <-. subst w1'. specialize (IH u1 w1).
  destruct (PeerIdsRetry.peerids_loop_counted n chat_ids u1 w1) as [[t|] w2],
    (peerids_loop n chat_ids u1 w1) as [[t'|] w2']; cbn in *; try done.
  by injection IH as ->.
Qed.

Lemma peerids_loop_counted_spec (n : nat) (chat_ids : list Z) (used : gset (Z * Z))
    (w : W) (trace : list (row * nat)) :
  (PeerIdsRetry.peerids_loop_counted n chat_ids used w).1 = Some trace ->
  Forall (fun x => (x.2 <= 10)%nat) trace
  /\ (forall (i : nat) (r : row) (k : nat),
        trace !! i = Some (r, k) ->
        ts_key r ∈ used \/ ts_key r ∈ ts_key <$> take i trace.*1 ->
        k = 10%nat)
  /\ (Forall (fun x => (x.2 < 10)%nat) trace ->
      NoDup (ts_key <$> trace.*1)
      /\ forall key, key ∈ ts_key <$> trace.*1 -> key ∉ used).
Proof.
  revert used w trace. induction n as [|n IH]; intros used w trace.
  - intros [= <-]. split_and!; [constructor|done|].
    intros _. split; [constructor|]. intros key Hk. by apply elem_of_nil in Hk.
  - cbn [PeerIdsRetry.peerids_loop_counted]. unfold Py.bind, Py.ret.
    pose proof (fun used' r k => peerids_turn_counted_spec chat_ids used used' w r k)
      as Hturn.
    destruct (PeerIdsRetry.peerids_turn_counted chat_ids used w)
      as [[[[r0 k0] used']|] w1]; [|done].
    destruct (Hturn used' r0 k0 eq_refl) as (-> & Hle & Hten).
    specialize (IH ({[ ts_key r0 ]} ∪ used) w1).
    destruct (PeerIdsRetry.peerids_loop_counted n chat_ids ({[ ts_key r0 ]} ∪ used) w1)
      as [[rest|] w2]; [|done].
    cbn [fst fmap option_fmap option_map]. intros [= <-].
    destruct (IH rest eq_refl) as (Hrest & Hrep & Huniq).
    split_and!.
    + by constructor.
    + intros [|i] r k Hi Hin; simpl in Hi.
      * injection Hi as <- <-. apply Hten. destruct Hin as [Hin|Hin]; [done|].
        by apply elem_of_nil in Hin.
      * apply (Hrep i r k Hi). destruct Hin as [Hin|Hin].
        -- left. apply elem_of_union. by right.
        -- cbn [fmap list_fmap take] in Hin. apply elem_of_cons in Hin as [->|Hin].
           ++ left. apply elem_of_union. left. by apply elem_of_singleton.
           ++ by right.
    + intros Hall. inversion Hall as [|x l Hk0 Hall']; subst. simpl in Hk0.
      destruct (Huniq Hall') as [Hnd Hout]. split.
      * cbn [fmap list_fmap]. constructor; [|done]. intros Hin%Hout. apply Hin.
        apply elem_of_union. left. by apply elem_of_singleton.
      * intros key Hk. cbn [fmap list_fmap] in Hk.
        apply elem_of_cons in Hk as [->|Hk].
        -- intros Hused. apply Hten in Hused. lia.
        -- apply Hout in Hk. intros Hused. apply Hk. apply elem_of_union. by right.
Qed.

(** X9. In [generate_peerids_csv] a row takes the key of an earlier row
    only after its retry loop has made all ten attempts: the loop stops
    earlier only on a pair that is not in [used_pairs]. So the keys of a
    file are pairwise different whenever every row made fewer than ten
    attempts. *)
Theorem repeated_key_needs_ten_attempts (count : nat) (chat_ids : list Z) (w : W)
    (trace : list (row * nat)) :
  (PeerIdsRetry.peerids_loop_counted count chat_ids ∅ w).1 = Some trace ->
  (generate_peerids_csv count chat_ids w).1 = Some trace.*1
  /\ Forall (fun x => (x.2 <= 10)%nat) trace
  /\ (forall (i : nat) (r : row) (k : nat),
        trace !! i = Some (r, k) ->
        ts_key r ∈ ts_key <$> take i trace.*1 ->
        k = 10%nat)
  /\ (Forall (fun x => (x.2 < 10)%nat) trace -> NoDup (ts_key <$> trace.*1)).
Proof.
  intros Hrun.
  destruct (peerids_loop_counted_spec count chat_ids ∅ w trace Hrun)
    as (Hle & Hrep & Huniq).
  split_and!; [|done| |].
  - unfold generate_peerids_csv, Py.bind, Py.ret.
    pose proof (peerids_loop_counted_rows count chat_ids ∅ w) as Hrows.
    rewrite Hrun in Hrows. cbn [option_map] in Hrows.
    destruct (peerids_loop count chat_ids ∅ w) as [[t|] w1];
      cbn [fst option_map] in *; [|done].
    injection Hrows as Hrows. by rewrite <- Hrows.
  - intros i r k Hi Hin. apply (Hrep i r k Hi). by right.
  - intros Hall. by destruct (Huniq Hall).
Qed.

End PeerIdsMore.

Section PeerIdsMoreRuns.
Import PeerIds Scripted Scenario.

Lemma repeated_key_needs_ten_attempts_witness :
  let trace :=
    default [] (PeerIdsRetry.peerids_loop_counted 3 [1000] ∅ (zeros monday)).1 in
  trace.*2 = [0; 1; 2]%nat
  /\ (generate_peerids_csv 3 [1000] (zeros monday)).1 = Some trace.*1
  /\ NoDup (ts_key <$> trace.*1).
Proof.
  cbv zeta.
  assert ((PeerIdsRetry.peerids_loop_counted 3 [1000] ∅ (zeros monday)).1
          = Some (default []
                    (PeerIdsRetry.peerids_loop_counted 3 [1000] ∅ (zeros monday)).1))
    as Hrun by (vm_compute; reflexivity).
  destruct (repeated_key_needs_ten_attempts 3 [1000] (zeros monday) _ Hrun)
    as (Hrows & _ & _ & Hnd).
  split; [vm_compute; reflexivity|]. split; [exact Hrows|]. apply Hnd.
  apply (bool_decide_unpack _). vm_compute. exact I.
Defined.

Lemma peerids_csv_writes_count_rows_of_given_chats_witness :
  exists (rows : list row) (ended : call_end),
    (PeerIdsCall.generate_peerids_csv_call
       (Z.of_nat 3) 2 None false [1000; 1001] (zeros monday)).1
    = (Some rows, ended)
    /\ ended = Raises "TypeError" /\ Z.of_nat (length rows) = 2.
Proof.
  destruct (peerids_csv_writes_count_rows_of_given_chats 3 2 None [1000; 1001]
              (zeros monday)) as (rows & ended & Hcall & _ & _ & Hraise);
    [discriminate|lia|].
  exists rows, ended. split; [exact Hcall|]. apply Hraise; [reflexivity|lia].
Defined.

Lemma optimized_peerids_stay_within_count_witness :
  exists rows : list row,
    (generate_optimized_peerids 2 [1000] (zeros monday)).1 = Some rows
    /\ Z.of_nat (length rows) <= 2.
Proof.
  eexists. split; [vm_compute; reflexivity|].
  apply (optimized_peerids_stay_within_count 2 [1000] (zeros monday)); [lia|].
  vm_compute; reflexivity.
Defined.

End PeerIdsMoreRuns.

(* ================================================================== *)
(** ** Facts about strings *)
(* ================================================================== *)

Section StringFacts.
Import PyStr SqlWriter.

Lemma append_cons (x : ascii) (a b : string) :
  String x a +:+ b = String x (a +:+ b).
Proof. reflexivity. Qed.

Lemma append_nil_l (b : string) : "" +:+ b = b.
Proof. reflexivity. Qed.

Lemma append_assoc (a b c : string) : (a +:+ b) +:+ c = a +:+ (b +:+ c).
Proof.
  induction a as [|x a IH]; [done|]. by rewrite !append_cons, IH.
Qed.

Lemma append_nil_r (a : string) : a +:+ "" = a.
Proof. induction a as [|x a IH]; [done|]. by rewrite append_cons, IH. Qed.

Lemma all_chars_app (p : ascii -> bool) (a b : string) :
  all_chars p (a +:+ b) = all_chars p a && all_chars p b.
Proof.
  induction a as [|x a IH]; [done|].
  rewrite append_cons. simpl. by rewrite IH, andb_assoc.
Qed.

Lemma all_chars_impl (p q : ascii -> bool) (s : string) :
  (forall c, p c = true -> q c = true) ->
  all_chars p s = true -> all_chars q s = true.
Proof.
  intros Hpq. induction s as [|x s IH]; simpl; [done|].
  intros [Hx Hs]%andb_prop. by rewrite (Hpq x Hx), IH.
Qed.

Lemma all_chars_not_contains (p : ascii -> bool) (c : ascii) (s : string) :
  p c = false -> all_chars p s = true -> contains c s = false.
Proof.
  intros Hc. induction s as [|x s IH]; simpl; [done|].
  intros [Hx Hs]%andb_prop. rewrite (IH Hs), orb_false_r.
  destruct (ascii_eqb x c) eqn:Hxc; [|done].
  apply Ascii.eqb_eq in Hxc. congruence.
Qed.

Lemma pretty_N_char_numeric (x : N) : numeric_char (pretty_N_char x) = true.
Proof. unfold pretty_N_char. by repeat case_match. Qed.

Lemma pretty_N_go_numeric (x : N) (s : string) :
  all_chars numeric_char s = true ->
  all_chars numeric_char (pretty_N_go x s) = true.
Proof.
  revert s. induction (N.lt_wf_0 x) as [x _ IH]; intros s Hs.
  assert (x = 0 \/ 0 < x)%N as [->|Hpos] by lia; [by rewrite pretty_N_go_0|].
  rewrite pretty_N_go_step by done. apply IH; [by apply N.div_lt|].
  simpl. by rewrite pretty_N_char_numeric, Hs.
Qed.

Lemma pretty_N_go_nonempty (x : N) (s : string) :
  s <> "" -> pretty_N_go x s <> "".
Proof.
  revert s. induction (N.lt_wf_0 x) as [x _ IH]; intros s Hs.
  assert (x = 0 \/ 0 < x)%N as [->|Hpos] by lia; [by rewrite pretty_N_go_0|].
  rewrite pretty_N_go_step by done. apply IH; [by apply N.div_lt|done].
Qed.

Lemma pretty_N_numeric (x : N) :
  all_chars numeric_char (pretty x) = true /\ pretty x <> "".
Proof.
  unfold pretty, pretty_N. case_decide; [done|]. split.
  - by apply pretty_N_go_numeric.
  - assert (0 < x)%N as Hpos by lia. rewrite pretty_N_go_step by done.
    by apply pretty_N_go_nonempty.
Qed.

Lemma str_of_int_numeric (n : Z) :
  all_chars numeric_char (str_of_int n) = true /\ str_of_int n <> "".
Proof.
  unfold str_of_int, pretty, pretty_Z. destruct n as [|p|p]; [done| |].
  - apply (pretty_N_numeric (Npos p)).
  - destruct (pretty_N_numeric (Npos p)) as [Hall Hne]. split; [|done].
    change (pretty p) with (pretty (N.pos p)). simpl. exact Hall.
Qed.

Lemma numeric_char_spec (c : ascii) :
  numeric_char c = true ->
  bare_char c = true /\ body_char c = true /\ is_space c = false
  /\ upper_char c = c /\ ascii_eqb c dquote = false
  /\ ascii_eqb c newline = false /\ ascii_eqb c "T"%char = false
  /\ ascii_eqb c "F"%char = false /\ ascii_eqb c "N"%char = false.
Proof.
  destruct c as [[] [] [] [] [] [] [] []]; (discriminate || (intros _; by vm_compute)).
Qed.

Lemma list_char_spec (c : ascii) :
  list_char c = true ->
  body_char c = true /\ ascii_eqb c dquote = false /\ ascii_eqb c newline = false.
Proof.
  destruct c as [[] [] [] [] [] [] [] []]; (discriminate || (intros _; by vm_compute)).
Qed.

Lemma all_chars_join (p : ascii -> bool) (sep : string) (parts : list string) :
  all_chars p sep = true ->
  Forall (fun s => all_chars p s = true) parts ->
  all_chars p (join sep parts) = true.
Proof.
  intros Hsep. induction 1 as [|s [|s' rest] Hs Hrest IH]; [done|done|].
  change (all_chars p (s +:+ sep +:+ join sep (s' :: rest)) = true).
  by rewrite !all_chars_app, Hs, Hsep, IH.
Qed.

Lemma list_body_chars (ids : list Z) :
  all_chars list_char (join ", " (str_of_int <$> ids)) = true.
Proof.
  apply all_chars_join; [done|]. apply Forall_fmap, Forall_forall. intros n _. simpl.
  apply (all_chars_impl numeric_char); [|apply str_of_int_numeric].
  intros c Hc. unfold list_char. by rewrite Hc.
Qed.

Lemma is_space_spec (c : ascii) :
  is_space c = true ->
  bare_char c = true /\ body_char c = true.
Proof.
  destruct c as [[] [] [] [] [] [] [] []]; (discriminate || (intros _; by vm_compute)).
Qed.

End StringFacts.

(* ================================================================== *)
(** ** The three copies of the encoder *)
(* ================================================================== *)

Section EncoderVariantFacts.
Import PyStr Encoder EncoderVariants.

Lemma replace_char_absent (c : ascii) (new s : string) :
  contains c s = false -> replace_char c new s = s.
Proof.
  induction s as [|a rest IH]; simpl; [done|].
  intros [Ha Hrest]%orb_false_elim. rewrite Ha. by rewrite IH.
Qed.

Lemma contains_app (c : ascii) (s t : string) :
  contains c (s +:+ t) = contains c s || contains c t.
Proof.
  induction s as [|a rest IH]; [done|].
  rewrite append_cons. simpl. by rewrite IH, orb_assoc.
Qed.

Lemma contains_replace_other (c d : ascii) (new s : string) :
  ascii_eqb d c = false -> contains c new = false ->
  contains c (replace_char d new s) = contains c s.
Proof.
  intros Hdc Hnew. induction s as [|a rest IH]; simpl; [done|].
  destruct (ascii_eqb a d) eqn:Had.
  - apply Ascii.eqb_eq in Had. subst a. rewrite contains_app, Hnew, IH, Hdc. done.
  - simpl. by rewrite IH.
Qed.

Lemma contains_replace_self (c : ascii) (s : string) :
  contains c (replace_char c (chr c +:+ chr c) s) = contains c s.
Proof.
  induction s as [|a rest IH]; simpl; [done|].
  destruct (ascii_eqb a c) eqn:Hac; simpl.
  - unfold ascii_eqb. by rewrite Ascii.eqb_refl.
  - by rewrite Hac, IH.
Qed.

(** X16. The three copies of [escape_csv_value] compared, on texts of
    ASCII and Cyrillic characters ([plain_text]: there [strip] is all of
    [str.strip]). On every string the copy of
    [generator_chats_peerids.py] equals the copy of
    [generate_usertomessage.py]; on a plain string the copy of
    [dsbulk_generate.py] equals them unless the string reads as a JSON
    object, and then it wraps in quotes a text the others return bare;
    on any value with a plain text the first two differ from it in that
    case only; and a list of two or more ids is quoted by
    [dsbulk_generate.py] and returned bare by
    [generator_chats_peerids.py]. *)
Theorem encoder_copies_agree_but_for_json_and_lists :
  (forall s : string,
      escape_csv_value_chats (VStr s) = escape_csv_value_usertomessage (VStr s))
  /\ (forall s : string,
      SqlWriter.plain_text s = true ->
      json_shaped s = false ->
      escape_csv_value (VStr s) = escape_csv_value_usertomessage (VStr s))
  /\ (forall s : string,
      SqlWriter.plain_text s = true ->
      json_shaped s = true -> has_special s = false ->
      escape_csv_value (VStr s) = chr dquote +:+ s +:+ chr dquote
      /\ escape_csv_value_usertomessage (VStr s) = s)
  /\ (forall v : value,
      SqlWriter.plain_value v = true ->
      escape_csv_value v = escape_csv_value_usertomessage v
      \/ exists s, v = VStr s /\ json_shaped s = true)
  /\ (forall x y : Z, forall l : list Z,
      escape_csv_value (VList (x :: y :: l))
      = chr dquote +:+ escape_csv_value_chats (VList (x :: y :: l)) +:+ chr dquote).
Proof.
  split_and!.
  - intros s. unfold escape_csv_value_chats, escape_csv_value_usertomessage, has_special, quoted.
    destruct (contains dquote s) eqn:Hq.
    + rewrite contains_replace_self, Hq, !orb_true_r. done.
    + by rewrite (replace_char_absent dquote _ s Hq), Hq.
  - intros s _ Hj. unfold escape_csv_value, escape_csv_value_usertomessage.
    unfold json_shaped in Hj. by rewrite Hj.
  - intros s _ Hj Hs. unfold escape_csv_value, escape_csv_value_usertomessage.
    unfold json_shaped in Hj. rewrite Hj, Hs. split; [|done].
    unfold quoted. rewrite replace_char_absent; [done|].
    unfold has_special in Hs. by destruct (contains comma s), (contains newline s), (contains dquote s).
  - intros [| b | n | s | l] _; try (by left).
    destruct (json_shaped s) eqn:Hj; [right; by exists s|left].
    unfold escape_csv_value, escape_csv_value_usertomessage.
    unfold json_shaped in Hj. by rewrite Hj.
  - intros x y l. unfold escape_csv_value, escape_csv_value_chats.
    assert (contains comma (str_of_list (x :: y :: l)) = true) as Hc.
    { unfold str_of_list. simpl. rewrite !contains_app. simpl.
      by rewrite !orb_true_r. }
    assert (contains dquote (str_of_list (x :: y :: l)) = false) as Hq.
    { unfold str_of_list. rewrite !contains_app.
      rewrite (all_chars_not_contains SqlWriter.list_char dquote _ eq_refl
                 (list_body_chars (x :: y :: l))). done. }
    rewrite Hc, Hq. simpl. unfold quoted. rewrite replace_char_absent by done. done.
Qed.

End EncoderVariantFacts.

(* ================================================================== *)
(** ** The tokenizer on well-formed value tuples *)
(* ================================================================== *)

Section TokenizerFacts.
Import PyStr SqlParser SqlWriter.

Lemma bare_char_spec (c : ascii) :
  bare_char c = true ->
  ascii_eqb c squote = false /\ ascii_eqb c backslash = false
  /\ ascii_eqb c lbracket = false /\ ascii_eqb c comma = false.
Proof.
  unfold bare_char.
  destruct (ascii_eqb c squote), (ascii_eqb c backslash),
    (ascii_eqb c lbracket), (ascii_eqb c comma); done.
Qed.

Lemma body_char_spec (c : ascii) :
  body_char c = true ->
  ascii_eqb c squote = false /\ ascii_eqb c backslash = false
  /\ ascii_eqb c lbracket = false /\ ascii_eqb c rbracket = false.
Proof.
  unfold body_char.
  destruct (ascii_eqb c squote), (ascii_eqb c backslash),
    (ascii_eqb c lbracket), (ascii_eqb c rbracket); done.
Qed.

(** A run of bare characters outside any literal goes to the token. *)
Lemma scan_bare (s rest : string) (vs : list string) (cur : string) :
  all_chars bare_char s = true ->
  scan (s +:+ rest) (idle vs cur) = scan rest (idle vs (cur +:+ s)).
Proof.
  revert cur. induction s as [|a s IH]; intros cur Hs.
  - by rewrite append_nil_l, append_nil_r.
  - simpl in Hs. apply andb_prop in Hs as [Ha Hs].
    destruct (bare_char_spec a Ha) as (Hq & Hb & Hl & Hc).
    rewrite append_cons. cbn [scan]. unfold idle at 1. cbn.
    rewrite Hb, Hq, Hl, Hc. cbn. unfold push_char. cbn.
    destruct (ascii_eqb a rbracket); cbn;
      (etrans; [apply (IH (cur +:+ chr a) Hs)|]);
      by rewrite append_assoc.
Qed.

(** The content of a quoted string, up to and including the closing
    quote. *)
Lemma scan_quoted_body (s rest : string) (vs : list string) (cur : string) :
  contains backslash s = false -> startswith squote rest = false ->
  scan (escape_quotes s +:+ String squote rest) (quoting vs cur)
  = scan rest (idle vs (cur +:+ s)).
Proof.
  intros Hs Hrest. revert cur Hs. induction s as [|a s IH]; intros cur Hs.
  - unfold escape_quotes. cbn [replace_char]. rewrite append_nil_l, append_nil_r.
    cbn [scan]. unfold quoting at 1. cbn.
    destruct rest as [|next rest']; [done|]. cbn in Hrest. rewrite Hrest. done.
  - cbn in Hs. apply orb_false_elim in Hs as [Hb Hs].
    unfold escape_quotes. cbn [replace_char]. fold (escape_quotes s).
    destruct (ascii_eqb a squote) eqn:Hq.
    + apply Ascii.eqb_eq in Hq. subst a.
      change (chr squote +:+ chr squote) with (String squote (String squote "")).
      rewrite !append_cons, append_nil_l. cbn [scan]. unfold quoting at 1. cbn.
      unfold push_char. cbn.
      etrans; [apply (IH (cur +:+ chr squote) Hs)|]. by rewrite append_assoc.
    + rewrite append_cons. cbn [scan]. unfold quoting at 1. cbn.
      rewrite Hb, Hq. cbn. unfold push_char. cbn.
      destruct (ascii_eqb a lbracket), (ascii_eqb a rbracket), (ascii_eqb a comma); cbn;
        (etrans; [apply (IH (cur +:+ chr a) Hs)|]);
        by rewrite append_assoc.
Qed.

(** The body of a list, up to and including the closing bracket. *)
Lemma scan_list_body (body rest : string) (vs : list string) (cur : string) :
  all_chars body_char body = true ->
  scan (body +:+ String rbracket rest) (listing vs cur)
  = scan rest (idle vs (cur +:+ body +:+ chr rbracket)).
Proof.
  revert cur. induction body as [|a body IH]; intros cur Hs.
  - rewrite !append_nil_l. cbn [scan]. unfold listing at 1. cbn. done.
  - simpl in Hs. apply andb_prop in Hs as [Ha Hs].
    destruct (body_char_spec a Ha) as (Hq & Hb & Hl & Hr).
    rewrite append_cons. cbn [scan]. unfold listing at 1. cbn.
    rewrite Hb, Hq, Hl, Hr. cbn. unfold push_char. cbn.
    destruct (ascii_eqb a comma); cbn;
      (etrans; [apply (IH (cur +:+ chr a) Hs)|]);
      by rewrite !append_assoc.
Qed.

Lemma scan_comma (rest : string) (vs : list string) (cur : string) :
  scan (String comma rest) (idle vs cur)
  = scan rest (idle (vs ++ [clean_value (strip cur)]) "").
Proof. reflexivity. Qed.

Lemma scan_field (f : field) (rest : string) (vs : list string) (cur : string) :
  field_ok f = true -> startswith squote rest = false ->
  scan (field_text f +:+ rest) (idle vs cur)
  = scan rest (idle vs (cur +:+ field_content f)).
Proof.
  intros Hok Hrest. destruct f as [s|s|body]; simpl in Hok.
  - by apply scan_bare.
  - unfold field_text, field_content. rewrite !append_assoc.
    change (chr squote +:+ (escape_quotes s +:+ chr squote +:+ rest))
      with (String squote (escape_quotes s +:+ String squote rest)).
    cbn [scan]. unfold idle at 1. cbn.
    apply scan_quoted_body; [|done]. by destruct (contains backslash s).
  - unfold field_text, field_content. rewrite !append_assoc.
    change (chr lbracket +:+ (body +:+ chr rbracket +:+ rest))
      with (String lbracket (body +:+ String rbracket rest)).
    cbn [scan]. unfold idle at 1. cbn.
    etrans; [apply (scan_list_body body rest vs (cur +:+ chr lbracket) Hok)|].
    by rewrite !append_assoc.
Qed.

Lemma tokens_of_more (cur pad : string) (f f' : field) (rest : list field) :
  tokens_of cur pad (f :: f' :: rest)
  = (clean_value (strip (cur +:+ field_content f)) :: (tokens_of pad pad (f' :: rest)).1,
     (tokens_of pad pad (f' :: rest)).2).
Proof.
  change (tokens_of cur pad (f :: f' :: rest))
    with (let (toks, held) := tokens_of pad pad (f' :: rest) in
          (clean_value (strip (cur +:+ field_content f)) :: toks, held)).
  by destruct (tokens_of pad pad (f' :: rest)).
Qed.

Lemma render_more (pad : string) (f f' : field) (rest : list field) :
  render pad (f :: f' :: rest)
  = field_text f +:+ String comma (pad +:+ render pad (f' :: rest)).
Proof. reflexivity. Qed.

Lemma scan_render (pad : string) (fs : list field) (vs : list string) (cur : string) :
  all_chars is_space pad = true ->
  Forall (fun f => field_ok f = true) fs ->
  scan (render pad fs) (idle vs cur)
  = idle (vs ++ (tokens_of cur pad fs).1) (tokens_of cur pad fs).2.
Proof.
  intros Hpad Hall. revert vs cur.
  induction Hall as [|f rest Hf Hrest IH]; intros vs cur.
  - simpl. by rewrite app_nil_r.
  - destruct rest as [|f' rest'].
    + cbn [render tokens_of fst snd]. rewrite app_nil_r.
      rewrite <- (append_nil_r (field_text f)). by rewrite scan_field.
    + rewrite render_more, tokens_of_more. rewrite scan_field by done.
      rewrite scan_comma, scan_bare
        by (eapply all_chars_impl; [|exact Hpad]; intros c Hc; by apply is_space_spec).
      rewrite append_nil_l, IH. cbn [fst snd]. by rewrite <- app_assoc.
Qed.

End TokenizerFacts.

Section TokenizerRoundTrip.
Import PyStr SqlParser SqlWriter MessageCql.

Lemma lstrip_pad (pad x : string) :
  all_chars is_space pad = true -> lstrip (pad +:+ x) = lstrip x.
Proof.
  induction pad as [|a pad IH]; [done|]. simpl.
  intros [Ha Hpad]%andb_prop. rewrite ?append_cons. simpl. rewrite Ha. by apply IH.
Qed.

Lemma strip_pad (pad x : string) :
  all_chars is_space pad = true -> strip (pad +:+ x) = strip x.
Proof. intros Hpad. unfold strip. by rewrite lstrip_pad. Qed.

Lemma rstrip_id (s : string) (c : ascii) :
  is_space c = false -> endswith c s = true -> rstrip s = s.
Proof.
  intros Hc. induction s as [|a rest IH]; [done|].
  destruct rest as [|b rest'].
  - simpl. intros Ha%Ascii.eqb_eq. subst a. by rewrite Hc.
  - intros He. change (endswith c (String a (String b rest')))
      with (endswith c (String b rest')) in He.
    specialize (IH He). change (rstrip (String a (String b rest')))
      with (match rstrip (String b rest') with
            | EmptyString => if is_space a then EmptyString else String a EmptyString
            | kept => String a kept
            end).
    by rewrite IH.
Qed.

Lemma rstrip_pad (x pad : string) :
  all_chars is_space pad = true -> rstrip (x +:+ pad) = rstrip x.
Proof.
  intros Hpad. induction x as [|a x IH].
  - rewrite append_nil_l. induction pad as [|b pad IHp]; [done|].
    simpl in Hpad. apply andb_prop in Hpad as [Hb Hpad]. simpl.
    by rewrite (IHp Hpad), Hb.
  - rewrite append_cons. simpl. by rewrite IH.
Qed.

Lemma strip_id (s : string) (c d : ascii) :
  is_space c = false -> is_space d = false ->
  startswith c s = true -> endswith d s = true -> strip s = s.
Proof.
  intros Hc Hd Hs He. unfold strip.
  rewrite (lstrip_nonspace_first s c Hc Hs). by apply (rstrip_id s d).
Qed.

Lemma endswith_app (c : ascii) (s t : string) :
  t <> "" -> endswith c (s +:+ t) = endswith c t.
Proof.
  intros Ht. induction s as [|a s IH]; [done|]. rewrite append_cons.
  destruct (s +:+ t) as [|b u] eqn:Hst.
  - destruct s; [by rewrite append_nil_l in Hst|discriminate].
  - exact IH.
Qed.

Lemma startswith_app (c : ascii) (s t : string) :
  s <> "" -> startswith c (s +:+ t) = startswith c s.
Proof. by destruct s. Qed.

Lemma append_nonempty_r (s t : string) : t <> "" -> s +:+ t <> "".
Proof. destruct s; [done|discriminate]. Qed.

Lemma eqb_empty (s : string) : s <> "" -> String.eqb s "" = false.
Proof. by destruct s. Qed.

Lemma upper_numeric (s : string) :
  all_chars numeric_char s = true -> upper s = s.
Proof.
  induction s as [|a s IH]; [done|]. simpl. intros [Ha Hs]%andb_prop.
  destruct (numeric_char_spec a Ha) as (_ & _ & _ & -> & _). by rewrite IH.
Qed.

Lemma rstrip_numeric (s : string) :
  all_chars numeric_char s = true -> rstrip s = s.
Proof.
  induction s as [|a s IH]; [done|]. simpl. intros [Ha Hs]%andb_prop.
  destruct (numeric_char_spec a Ha) as (_ & _ & Hsp & _). rewrite (IH Hs), Hsp.
  by destruct s.
Qed.

(** A token of digits is handed on as it is. *)
Lemma clean_numeric (s : string) :
  all_chars numeric_char s = true -> s <> "" ->
  clean_value (strip s) = s.
Proof.
  intros Hall Hne. destruct s as [|a s']; [done|].
  pose proof Hall as Hall'. simpl in Hall'. apply andb_prop in Hall' as [Ha _].
  destruct (numeric_char_spec a Ha) as (Hbare & _ & Hsp & _ & _ & _ & HT & HF & HN).
  destruct (bare_char_spec a Hbare) as (Hq & _ & Hl & _).
  assert (strip (String a s') = String a s') as ->.
  { unfold strip. simpl lstrip. rewrite Hsp. by apply rstrip_numeric. }
  unfold clean_value. rewrite (upper_numeric _ Hall).
  simpl. unfold ascii_eqb in *. rewrite HT, HF, HN, Hq. simpl.
  unfold ascii_eqb. by rewrite Hl.
Qed.

(** A bracketed list is handed on as it is. *)
Lemma clean_list (body : string) :
  clean_value (strip (chr lbracket +:+ body +:+ chr rbracket))
  = chr lbracket +:+ body +:+ chr rbracket.
Proof.
  assert (strip (chr lbracket +:+ body +:+ chr rbracket)
          = chr lbracket +:+ body +:+ chr rbracket) as ->.
  { apply (strip_id _ lbracket rbracket); [done|done|done|].
    rewrite endswith_app; [|by apply append_nonempty_r]. by rewrite endswith_app. }
  unfold clean_value. change (chr lbracket +:+ body +:+ chr rbracket)
    with (String lbracket (body +:+ chr rbracket)).
  simpl. by match goal with |- (if ?b then _ else _) = _ => destruct b end.
Qed.

Lemma tokens_of_spec (pad : string) (fs : list field) (cur : string) :
  all_chars is_space pad = true -> all_chars is_space cur = true -> fs <> [] ->
  (tokens_of cur pad fs).1 ++ [clean_value (strip (tokens_of cur pad fs).2)]
  = (fun f => clean_value (strip (field_content f))) <$> fs
  /\ (field_content (List.last fs (FPlain "")) <> "" -> (tokens_of cur pad fs).2 <> "").
Proof.
  intros Hpad. revert cur. induction fs as [|f rest IH]; intros cur Hcur Hne; [done|].
  destruct rest as [|f' rest'].
  - cbn [tokens_of fst snd app fmap list_fmap List.last]. rewrite strip_pad by done.
    split; [done|]. apply append_nonempty_r.
  - rewrite tokens_of_more. cbn [fst snd].
    destruct (IH pad Hpad ltac:(done)) as [Htoks Hheld].
    rewrite fmap_cons, <- Htoks, strip_pad by done. split; [done|exact Hheld].
Qed.

(** The tokenizer on a tuple of well-formed fields: one value per
    field, each cleaned from what the scanner accumulated for it. *)
Lemma parse_render (x pad : string) (fs : list field) :
  all_chars is_space pad = true ->
  Forall (fun f => field_ok f = true) fs ->
  fs <> [] -> field_content (List.last fs (FPlain "")) <> "" ->
  strip (replace_char newline (chr space) x) = render pad fs ->
  parse_sql_values x
  = (fun f => clean_value (strip (field_content f))) <$> fs.
Proof.
  intros Hpad Hok Hne Hlast Hstrip. unfold parse_sql_values.
  rewrite Hstrip.
  change scan_init with (idle [] ""). rewrite scan_render by done.
  destruct (tokens_of_spec pad fs "" Hpad eq_refl Hne) as [Htoks Hheld].
  cbn [current values idle]. rewrite (eqb_empty _ (Hheld Hlast)). exact Htoks.
Qed.

(** X17. A quoted SQL literal written with its quotes doubled comes back
    from [parse_sql_values] as one value: the original text after
    [strip] and [clean_value], provided the text is made of ASCII and
    Cyrillic characters ([plain_text]: there [strip] and [upper] decide
    as [str.strip] and [str.upper] do) and has no backslash and no line
    feed; the empty text gives no value at all. *)
Theorem quoted_literal_comes_back (s : string) :
  plain_text s = true ->
  carried s = true ->
  parse_sql_values (chr squote +:+ escape_quotes s +:+ chr squote)
  = if String.eqb s "" then [] else [clean_value (strip s)].
Proof.
  intros _ Hcar. unfold carried in Hcar. apply andb_prop in Hcar as [Hbs Hnl].
  apply negb_true_iff in Hbs, Hnl.
  destruct (String.eqb_spec s "") as [->|Hne]; [reflexivity|].
  apply (parse_render _ "" [FQuoted s]); try done.
  - constructor; [|constructor]. simpl. by rewrite Hbs.
  - cbn [render field_text]. rewrite replace_char_absent.
    + apply (strip_id _ squote squote); [done|done|done|].
      rewrite endswith_app; [|by apply append_nonempty_r]. by rewrite endswith_app.
    + rewrite !contains_app.
      unfold escape_quotes. rewrite contains_replace_other by done. by rewrite Hnl.
Qed.

End TokenizerRoundTrip.

(* ================================================================== *)
(** ** From the INSERT statement back to its values *)
(* ================================================================== *)

Section InsertRoundTrip.
Import PyStr Encoder SqlParser SqlWriter MessageCql.

Lemma replace_char_app (c : ascii) (new s t : string) :
  replace_char c new (s +:+ t) = replace_char c new s +:+ replace_char c new t.
Proof.
  induction s as [|a s IH]; [done|]. rewrite append_cons. simpl.
  destruct (ascii_eqb a c); by rewrite IH, ?append_assoc.
Qed.

Lemma replace_char_join (c : ascii) (new sep : string) (parts : list string) :
  Forall (fun s => contains c s = false) parts ->
  replace_char c new (join sep parts) = join (replace_char c new sep) parts.
Proof.
  induction 1 as [|s [|s' rest] Hs Hrest IH]; [done| |].
  - simpl. by apply replace_char_absent.
  - change (join sep (s :: s' :: rest)) with (s +:+ sep +:+ join sep (s' :: rest)).
    change (join (replace_char c new sep) (s :: s' :: rest))
      with (s +:+ replace_char c new sep +:+ join (replace_char c new sep) (s' :: rest)).
    by rewrite !replace_char_app, IH, (replace_char_absent c new s Hs).
Qed.

Lemma render_join (pad : string) (fs : list field) :
  join (String comma pad) (field_text <$> fs) = render pad fs.
Proof.
  induction fs as [|f [|f' rest] IH]; [done|done|].
  rewrite render_more, <- IH. reflexivity.
Qed.

Lemma endswith_render (d : ascii) (pad : string) (fs : list field) :
  fs <> [] -> endswith d (field_text (List.last fs (FPlain ""))) = true ->
  endswith d (render pad fs) = true.
Proof.
  induction fs as [|f [|f' rest] IH]; [done|done|]. intros _ Hlast.
  assert (endswith d (render pad (f' :: rest)) = true) as Hrest by (by apply IH).
  assert (render pad (f' :: rest) <> "") as Hne by (by intros Heq; rewrite Heq in Hrest).
  rewrite render_more.
  rewrite endswith_app by discriminate.
  change (String comma (pad +:+ render pad (f' :: rest)))
    with (chr comma +:+ (pad +:+ render pad (f' :: rest))).
  rewrite endswith_app by (by apply append_nonempty_r).
  by rewrite endswith_app.
Qed.

Lemma endswith_suffix (c : ascii) (s t : string) :
  endswith c t = true -> endswith c (s +:+ t) = true.
Proof.
  intros Ht. rewrite endswith_app; [done|]. by intros Heq; rewrite Heq in Ht.
Qed.

(** [strip] removes the padding around a text that starts and ends with a
    character that is not a space. *)
Lemma strip_between (pad1 x pad2 : string) (c d : ascii) :
  all_chars is_space pad1 = true -> all_chars is_space pad2 = true ->
  is_space c = false -> is_space d = false ->
  startswith c x = true -> endswith d x = true ->
  strip (pad1 +:+ x +:+ pad2) = x.
Proof.
  intros Hp1 Hp2 Hc Hd Hs He. rewrite strip_pad by done. unfold strip.
  rewrite (lstrip_nonspace_first (x +:+ pad2) c Hc).
  - rewrite rstrip_pad by done. by apply (rstrip_id x d).
  - rewrite startswith_app; [done|]. by intros Heq; rewrite Heq in Hs.
Qed.

Lemma clean_bool (b : bool) :
  clean_value (strip (str_of_bool_lower b)) = str_of_bool_lower b.
Proof. by destruct b. Qed.

Lemma clean_int (n : Z) : clean_value (strip (str_of_int n)) = str_of_int n.
Proof. apply clean_numeric; apply str_of_int_numeric. Qed.

Lemma clean_list_text (ids : list Z) :
  clean_value (strip (chr lbracket +:+ list_body ids +:+ chr rbracket))
  = list_text ids.
Proof. rewrite clean_list. by destruct ids. Qed.

Lemma insert_fields_text (m : message) :
  insert_fields m = field_text <$> message_fields m.
Proof.
  unfold insert_fields, message_fields. cbn [fmap list_fmap field_text].
  by destruct (forwarded_message_ids m), (marked_users m).
Qed.

Lemma quoted_no_newline (s : string) :
  contains newline s = false ->
  contains newline (chr squote +:+ escape_quotes s +:+ chr squote) = false.
Proof.
  intros Hs. rewrite !contains_app. unfold escape_quotes.
  rewrite contains_replace_other by done. by rewrite Hs.
Qed.

Lemma str_of_int_no_newline (n : Z) : contains newline (str_of_int n) = false.
Proof.
  apply (all_chars_not_contains numeric_char); [done|apply str_of_int_numeric].
Qed.

Lemma list_text_no_newline (ids : list Z) :
  contains newline (chr lbracket +:+ list_body ids +:+ chr rbracket) = false.
Proof.
  rewrite !contains_app. unfold list_body.
  rewrite (all_chars_not_contains list_char newline _ eq_refl (list_body_chars ids)).
  done.
Qed.

Lemma str_of_int_bare (n : Z) : all_chars bare_char (str_of_int n) = true.
Proof.
  apply (all_chars_impl numeric_char); [|apply str_of_int_numeric].
  intros c Hc. by apply numeric_char_spec.
Qed.

Lemma list_body_ok (ids : list Z) : all_chars body_char (list_body ids) = true.
Proof.
  apply (all_chars_impl list_char); [|apply list_body_chars].
  intros c Hc. by apply list_char_spec.
Qed.

Section OneMessage.
Variable m : message.
Hypothesis text_carried : carried (text m) = true.
Hypothesis kludges_carried : carried (kludges m) = true.
Hypothesis mentions_carried : carried (mentions m) = true.

Lemma carried_spec (s : string) :
  carried s = true -> contains backslash s = false /\ contains newline s = false.
Proof.
  unfold carried. by destruct (contains backslash s), (contains newline s).
Qed.

Lemma message_fields_ok : Forall (fun f => field_ok f = true) (message_fields m).
Proof.
  destruct (carried_spec _ text_carried) as [Ht _].
  destruct (carried_spec _ kludges_carried) as [Hk _].
  destruct (carried_spec _ mentions_carried) as [Hm _].
  unfold message_fields. repeat constructor; cbn [field_ok];
    try apply str_of_int_bare; try apply list_body_ok;
    try (by rewrite ?Ht, ?Hk, ?Hm);
    by match goal with |- context [str_of_bool_lower ?b] => destruct b end.
Qed.

Lemma message_fields_no_newline :
  Forall (fun s => contains newline s = false) (field_text <$> message_fields m).
Proof.
  destruct (carried_spec _ text_carried) as [_ Ht].
  destruct (carried_spec _ kludges_carried) as [_ Hk].
  destruct (carried_spec _ mentions_carried) as [_ Hm].
  unfold message_fields. cbn [fmap list_fmap field_text].
  repeat constructor;
    try apply str_of_int_no_newline; try apply list_text_no_newline;
    try (by apply quoted_no_newline);
    by match goal with |- context [str_of_bool_lower ?b] => destruct b end.
Qed.

Lemma message_fields_cleaned :
  (fun f => clean_value (strip (field_content f))) <$> message_fields m
  = parsed_fields m.
Proof.
  unfold message_fields, parsed_fields. cbn [fmap list_fmap field_content].
  rewrite !clean_bool, !clean_list_text.
  by rewrite !clean_int.
Qed.

Lemma insert_values_flat :
  strip (replace_char newline (chr space) (insert_values m))
  = render "     " (message_fields m).
Proof.
  unfold insert_values. rewrite !replace_char_app.
  rewrite insert_fields_text, replace_char_join by apply message_fields_no_newline.
  change (replace_char newline (chr space) (chr newline)) with " ".
  change (replace_char newline (chr space) "    ") with "    ".
  change (replace_char newline (chr space) ("," +:+ chr newline +:+ "    "))
    with (String comma "     ").
  rewrite render_join.
  change (" " +:+ "    " +:+ render "     " (message_fields m) +:+ " ")
    with ("     " +:+ render "     " (message_fields m) +:+ " ").
  destruct (str_of_int_numeric (chat_id m)) as [Hnum Hne].
  destruct (str_of_int (chat_id m)) as [|a s] eqn:Hchat; [done|].
  simpl in Hnum. apply andb_prop in Hnum as [Ha _].
  destruct (numeric_char_spec a Ha) as (_ & _ & Hsp & _).
  apply (strip_between _ _ _ a "e"%char); [done|done|done|done| |].
  - unfold message_fields. rewrite render_more. cbn [field_text]. rewrite Hchat.
    rewrite append_cons. simpl. unfold ascii_eqb. apply Ascii.eqb_refl.
  - apply endswith_render; [done|]. cbn [List.last message_fields field_text].
    by destruct (deleted_for_all m).
Qed.

End OneMessage.

Lemma insert_statement_text (m : message) :
  generate_insert_statement m = insert_head +:+ insert_values m +:+ ");".
Proof.
  unfold generate_insert_statement, strip.
  change (lstrip (chr newline +:+ insert_head +:+ insert_values m +:+ ");"))
    with (lstrip (insert_head +:+ insert_values m +:+ ");")).
  rewrite (lstrip_nonspace_first _ "I"%char) by done.
  apply (rstrip_id _ ";"%char); [done|].
  by repeat apply endswith_suffix.
Qed.

(** The values of a statement come back as [parsed_fields]. *)
Lemma insert_values_parse (m : message) :
  carried (text m) = true ->
  carried (kludges m) = true ->
  carried (mentions m) = true ->
  parse_sql_values (insert_values m) = parsed_fields m.
Proof.
  intros Ht Hk Hm. rewrite <- (message_fields_cleaned m).
  apply (parse_render _ "     "); [done| |done| |].
  - by apply message_fields_ok.
  - cbn [List.last message_fields field_content]. by destruct (deleted_for_all m).
  - by apply insert_values_flat.
Qed.

(** X18. The statement written by [generate_insert_statement] is the
    fixed head, the values and the closing parenthesis with a semicolon;
    and [parse_sql_values] on those values gives back fifteen values:
    the numbers, booleans and lists as they were written, the three
    texts after [strip] and [clean_value], as long as the texts are made
    of ASCII and Cyrillic characters ([plain_text]: there [strip] and
    [upper] decide as [str.strip] and [str.upper] do) and hold no
    backslash and no line feed. *)
Theorem insert_statement_values_parse_back (m : message) :
  plain_text (text m) = true ->
  plain_text (kludges m) = true ->
  plain_text (mentions m) = true ->
  carried (text m) = true ->
  carried (kludges m) = true ->
  carried (mentions m) = true ->
  generate_insert_statement m = insert_head +:+ insert_values m +:+ ");"
  /\ parse_sql_values (insert_values m) = parsed_fields m
  /\ length (parse_sql_values (insert_values m)) = 15%nat.
Proof.
  intros _ _ _ Ht Hk Hm. pose proof (insert_values_parse m Ht Hk Hm) as Hparse.
  split_and!; [apply insert_statement_text|exact Hparse|by rewrite Hparse].
Qed.

End InsertRoundTrip.

(* ================================================================== *)
(** ** Message rows: what every generated row satisfies *)
(* ================================================================== *)

Section MessageShapeFacts.
Context {W : Type} `{PyRuntimeLaws W}.
Import Message MessageShape.

Lemma message_flags_below_32 (w : W) : 0 <= (generate_flags w).1 < 32.
Proof.
  unfold generate_flags, Py.bind, Py.ret.
  pose proof (flag_bit_below 5) as Hstep. change (2 ^ 5) with 32 in Hstep.
  repeat match goal with
         | |- context [let (_, _) := flag_bit ?p ?b ?f ?w in _] =>
             let Hb := fresh "Hb" in
             pose proof (Hstep p b f w ltac:(lia) ltac:(lia)) as Hb;
             destruct (flag_bit p b f w) as [? ?]; simpl in Hb;
             specialize (Hb ltac:(lia))
         end.
  simpl. lia.
Qed.

Lemma randint_range (a b : Z) (w : W) : a <= b -> a <= (randint a b w).1 <= b.
Proof. intros Hab. split; [by apply randint_ge|by apply randint_le]. Qed.

Lemma message_timestamp_range (w : W) :
  exists t, in_date_window t /\ (generate_timestamp w).1 = naive_timestamp t.
Proof.
  unfold generate_timestamp, Py.bind, Py.ret.
  pose proof (randint_range 0 (3 * 365) w ltac:(lia)) as Hd.
  destruct (randint 0 (3 * 365) w) as [days w1]. simpl in Hd.
  pose proof (randint_range 0 23 w1 ltac:(lia)) as Hh.
  destruct (randint 0 23 w1) as [hours w2]. simpl in Hh.
  pose proof (randint_range 0 59 w2 ltac:(lia)) as Hm.
  destruct (randint 0 59 w2) as [minutes w3]. simpl in Hm.
  pose proof (randint_range 0 59 w3 ltac:(lia)) as Hs.
  destruct (randint 0 59 w3) as [seconds w4]. simpl in Hs.
  eexists. split; [|reflexivity]. unfold in_date_window. lia.
Qed.

Lemma bisect_le (cum : list Q) (y : Q) (hi : nat) : (bisect cum y hi <= hi)%nat.
Proof.
  revert cum. induction hi as [|hi IH]; intros cum; [by destruct cum|].
  destruct cum as [|c rest]; simpl; [lia|].
  destruct (Qle_bool c y); [|lia]. specialize (IH rest). lia.
Qed.

Lemma message_mentions_values (w : W) : (generate_mentions w).1 ∈ mention_types.
Proof.
  unfold generate_mentions, choices1, Py.bind, Py.ret.
  destruct (random w) as [x w1]. cbn [fst].
  apply list_elem_of_In, nth_In.
  match goal with |- (bisect ?c ?y ?h < _)%nat => pose proof (bisect_le c y h) as Hb end.
  simpl in *. lia.
Qed.

Lemma message_ttl_values (w : W) : (generate_ttl w).1 ∈ ttl_values.
Proof.
  unfold generate_ttl, choice_of, Py.bind, Py.ret.
  destruct (bernoulli (5 # 100) w) as [[|] w1]; [|by left].
  destruct (randbelow _ w1) as [i w2]. cbn [fst].
  destruct (nth_in_or_default (Z.to_nat i) [3600; 86400; 604800; 2592000] 0)
    as [Hin| ->]; [|by left].
  right. by apply list_elem_of_In.
Qed.

Lemma message_row_shape (idx : Z) (chat : option Z) (w : W) :
  message_row_ok naive_timestamp chat idx (generate_message_row idx chat w).1.
Proof.
  unfold generate_message_row, Py.bind, Py.ret. cbv beta.
  match goal with
  | |- context [let (_, _) := ?e in _] =>
      assert (match chat with
              | Some c => e.1 = c
              | None => 1000 <= e.1 < 500000
              end) as Hchat
        by (destruct chat as [c|]; [done|by apply (choice_in_range 1000 500000)]);
      destruct e as [cid w1]
  end.
  cbn [fst] in Hchat.
  pose proof (choice_in_range 1000 1000000 w1 ltac:(lia)) as Hauthor.
  change (Range 1000 1000000) with users in Hauthor.
  destruct (choice users w1) as [author w2]. cbn [fst] in Hauthor.
  pose proof (message_timestamp_range w2) as Hdate.
  destruct (generate_timestamp w2) as [d w3]. cbn [fst] in Hdate.
  destruct (bernoulli (1 # 10) w3) as [edited w4].
  match goal with
  | |- context [let (_, _) := ?e in _] =>
      assert (e.1 = d \/ d + 60 <= e.1 <= d + 3600) as Hupd;
      [|destruct e as [upd w5]]
  end.
  { destruct edited; [|by left]. right.
    pose proof (randint_range 60 3600 w4 ltac:(lia)) as Hr.
    destruct (randint 60 3600 w4) as [d0 w']. simpl in *. lia. }
  cbn [fst] in Hupd.
  destruct (generate_text w5) as [txt w6].
  unfold generate_kludges at 1. unfold Py.ret.
  destruct (bernoulli (15 # 100) w6) as [fwd w7].
  destruct (generate_forwarded_message_ids w7) as [fids w8].
  pose proof (message_mentions_values w8) as Hment.
  destruct (generate_mentions w8) as [ment w9]. cbn [fst] in Hment.
  destruct (generate_marked_users author w9) as [marked w10].
  pose proof (message_ttl_values w10) as Httl.
  destruct (generate_ttl w10) as [t w11]. cbn [fst] in Httl.
  destruct (bernoulli (1 # 100) w11) as [del w12].
  pose proof (message_flags_below_32 w12) as Hflags.
  destruct (generate_flags w12) as [fl w13]. cbn [fst] in Hflags.
  unfold message_row_ok. cbn.
  split_and!; try done; lia.
Qed.

Lemma generate_rows_shape (n : nat) (start : Z) (chat : option Z) (w : W) :
  forall (i : nat) (r : row),
    (generate_rows n start chat w).1 !! i = Some r ->
    message_row_ok naive_timestamp chat (start + Z.of_nat i) r.
Proof.
  revert start w. induction n as [|n IH]; intros start w i r; [done|].
  cbn [generate_rows]. unfold Py.bind, Py.ret.
  pose proof (message_row_shape start chat w) as Hrow.
  destruct (generate_message_row start chat w) as [r0 w1]. cbn [fst] in Hrow.
  specialize (IH (start + 1) w1).
  destruct (generate_rows n (start + 1) chat w1) as [rest w2]. cbn [fst] in *.
  intros Hi. destruct i as [|i]; simpl in Hi.
  - injection Hi as <-. by rewrite Z.add_0_r.
  - specialize (IH i r Hi).
    by replace (start + Z.of_nat (S i)) with (start + 1 + Z.of_nat i) by lia.
Qed.

(** X4. The rows that the sinks of [dsbulk_generate.py] write come
    from one stream, and the row at position [i] of that stream is well
    formed: its local id is [i] and its bucket [i // 1000], its chat is
    the given one or lies in 1000..499999, its author lies in
    1000..999999, its date is the timestamp that the host gives to a
    local time between 1095 days before 1 January 2020 and the last
    second of that day, its update time is the date or 60
    to 3600 seconds later, its flags are below 32, its ttl is 0 or one
    of the four durations, its kludges are empty and its mentions are
    one of the four types. *)
Theorem message_rows_are_well_formed (count : nat) (chat : option Z) (w : W) :
  forall (i : nat) (r : row),
    (generate_rows count 0 chat w).1 !! i = Some r ->
    message_row_ok naive_timestamp chat (Z.of_nat i) r.
Proof. intros i r Hi. by apply (generate_rows_shape count 0 chat w i r). Qed.

End MessageShapeFacts.

(* ================================================================== *)
(** ** The scripted runtime keeps the further laws *)
(* ================================================================== *)

#[global] Instance scripted_random_laws : PyRandomLaws Scripted.world.
Proof.
  constructor.
  - intros w. simpl. unfold Scripted.scripted_random.
    destruct (Scripted.next w) as [x w']. simpl.
    pose proof (Z.mod_pos_bound x 1000 ltac:(lia)) as Hx.
    unfold Qle, Qlt. simpl. lia.
  - intros pop k w Hk. simpl. unfold Scripted.scripted_sample.
    destruct (Scripted.next w) as [x w']. simpl.
    exists ((fun i => (x + Z.of_nat i) mod pylen pop) <$> seq 0 (Z.to_nat k)).
    split_and!.
    + apply NoDup_fmap_2_strong; [|apply NoDup_seq].
      intros i j Hi Hj Heq. apply elem_of_seq in Hi, Hj.
      assert (0 < pylen pop) as Hpos by lia.
      apply Nat2Z.inj.
      pose proof (Z.div_mod (x + Z.of_nat i) (pylen pop) ltac:(lia)) as Hdi.
      pose proof (Z.div_mod (x + Z.of_nat j) (pylen pop) ltac:(lia)) as Hdj.
      rewrite Heq in Hdi.
      assert ((x + Z.of_nat i) `div` pylen pop = (x + Z.of_nat j) `div` pylen pop) as Hq; [|lia].
      nia.
    + rewrite length_fmap, length_seq. lia.
    + apply Forall_fmap, Forall_forall. intros i Hi. apply elem_of_seq in Hi. simpl.
      apply Z.mod_pos_bound. lia.
    + by rewrite <- list_fmap_compose.
Qed.

(* ================================================================== *)
(** ** Chats: ids, rows and descriptions *)
(* ================================================================== *)

Section ChatsFacts.
Context {W : Type} {R : PyRuntime W} {L : PyRuntimeLaws W} {L' : PyRandomLaws W}.
Import PyStr Encoder EncoderVariants SqlWriter Chats ChatsShape.

(** An unweighted pick lands inside the population. *)
Lemma pick_in_population (n : nat) (x : Q) :
  (0 < n)%nat -> (x < 1)%Q ->
  (Z.to_nat (Qfloor (x * inject_Z (Z.of_nat n))) < n)%nat.
Proof.
  intros Hn Hx.
  assert (Qfloor (x * inject_Z (Z.of_nat n)) < Z.of_nat n) as Hlt; [|lia].
  rewrite Zlt_Qlt. eapply Qle_lt_trans; [apply Qfloor_le|].
  rewrite <- (Qmult_1_l (inject_Z (Z.of_nat n))) at 2.
  apply Qmult_lt_compat_r; [|done].
  rewrite <- (Zlt_Qlt 0). lia.
Qed.

Lemma choices_of_members {A : Type} (d : A) (population : list A) (k : nat) (w : W) :
  population <> [] ->
  length (choices_of d population k w).1 = k
  /\ Forall (fun a => a ∈ population) (choices_of d population k w).1.
Proof.
  intros Hne. unfold choices_of. revert w.
  induction k as [|k IH]; intros w; [by split; [|constructor]|].
  cbn [Py.repeatM]. unfold Py.bind, Py.ret in *.
  pose proof (random_unit w) as [_ Hx].
  destruct (random w) as [x w1]. cbn [fst] in Hx.
  specialize (IH w1).
  destruct (Py.repeatM k _ w1) as [rest w2]. cbn [fst] in *.
  destruct IH as [Hlen Hall]. split; [by rewrite <- Hlen|].
  constructor; [|done]. apply list_elem_of_In, nth_In, pick_in_population; [|done].
  destruct population; [done|simpl; lia].
Qed.













Lemma py_len_app (a b : string) : py_len (a +:+ b) = (py_len a + py_len b)%nat.
Proof.
  induction a as [|c a IH]; [done|]. rewrite append_cons. simpl.
  destruct (is_continuation c); by rewrite IH.
Qed.

Lemma py_len_take_eq (n : nat) (s : string) :
  py_len (take_chars n s) = Nat.min n (py_len s).
Proof.
  revert n. induction s as [|c s IH]; intros n; simpl; [lia|].
  destruct (is_continuation c) eqn:Hc; simpl; rewrite ?Hc; [apply IH|].
  destruct n as [|n]; simpl; [done|]. rewrite Hc. by rewrite IH.
Qed.

Lemma take_chars_prefix (n : nat) (s : string) :
  exists rest : string, s = take_chars n s +:+ rest.
Proof.
  revert n. induction s as [|c s IH]; intros n; simpl; [by exists ""|].
  destruct (is_continuation c).
  - destruct (IH n) as [rest Hrest]. exists rest. by rewrite append_cons, <- Hrest.
  - destruct n as [|n]; [by eexists|].
    destruct (IH n) as [rest Hrest]. exists rest. by rewrite append_cons, <- Hrest.
Qed.

(** X14. A description drawn for a limit of at least three characters is
    made of five to fifteen words of the list, joined by spaces and
    capitalized. When that text has no more characters than the limit
    it is returned as it is; a longer text is cut to its first
    [length - 3] characters and closed with three dots, which makes
    [length] characters exactly. So a description never has more
    characters than the limit. *)
Theorem description_fits_the_limit (length : Z) (w : W) :
  3 <= length ->
  exists selected : list string,
    5 <= Z.of_nat (List.length selected) <= 15
    /\ Forall (fun s => s ∈ description_words) selected
    /\ (generate_description length w).1
       = (if length <? Z.of_nat (py_len (capitalize (join " " selected)))
          then slice_to (length - 3) (capitalize (join " " selected)) +:+ "..."
          else capitalize (join " " selected))
    /\ (length < Z.of_nat (py_len (capitalize (join " " selected))) ->
        (exists rest : string,
            capitalize (join " " selected)
            = slice_to (length - 3) (capitalize (join " " selected)) +:+ rest)
        /\ Z.of_nat (py_len (slice_to (length - 3) (capitalize (join " " selected))))
           = length - 3
        /\ Z.of_nat (py_len (generate_description length w).1) = length)
    /\ Z.of_nat (py_len (generate_description length w).1) <= length.
Proof.
  intros Hlen. unfold generate_description, Py.bind, Py.ret.
  pose proof (randint_range 5 15 w ltac:(lia)) as Hcount.
  destruct (randint 5 15 w) as [word_count w1]. cbn [fst] in Hcount.
  destruct (choices_of_members "" description_words (Z.to_nat word_count) w1
              ltac:(done)) as [Hsel Hwords].
  destruct (choices_of "" description_words (Z.to_nat word_count) w1)
    as [selected w2]. cbn [fst] in Hsel, Hwords.
  exists selected. split; [lia|]. split; [done|].
  assert ((0 <=? length - 3) = true) as Hstop by lia.
  destruct (length <? Z.of_nat (py_len (capitalize (join " " selected)))) eqn:Hlong;
    cbn [fst].
  - split; [done|].
    assert (Z.of_nat (py_len (slice_to (length - 3) (capitalize (join " " selected))))
            = length - 3) as Hcut.
    { unfold slice_to. rewrite Hstop, py_len_take_eq. lia. }
    assert (Z.of_nat (py_len (slice_to (length - 3) (capitalize (join " " selected))
                              +:+ "...")) = length) as Hall.
    { rewrite py_len_app. change (py_len "...") with 3%nat. lia. }
    split; [|lia]. intros _. split; [|done].
    unfold slice_to. rewrite Hstop. apply take_chars_prefix.
  - split; [done|]. split; [lia|lia].
Qed.

End ChatsFacts.

(* ================================================================== *)
(** ** Marked users and forwarded ids *)
(* ================================================================== *)

Section MarkedUsersFacts.
Context {W : Type} {R : PyRuntime W} {L : PyRuntimeLaws W} {L' : PyRandomLaws W}.
Import MarkedUsers.

(** Removing one value from a list without repetition removes at most
    one element. *)
Lemma filter_ne_length (a : Z) (l : list Z) :
  NoDup l -> (length l <= S (length (filter (fun u => u <> a) l)))%nat.
Proof.
  induction 1 as [|x l Hx Hl IH]; [simpl; lia|].
  destruct (decide (x = a)) as [->|Hne].
  - rewrite filter_cons_False by (by intros ?).
    assert (filter (fun u => u <> a) l = l) as ->; [|simpl; lia].
    clear IH Hl. induction l as [|y l IHl]; [done|].
    apply not_elem_of_cons in Hx as [Hy Hx].
    rewrite filter_cons_True by done. by rewrite IHl.
  - rewrite filter_cons_True by done. simpl. lia.
Qed.

Lemma sample_range (lo hi k : Z) (w : W) :
  0 <= k <= hi - lo ->
  let l := (sample (Range lo hi) k w).1 in
  Z.of_nat (length l) = k /\ NoDup l /\ forall u, u ∈ l -> lo <= u < hi.
Proof.
  intros Hk l. subst l.
  destruct (sample_positions (Range lo hi) k w) as (pos & Hnd & Hlen & Hall & ->);
    [simpl; lia|].
  split_and!.
  - by rewrite length_fmap.
  - apply NoDup_fmap_2; [|done]. intros i j. simpl. lia.
  - intros u (i & -> & Hi)%list_elem_of_fmap. rewrite Forall_forall in Hall.
    specialize (Hall i Hi). simpl in *. lia.
Qed.

Lemma sample_items (l : list Z) (k : Z) (w : W) :
  NoDup l -> 0 <= k <= Z.of_nat (length l) ->
  let s := (sample (Items l) k w).1 in
  Z.of_nat (length s) = k /\ NoDup s /\ forall u, u ∈ s -> u ∈ l.
Proof.
  intros Hl Hk s. subst s.
  destruct (sample_positions (Items l) k w) as (pos & Hnd & Hlen & Hall & ->);
    [done|].
  rewrite Forall_forall in Hall. simpl in Hall. split_and!.
  - by rewrite length_fmap.
  - apply NoDup_fmap_2_strong; [|done]. intros i j Hi Hj. simpl. intros Heq.
    pose proof (Hall i Hi). pose proof (Hall j Hj).
    apply NoDup_ListNoDup in Hl. rewrite (List.NoDup_nth l 0) in Hl.
    apply Z2Nat.inj; [lia|lia|]. apply Hl; [lia|lia|exact Heq].
  - intros u (i & -> & Hi)%list_elem_of_fmap. simpl.
    apply list_elem_of_In, nth_In. pose proof (Hall i Hi). lia.
Qed.

(** The users picked by the two copies of [generate_marked_users]. *)
Lemma marked_pick (author_id : Z) (w : W) :
  let drawn := (sample Message.users 10 w).1 in
  let w1 := (sample Message.users 10 w).2 in
  let available_users := filter (fun u => u <> author_id) drawn in
  let count := (randint 1 (Z.min 5 (Z.of_nat (length available_users))) w1).1 in
  let w2 := (randint 1 (Z.min 5 (Z.of_nat (length available_users))) w1).2 in
  marked_ok author_id (sample (Items available_users) count w2).1.
Proof.
  intros drawn w1 available_users count w2.
  destruct (sample_range 1000 1000000 10 w ltac:(lia)) as (Hlen & Hnd & Hin).
  change (Range 1000 1000000) with Message.users in *. fold drawn in Hlen, Hnd, Hin.
  pose proof (filter_ne_length author_id drawn Hnd) as Hfilter.
  fold available_users in Hfilter.
  assert (NoDup available_users) as Hnda by (by apply NoDup_filter).
  pose proof (randint_range 1 (Z.min 5 (Z.of_nat (length available_users))) w1
                ltac:(lia)) as Hcount.
  fold count in Hcount.
  destruct (sample_items available_users count w2 Hnda ltac:(lia)) as (Hl & Hn & Hm).
  split_and!; [lia|done|].
  intros u Hu. apply Hm, list_elem_of_filter in Hu as [Hne Hu]. split; [done|].
  by apply Hin.
Qed.

Lemma marked_users_picked (author_id : Z) (w : W) :
  marked_ok author_id (MessageCql.generate_marked_users author_id w).1.
Proof.
  unfold MessageCql.generate_marked_users, Py.bind, Py.ret.
  destruct (bernoulli (2 # 10) w) as [[|] w0].
  - pose proof (marked_pick author_id w0) as Hpick. cbv zeta in Hpick.
    destruct (sample Message.users 10 w0) as [drawn w1]. cbn [fst snd] in Hpick.
    destruct (randint 1 (Z.min 5 (Z.of_nat (length (filter (fun u => u <> author_id) drawn)))) w1)
      as [count w2]. cbn [fst snd] in Hpick. exact Hpick.
  - split_and!; [simpl; lia|constructor|]. intros u Hu. by apply elem_of_nil in Hu.
Qed.

(** X5. The marked users of a message, in [generate.py] as a list and
    in [dsbulk_generate.py] as the text of that list, are at most five
    different user ids in 1000..999999, and the author is never among
    them; the number asked of [random.sample] never exceeds the users
    left after the author is removed. *)
Theorem marked_users_leave_out_the_author (author_id : Z) (w : W) :
  marked_ok author_id (MessageCql.generate_marked_users author_id w).1
  /\ exists picked : list Z,
       (Message.generate_marked_users author_id w).1 = PyStr.bracket_list picked
       /\ marked_ok author_id picked.
Proof.
  split; [apply marked_users_picked|].
  unfold Message.generate_marked_users, Py.bind, Py.ret.
  destruct (bernoulli (2 # 10) w) as [[|] w0].
  - pose proof (marked_pick author_id w0) as Hpick. cbv zeta in Hpick.
    destruct (sample Message.users 10 w0) as [drawn w1]. cbn [fst snd] in Hpick.
    destruct (randint 1 (Z.min 5 (Z.of_nat (length (filter (fun u => u <> author_id) drawn)))) w1)
      as [count w2]. cbn [fst snd] in Hpick.
    destruct (sample (Items (filter (fun u => u <> author_id) drawn)) count w2)
      as [picked w3]. cbn [fst] in *. by exists picked.
  - exists []. split; [done|].
    split_and!; [simpl; lia|constructor|]. intros u Hu. by apply elem_of_nil in Hu.
Qed.

End MarkedUsersFacts.

(* ================================================================== *)
(** ** Messages of [generate.py], and their way through the loader *)
(* ================================================================== *)

Section GeneratedMessages.
Context {W : Type} {R : PyRuntime W} {L : PyRuntimeLaws W} {L' : PyRandomLaws W}.
Import PyStr SqlParser SqlWriter MessageCql MessageShape MarkedUsers MessageCqlShape.

Lemma repeatM_spec {A : Type} (P : A -> Prop) (m : Py.M W A) (n : nat) (w : W) :
  (forall w, P (m w).1) ->
  length (Py.repeatM n m w).1 = n /\ Forall P (Py.repeatM n m w).1.
Proof.
  intros Hm. revert w. induction n as [|n IH]; intros w; [by split; [|constructor]|].
  cbn [Py.repeatM]. unfold Py.bind, Py.ret.
  pose proof (Hm w) as Ha. destruct (m w) as [a w1]. cbn [fst] in Ha.
  specialize (IH w1). destruct (Py.repeatM n m w1) as [l w2]. cbn [fst] in *.
  destruct IH as [Hlen Hall]. split; [by rewrite <- Hlen|by constructor].
Qed.

Lemma common_words_ok :
  Forall (fun s => word_ok s /\ word_ok (capitalize s)) Message.common_words.
Proof.
  unfold Message.common_words.
  repeat (constructor; [by split; split; [discriminate|vm_compute|discriminate|vm_compute]|]).
  constructor.
Qed.

Lemma generate_word_ok (w : W) : word_ok (Message.generate_word w).1.
Proof.
  unfold Message.generate_word, choice_of, Py.bind, Py.ret.
  pose proof (randbelow_range (Z.of_nat (length Message.common_words)) w ltac:(done))
    as Hi.
  destruct (randbelow (Z.of_nat (length Message.common_words)) w) as [i w1].
  cbn [fst] in Hi.
  destruct (bernoulli (3 # 10) w1) as [cap w2]. cbn [fst].
  pose proof common_words_ok as Hall. rewrite Forall_forall in Hall.
  destruct (Hall (nth (Z.to_nat i) Message.common_words "")) as [Hw Hc].
  { apply list_elem_of_In, nth_In. lia. }
  by destruct cap.
Qed.

Lemma generate_text_shape (lo hi : Z) (w : W) :
  1 <= lo <= hi ->
  exists (words : list string) (p : string),
    (generate_text lo hi w).1 = join " " words +:+ p
    /\ words <> [] /\ Forall word_ok words
    /\ p ∈ ["."; "!"; "?"; ""].
Proof.
  intros Hlo. unfold generate_text, Py.bind, Py.ret.
  pose proof (randint_range lo hi w ltac:(lia)) as Hn.
  destruct (randint lo hi w) as [n w1]. cbn [fst] in Hn.
  destruct (repeatM_spec word_ok Message.generate_word (Z.to_nat n) w1 generate_word_ok)
    as [Hlen Hall].
  destruct (Py.repeatM (Z.to_nat n) Message.generate_word w1) as [words w2].
  cbn [fst] in *.
  assert (words <> []) as Hne by (intros ->; simpl in Hlen; lia).
  destruct (bernoulli (7 # 10) w2) as [[|] w3].
  - unfold choice_of, Py.bind, Py.ret.
    destruct (randbelow _ w3) as [i w4]. cbn [fst].
    exists words, (nth (Z.to_nat i) ["."; "!"; "?"] ""). split_and!; try done.
    apply list_elem_of_In.
    destruct (nth_in_or_default (Z.to_nat i) ["."; "!"; "?"] "") as [Hin| ->];
      simpl in *; tauto.
  - exists words, "". cbn [fst]. rewrite append_nil_r. split_and!; try done.
    apply list_elem_of_In. simpl. tauto.
Qed.

Lemma high_char_spec (c : ascii) :
  high_char c = true ->
  text_char c = true /\ is_space c = false /\ upper_char c = c
  /\ Ascii.eqb c "T"%char = false /\ Ascii.eqb c "F"%char = false
  /\ Ascii.eqb c "N"%char = false /\ Ascii.eqb c squote = false.
Proof.
  destruct c as [[] [] [] [] [] [] [] []]; (discriminate || (intros _; by vm_compute)).
Qed.

Lemma text_char_plain (c : ascii) : text_char c = true -> plain_char c = true.
Proof.
  destruct c as [[] [] [] [] [] [] [] []]; (discriminate || (intros _; by vm_compute)).
Qed.

Lemma last_char (q : ascii -> bool) (s : string) :
  s <> "" -> all_chars q s = true ->
  exists c, q c = true /\ endswith c s = true.
Proof.
  induction s as [|a s IH]; [done|]. intros _ [Ha Hs]%andb_prop.
  destruct s as [|b s'].
  - exists a. split; [done|]. simpl. unfold ascii_eqb. apply Ascii.eqb_refl.
  - destruct (IH ltac:(done) Hs) as (c & Hc & He). by exists c.
Qed.

Lemma join_head (sep w1 : string) (ws : list string) :
  exists post, join sep (w1 :: ws) = w1 +:+ post.
Proof.
  destruct ws as [|w2 ws]; [exists ""; by rewrite append_nil_r|].
  by exists (sep +:+ join sep (w2 :: ws)).
Qed.

Lemma join_last (sep : string) (ws : list string) :
  ws <> [] -> exists pre, join sep ws = pre +:+ List.last ws "".
Proof.
  induction ws as [|w1 [|w2 ws] IH]; [done|by exists ""|]. intros _.
  destruct (IH ltac:(done)) as (pre & Hpre).
  exists (w1 +:+ sep +:+ pre).
  change (join sep (w1 :: w2 :: ws)) with (w1 +:+ sep +:+ join sep (w2 :: ws)).
  change (List.last (w1 :: w2 :: ws) "") with (List.last (w2 :: ws) "").
  by rewrite Hpre, !append_assoc.
Qed.

Lemma last_Forall {A : Type} (P : A -> Prop) (l : list A) (d : A) :
  l <> [] -> Forall P l -> P (List.last l d).
Proof.
  induction l as [|a [|b l] IH]; [done| |].
  - intros _ Hall. by apply Forall_inv in Hall.
  - intros _ Hall. apply IH; [done|]. by apply Forall_inv_tail in Hall.
Qed.

(** A text that starts with a Cyrillic byte and does not end with a
    space is returned by [clean_value] as it is. *)
Lemma clean_plain (a : ascii) (t : string) :
  high_char a = true -> rstrip (String a t) = String a t ->
  clean_value (strip (String a t)) = String a t.
Proof.
  intros Ha Hr.
  destruct (high_char_spec a Ha) as (_ & Hsp & Hup & HT & HF & HN & Hq).
  assert (strip (String a t) = String a t) as ->.
  { unfold strip. simpl lstrip. by rewrite Hsp. }
  unfold clean_value. cbn [upper]. rewrite Hup. simpl.
  rewrite HT, HF, HN. unfold ascii_eqb. rewrite Hq. simpl.
  by match goal with |- (if ?b then _ else _) = _ => destruct b end.
Qed.

Lemma generated_text_ok (lo hi : Z) (w : W) :
  1 <= lo <= hi -> text_ok (generate_text lo hi w).1.
Proof.
  intros Hlo. destruct (generate_text_shape lo hi w Hlo) as (words & p & -> & Hne & Hall & Hp).
  assert (all_chars text_char p = true /\ (p = "" \/ exists c, is_space c = false /\ endswith c p = true))
    as [Hpc Hpe].
  { apply list_elem_of_In in Hp. simpl in Hp.
    destruct Hp as [<-|[<-|[<-|[<-|[]]]]];
      [split; [done|right; by exists "."%char]
      |split; [done|right; by exists "!"%char]
      |split; [done|right; by exists "?"%char]
      |split; [done|by left]]. }
  assert (all_chars text_char (join " " words +:+ p) = true) as Hchars.
  { rewrite all_chars_app, Hpc, andb_true_r. apply all_chars_join; [done|].
    eapply Forall_impl; [exact Hall|]. intros s [_ Hs]. simpl.
    apply (all_chars_impl high_char); [|done]. intros c Hc. by apply high_char_spec. }
  split_and!; [| |apply (all_chars_impl text_char); [apply text_char_plain|done]].
  - unfold carried.
    by rewrite (all_chars_not_contains text_char backslash _ eq_refl Hchars),
      (all_chars_not_contains text_char newline _ eq_refl Hchars).
  - destruct words as [|w1 ws]; [done|].
    destruct (join_head " " w1 ws) as (post & Hhead).
    pose proof (Forall_inv Hall) as [Hw1 Hw1c].
    destruct w1 as [|a w1']; [done|]. simpl in Hw1c. apply andb_prop in Hw1c as [Ha _].
    assert (exists c, is_space c = false /\ endswith c (join " " (String a w1' :: ws) +:+ p) = true)
      as (c & Hc & He).
    { destruct Hpe as [->|(c & Hc & He)].
      - rewrite append_nil_r.
        destruct (join_last " " (String a w1' :: ws) ltac:(done)) as (pre & ->).
        destruct (last_Forall word_ok (String a w1' :: ws) "" ltac:(done) Hall) as [Hl Hlc].
        destruct (last_char high_char _ Hl Hlc) as (c & Hc & He).
        exists c. split; [by apply high_char_spec|by apply endswith_suffix].
      - exists c. split; [done|by apply endswith_suffix]. }
    revert He. rewrite Hhead, append_cons. intros He.
    apply clean_plain; [done|]. by apply (rstrip_id _ c).
Qed.

Lemma mentions_ok (s : string) : s ∈ mention_types -> text_ok s.
Proof.
  intros Hs. apply list_elem_of_In in Hs. simpl in Hs.
  destruct Hs as [<-|[<-|[<-|[<-|[]]]]]; by split_and!.
Qed.

Lemma forwarded_ids_range (w : W) :
  let l := (generate_forwarded_message_ids w).1 in
  (length l <= 3)%nat /\ Forall (fun i => 1000000 <= i <= 9999999) l.
Proof.
  unfold generate_forwarded_message_ids, Py.bind, Py.ret.
  destruct (bernoulli (15 # 100) w) as [[|] w1]; [|by split; [simpl; lia|constructor]].
  pose proof (randint_range 1 3 w1 ltac:(lia)) as Hn.
  destruct (randint 1 3 w1) as [n w2]. cbn [fst] in Hn.
  destruct (repeatM_spec (fun i => 1000000 <= i <= 9999999) (randint 1000000 9999999)
              (Z.to_nat n) w2) as [Hlen Hall].
  { intros w'. apply randint_range. lia. }
  cbv zeta. split; [lia|done].
Qed.

Lemma generate_message_shape (idx : Z) (chat : option Z) (w : W) :
  message_ok naive_timestamp chat idx (generate_message idx chat w).1.
Proof.
  unfold generate_message, Py.bind, Py.ret. cbv beta.
  match goal with
  | |- context [let (_, _) := ?e in _] =>
      assert (match chat with
              | Some c => e.1 = c
              | None => 1000 <= e.1 < 500000
              end) as Hchat
        by (destruct chat as [c|]; [done|by apply (choice_in_range 1000 500000)]);
      destruct e as [cid w1]
  end.
  cbn [fst] in Hchat.
  pose proof (choice_in_range 1000 1000000 w1 ltac:(lia)) as Hauthor.
  change (Range 1000 1000000) with Message.users in Hauthor.
  destruct (choice Message.users w1) as [author w2]. cbn [fst] in Hauthor.
  pose proof (message_timestamp_range w2) as Hdate.
  destruct (Message.generate_timestamp w2) as [d w3]. cbn [fst] in Hdate.
  destruct (bernoulli (1 # 10) w3) as [edited w4].
  match goal with
  | |- context [let (_, _) := ?e in _] =>
      assert (e.1 = d \/ d + 60 <= e.1 <= d + 3600) as Hupd;
      [|destruct e as [upd w5]]
  end.
  { destruct edited; [|by left]. right.
    pose proof (randint_range 60 3600 w4 ltac:(lia)) as Hr.
    destruct (randint 60 3600 w4) as [d0 w']. simpl in *. lia. }
  cbn [fst] in Hupd.
  pose proof (generated_text_ok 3 50 w5 ltac:(lia)) as Htext.
  destruct (generate_text 3 50 w5) as [txt w6]. cbn [fst] in Htext.
  destruct (generate_kludges w6) as [kl w7].
  destruct (generate_forwarded_message_ids w7) as [first_ids w8].
  pose proof (forwarded_ids_range w8) as Hfwd. cbv zeta in Hfwd.
  destruct (generate_forwarded_message_ids w8) as [fids w9]. cbn [fst] in Hfwd.
  pose proof (message_mentions_values w9) as Hment.
  destruct (Message.generate_mentions w9) as [ment w10]. cbn [fst] in Hment.
  pose proof (marked_users_picked author w10) as Hmarked.
  destruct (generate_marked_users author w10) as [marked w11]. cbn [fst] in Hmarked.
  pose proof (message_ttl_values w11) as Httl.
  destruct (Message.generate_ttl w11) as [t w12]. cbn [fst] in Httl.
  destruct (bernoulli (1 # 100) w12) as [del w13].
  pose proof (message_flags_below_32 w13) as Hflags.
  destruct (Message.generate_flags w13) as [fl w14]. cbn [fst] in Hflags.
  destruct Hfwd as [Hfl Hfr].
  unfold message_ok.
  cbn [fst chat_id bucket chat_msg_local_id flags date update_time author_id text
       forwarded_message_ids mentions marked_users ttl].
  split_and!; try done; lia.
Qed.

(** X20. Every message of [generate_message] is well formed: its local
    id is the index and its bucket the index divided by 1000, chat and
    author lie in their id ranges, the date is the timestamp that the
    host gives to a local time between 1095 days before 1 January 2020
    and the last second of that day, an edit comes
    60 to 3600 seconds later, flags are below 32, ttl and mentions take
    their listed values, at most three forwarded ids of seven digits, at
    most five different marked users without the author, and a text of
    Cyrillic letters, spaces and closing marks, with no backslash and no
    line feed, that [clean_value] leaves as it is. *)
Theorem generated_messages_are_well_formed (idx : Z) (chat : option Z) (w : W) :
  message_ok naive_timestamp chat idx (generate_message idx chat w).1.
Proof. apply generate_message_shape. Qed.

(** X21. A generated message survives the way through the INSERT
    statement and the loader: [parse_sql_values] on the values of its
    statement returns the fifteen fields, the text and the mentions
    exactly as generated, provided the media descriptor holds no
    backslash and no line feed. *)
Theorem generated_message_is_loaded_back (idx : Z) (chat : option Z) (w : W) :
  let m := (generate_message idx chat w).1 in
  carried (kludges m) = true ->
  parse_sql_values (insert_values m) = loaded_fields m.
Proof.
  intros m Hk.
  destruct (generate_message_shape idx chat w)
    as (_ & _ & _ & _ & _ & _ & _ & _ & Hment & _ & _ & _ & (Htc & Htext & _)).
  fold m in Hment, Htc, Htext.
  destruct (mentions_ok _ Hment) as (Hmc & Hmtext & _).
  rewrite (insert_values_parse m Htc Hk Hmc).
  unfold parsed_fields, loaded_fields. by rewrite Htext, Hmtext.
Qed.

End GeneratedMessages.

(* ================================================================== *)
(** ** From the chats to the peer ids *)
(* ================================================================== *)

Section ChatsToPeerIds.
Context {W : Type} {R : PyRuntime W} {L : PyRuntimeLaws W} {L' : PyRandomLaws W}.
Import PeerIds PeerIdsShape.


End ChatsToPeerIds.

(* ================================================================== *)
(** ** The statements of [no_batch.py] through the loader *)
(* ================================================================== *)

Section NoBatchRoundTrip.
Import PyStr Encoder SqlParser SqlWriter MessageCql.

Lemma clean_str_of_bool (b : bool) :
  clean_value (strip (NoBatch.str_of_bool b)) = str_of_bool_lower b.
Proof. by destruct b. Qed.

Lemma values_list_text (m : message) :
  NoBatch.values_list m = field_text <$> NoBatch.value_fields m.
Proof.
  unfold NoBatch.values_list, NoBatch.value_fields.
  cbn [fmap list_fmap field_text].
  by destruct (forwarded_message_ids m), (marked_users m).
Qed.

Section OneStatement.
Variable m : message.
Hypothesis text_carried : carried (text m) = true.
Hypothesis kludges_carried : carried (kludges m) = true.
Hypothesis mentions_carried : carried (mentions m) = true.

Lemma value_fields_ok : Forall (fun f => field_ok f = true) (NoBatch.value_fields m).
Proof.
  destruct (carried_spec _ text_carried) as [Ht _].
  destruct (carried_spec _ kludges_carried) as [Hk _].
  destruct (carried_spec _ mentions_carried) as [Hm _].
  unfold NoBatch.value_fields. repeat constructor; cbn [field_ok];
    try apply str_of_int_bare; try apply list_body_ok;
    try (by rewrite ?Ht, ?Hk, ?Hm);
    by match goal with |- context [NoBatch.str_of_bool ?b] => destruct b end.
Qed.

Lemma value_fields_no_newline :
  Forall (fun s => contains newline s = false) (field_text <$> NoBatch.value_fields m).
Proof.
  destruct (carried_spec _ text_carried) as [_ Ht].
  destruct (carried_spec _ kludges_carried) as [_ Hk].
  destruct (carried_spec _ mentions_carried) as [_ Hm].
  unfold NoBatch.value_fields. cbn [fmap list_fmap field_text].
  repeat constructor;
    try apply str_of_int_no_newline; try apply list_text_no_newline;
    try (by apply quoted_no_newline);
    by match goal with |- context [NoBatch.str_of_bool ?b] => destruct b end.
Qed.

Lemma value_fields_cleaned :
  (fun f => clean_value (strip (field_content f))) <$> NoBatch.value_fields m
  = parsed_fields m.
Proof.
  unfold NoBatch.value_fields, parsed_fields. cbn [fmap list_fmap field_content].
  rewrite !clean_str_of_bool, !clean_list_text.
  by rewrite !clean_int.
Qed.

Lemma values_str_flat :
  strip (replace_char newline (chr space) (NoBatch.values_str m))
  = render " " (NoBatch.value_fields m).
Proof.
  unfold NoBatch.values_str.
  rewrite values_list_text, replace_char_join by apply value_fields_no_newline.
  change (replace_char newline (chr space) ", ") with (String comma " ").
  rewrite render_join.
  destruct (str_of_int_numeric (chat_id m)) as [Hnum Hne].
  destruct (str_of_int (chat_id m)) as [|a s] eqn:Hchat; [done|].
  simpl in Hnum. apply andb_prop in Hnum as [Ha _].
  destruct (numeric_char_spec a Ha) as (_ & _ & Hsp & _).
  rewrite <- (append_nil_r (render " " (NoBatch.value_fields m))) at 1.
  rewrite <- (append_nil_l (render " " (NoBatch.value_fields m) +:+ "")).
  apply (strip_between _ _ _ a "e"%char); [done|done|done|done| |].
  - unfold NoBatch.value_fields. rewrite render_more. cbn [field_text]. rewrite Hchat.
    rewrite append_cons. simpl. unfold ascii_eqb. apply Ascii.eqb_refl.
  - apply endswith_render; [done|]. cbn [List.last NoBatch.value_fields field_text].
    by destruct (deleted_for_all m).
Qed.

End OneStatement.

(** X19. The one-line statement of [no_batch.py] and the statement of
    [generate.py] load to the same fifteen values: [no_batch.py] writes
    the booleans as [True] and [False], which [clean_value] brings to
    lower case, and the texts and lists come back as from [generate.py],
    as long as the texts are made of ASCII and Cyrillic characters
    ([plain_text]: there [strip] and [upper] decide as [str.strip] and
    [str.upper] do) and hold no backslash and no line feed. *)
Theorem both_statements_load_alike (m : message) :
  plain_text (text m) = true ->
  plain_text (kludges m) = true ->
  plain_text (mentions m) = true ->
  carried (text m) = true ->
  carried (kludges m) = true ->
  carried (mentions m) = true ->
  parse_sql_values (NoBatch.values_str m) = parsed_fields m
  /\ parse_sql_values (NoBatch.values_str m) = parse_sql_values (insert_values m).
Proof.
  intros _ _ _ Ht Hk Hm.
  assert (parse_sql_values (NoBatch.values_str m) = parsed_fields m) as Hparse.
  { rewrite <- (value_fields_cleaned m).
    apply (parse_render _ " "); [done| |done| |].
    - by apply value_fields_ok.
    - cbn [List.last NoBatch.value_fields field_content]. by destruct (deleted_for_all m).
    - by apply values_str_flat. }
  split; [done|]. by rewrite Hparse, insert_values_parse.
Qed.

End NoBatchRoundTrip.

(* ================================================================== *)
(** ** Runs of the further properties *)
(* ================================================================== *)

Section FurtherRuns.
Import PyStr Encoder EncoderVariants SqlParser SqlWriter.
Import Scripted Scenario Samples.

Lemma multiple_csv_files_split_the_row_stream_witness :
  exists files : list (list Message.row),
    concat files = (Message.generate_rows 3 0 (Some 7) (zeros monday)).1
    /\ Forall (fun f => 0 < Z.of_nat (length f) <= 2) files.
Proof.
  destruct (multiple_csv_files_split_the_row_stream 4 3 2 (Some 7) (zeros monday))
    as (files & _ & Hcat & Hall & _); [lia|simpl; lia|].
  by exists files.
Defined.

Lemma multiple_csv_files_need_a_positive_size_witness :
  (MessageFiles.generate_multiple_csv_files 5 10 0 None (zeros monday)).1
  = MessageFiles.Raised "ZeroDivisionError"
  /\ (MessageFiles.generate_multiple_csv_files 5 10 (-1) None (zeros monday)).1
     = MessageFiles.Running.
Proof.
  split.
  - apply (multiple_csv_files_need_a_positive_size 10 0 None (zeros monday)).
    reflexivity.
  - apply (multiple_csv_files_need_a_positive_size 10 (-1) None (zeros monday)); lia.
Defined.


Lemma encoder_copies_agree_but_for_json_and_lists_witness :
  escape_csv_value (VStr bare_braces) = chr dquote +:+ bare_braces +:+ chr dquote
  /\ escape_csv_value_usertomessage (VStr bare_braces) = bare_braces.
Proof.
  destruct encoder_copies_agree_but_for_json_and_lists as (_ & _ & Hjson & _).
  apply Hjson; reflexivity.
Defined.

Lemma quoted_literal_comes_back_witness :
  parse_sql_values (chr squote +:+ escape_quotes obrien +:+ chr squote)
  = if String.eqb obrien "" then [] else [clean_value (strip obrien)].
Proof. apply (quoted_literal_comes_back obrien); reflexivity. Defined.

Lemma insert_statement_values_parse_back_witness :
  generate_insert_statement quoting_message
  = insert_head +:+ insert_values quoting_message +:+ ");"
  /\ parse_sql_values (insert_values quoting_message) = parsed_fields quoting_message
  /\ length (parse_sql_values (insert_values quoting_message)) = 15%nat.
Proof. apply (insert_statement_values_parse_back quoting_message); reflexivity. Defined.

Lemma message_rows_are_well_formed_witness :
  exists r : Message.row,
    (Message.generate_rows 2 0 (Some 7) (zeros monday)).1 !! 1%nat = Some r
    /\ MessageShape.message_row_ok naive_timestamp (Some 7) 1 r.
Proof.
  eexists. split; [vm_compute; reflexivity|].
  apply (message_rows_are_well_formed 2 (Some 7) (zeros monday) 1).
  vm_compute; reflexivity.
Defined.


Lemma description_fits_the_limit_witness :
  (Chats.generate_description 10 (zeros monday)).1 = "Группа ..."
  /\ Z.of_nat (Chats.py_len (Chats.generate_description 10 (zeros monday)).1) <= 10.
Proof.
  split; [vm_compute; reflexivity|].
  destruct (description_fits_the_limit 10 (zeros monday) ltac:(lia))
    as (selected & _ & _ & _ & _ & Hle).
  exact Hle.
Defined.

Lemma marked_users_leave_out_the_author_witness :
  MarkedUsers.marked_ok 1000 (MessageCql.generate_marked_users 1000 (zeros monday)).1.
Proof.
  by destruct (marked_users_leave_out_the_author 1000 (zeros monday)) as [Hlist _].
Defined.

Lemma generated_messages_are_well_formed_witness :
  MessageCqlShape.message_ok naive_timestamp None 0
    (MessageCql.generate_message 0 None (zeros monday)).1.
Proof. apply (generated_messages_are_well_formed 0 None (zeros monday)). Defined.

Lemma generated_message_is_loaded_back_witness :
  parse_sql_values
    (insert_values (MessageCql.generate_message 0 None (zeros monday)).1)
  = MessageCqlShape.loaded_fields (MessageCql.generate_message 0 None (zeros monday)).1.
Proof.
  apply (generated_message_is_loaded_back 0 None (zeros monday)).
  vm_compute; reflexivity.
Defined.


Lemma both_statements_load_alike_witness :
  parse_sql_values (NoBatch.values_str quoting_message) = parsed_fields quoting_message
  /\ parse_sql_values (NoBatch.values_str quoting_message)
     = parse_sql_values (insert_values quoting_message).
Proof. apply (both_statements_load_alike quoting_message); reflexivity. Defined.

End FurtherRuns.
